(** * RLook: the 12-bit sample-disk decoder (rlook/disk/formats.py,
      rlook/disk/diskread.py), embedded in Rocq.

    The Python code is translated function by function.  Python [int] is [Z],
    [bytes] is [list byte], [str] is [string], a [dict] with string keys is
    a [gmap string], and a raised exception is the [Raise] outcome of
    [raises].  Methods that mutate [self] before they can raise return the
    mutated object together with the outcome. *)

From Stdlib Require Import ZArith List Lia.
From Stdlib.Strings Require Import String Ascii Byte.
From Stdlib Require Import DecimalString DecimalPos.
From stdpp Require Import base option list gmap strings.

Local Open Scope Z_scope.

(** ** Python primitives used by the decoder *)

Module Py.

(** The exceptions the decoder can raise.  [FileSizeError] and [FormatError]
    are declared in rlook/disk/exceptions.py; the others are Python's own. *)
Inductive exception : Type :=
| FileSizeError
| FormatError (msg : string)
| UnicodeDecodeError
| struct_error
| KeyError (key : string)
| TypeError
| IndexError.

Inductive raises (A : Type) : Type :=
| Return (a : A)
| Raise (e : exception).
Arguments Return {A} a.
Arguments Raise {A} e.

Definition bind {A B : Type} (m : raises A) (k : A -> raises B) : raises B :=
  match m with
  | Return a => k a
  | Raise e => Raise e
  end.

Definition returns {A : Type} (m : raises A) : Prop :=
  match m with Return _ => True | Raise _ => False end.

(** [l[lo:hi]] for a sequence: a negative index counts from the end, and
    both ends are clamped to the sequence; [None] is an omitted bound. *)
Definition slice_index (len i : Z) : Z :=
  if i <? 0 then Z.max (i + len) 0 else Z.min i len.

Definition slice {A : Type} (l : list A) (lo hi : option Z) : list A :=
  let len := Z.of_nat (length l) in
  let lo' := match lo with Some i => slice_index len i | None => 0 end in
  let hi' := match hi with Some i => slice_index len i | None => len end in
  take (Z.to_nat (hi' - lo')) (drop (Z.to_nat lo') l).

(** [l[i]] for a list: a negative index counts from the end. *)
Definition index {A : Type} (l : list A) (i : Z) : raises A :=
  let len := Z.of_nat (length l) in
  let i' := if i <? 0 then i + len else i in
  if i' <? 0 then Raise IndexError
  else match l !! Z.to_nat i' with
       | Some x => Return x
       | None => Raise IndexError
       end.

(** [d[key]] for a dict. *)
Definition getitem {V : Type} (d : gmap string V) (key : string) : raises V :=
  match d !! key with
  | Some v => Return v
  | None => Raise (KeyError key)
  end.

Definition byte_val (b : byte) : Z := Z.of_N (Byte.to_N b).

Definition byte_of_Z (z : Z) : byte :=
  default x00 (Byte.of_N (Z.to_N (z mod 256))).

(** [int.from_bytes(bs, byteorder='big', signed=False)] *)
Definition int_from_bytes (bs : list byte) : Z :=
  fold_left (fun acc b => acc * 256 + byte_val b) bs 0.

(** [int.from_bytes(bs, byteorder='big', signed=True)] *)
Definition int_from_bytes_signed (bs : list byte) : Z :=
  let bits := 8 * Z.of_nat (length bs) in
  let u := int_from_bytes bs in
  if (0 <? bits) && (2 ^ (bits - 1) <=? u) then u - 2 ^ bits else u.

(** [bs.decode('ascii')] *)
Definition decode_ascii (bs : list byte) : raises string :=
  if forallb (fun b => byte_val b <? 128) bs
  then Return (string_of_list_byte bs)
  else Raise UnicodeDecodeError.

(** [struct.unpack(str(size) + 'b', data)]: [size] signed chars.  A negative
    [size] gives a malformed format string, and [data] must have exactly
    [size] bytes. *)
Definition signed_char (b : byte) : Z :=
  let v := byte_val b in if v <? 128 then v else v - 256.

Definition struct_unpack_b (size : Z) (data : list byte) : raises (list Z) :=
  if size <? 0 then Raise struct_error
  else if Z.of_nat (length data) =? size then Return (map signed_char data)
  else Raise struct_error.

(** [struct.pack('H', v)]: an unsigned short in native byte order, which is
    little-endian on the ARM machines RISC OS runs on. *)
Definition struct_pack_H (v : Z) : raises (list byte) :=
  if (0 <=? v) && (v <=? 65535)
  then Return [byte_of_Z v; byte_of_Z (v / 256)]
  else Raise struct_error.

(** [str(n)] for an int. *)
Definition str (n : Z) : string := NilZero.string_of_int (Z.to_int n).

(** [c.isspace()] for an ASCII character. *)
Definition isspace (c : ascii) : bool :=
  let n := nat_of_ascii c in
  ((9 <=? n)%nat && (n <=? 13)%nat) || ((28 <=? n)%nat && (n <=? 32)%nat).

(** [s.split()]: the maximal runs of non-whitespace characters. *)
Fixpoint split_from (cur : string) (s : string) : list string :=
  match s with
  | EmptyString => if (cur =? "")%string then [] else [cur]
  | String c s' =>
      if isspace c
      then (if (cur =? "")%string then split_from "" s'
            else cur :: split_from "" s')
      else split_from (cur +:+ String c EmptyString) s'
  end.

Definition split (s : string) : list string := split_from "" s.

(** [sep.join(l)] *)
Fixpoint join (sep : string) (l : list string) : string :=
  match l with
  | [] => ""
  | [x] => x
  | x :: l' => x +:+ sep +:+ join sep l'
  end.

End Py.
Import Py.

Notation "'let*' x ':=' m 'in' k" := (bind m (fun x => k))
  (at level 10, x pattern, m at level 100, k at level 200).

(** ** formats.py: the two disk formats *)

Module formats.

(** One [{'name': .., 'type': .., 'size': ..}] entry of a parameter table. *)
Record Param : Type := P { pname : string; ptype : string; psize : Z }.

Definition S550_tone_fmt : list Param :=
  [ P "NAME" "ascii" 8;
    P "TONE OUTPUT ASSIGN" "int" 1;
    P "SOURCE TONE" "int" 1;
    P "ORIG/SUB TONE" "int" 1;
    P "FREQUENCY" "int" 1;
    P "ORIG KEY NUMBER" "int" 1;
    P "WAVE BANK" "int" 1;
    P "WAVE SEGMENT TOP" "int" 1;
    P "WAVE SEGMENT LENGTH" "int" 1;
    P "START POINT" "int" 3;
    P "END POINT" "int" 3;
    P "LOOP POINT" "int" 3;
    P "LOOP MODE" "int" 1;
    P "TVA LFO DEPTH" "int" 1;
    P "dummy1" "dummy" 1;
    P "LFO RATE" "int" 1;
    P "LFO SYNC" "int" 1;
    P "LFO DELAY" "int" 1;
    P "dummy2" "dummy" 1;
    P "LFO MODE" "int" 1;
    P "OSC LFO DEPTH" "int" 1;
    P "LFO POLARITY" "int" 1;
    P "LFO OFFSET" "int" 1;
    P "TRANSPOSE" "signed_int" 1;
    P "FINE TUNE" "signed_int" 1;
    P "TVF CUT OFF" "int" 1;
    P "TVF RESONANCE" "int" 1;
    P "TVF KEY FOLLOW" "int" 1;
    P "dummy3" "dummy" 1;
    P "TVF LFO DEPTH" "int" 1;
    P "TVF EG DEPTH" "int" 1;
    P "TVF EG POLARITY" "int" 1;
    P "TVF LEVEL CURVE" "int" 1;
    P "TVF KEY RATE FOLLOW" "int" 1;
    P "TVF VELOCITY RATE FOLLOW" "int" 1;
    P "dummy4" "dummy" 1;
    P "TVF SWITCH" "int" 1;
    P "BENDER SWITCH" "int" 1;
    P "TVA ENV SUSTAIN POINT" "int" 1;
    P "TVA ENV END POINT" "int" 1;
    P "TVA ENV" "multi" 16;
    P "dummy5" "dummy" 1;
    P "TVA ENV KEY-RATE" "int" 1;
    P "LEVEL" "int" 1;
    P "ENV VEL-RATE" "int" 1;
    P "Recording Params" "multi" 12;
    P "ZOOM T" "int" 1;
    P "ZOOM L" "int" 1;
    P "COPY SOURCE" "int" 1;
    P "LOOP TUNE" "signed_int" 1;
    P "TVA LEVEL CURVE" "int" 1;
    P "dummy6" "dummy" 12;
    P "LOOP LENGTH" "int" 3;
    P "PITCH FOLLOW" "int" 1;
    P "ENV ZOOM" "int" 1;
    P "TVF ENV SUSTAIN POINT" "int" 1;
    P "TVF ENV END POINT" "int" 1;
    P "TVF ENV" "multi" 16;
    P "AFTER TOUCH SWITCH" "int" 1;
    P "dummy7" "dummy" 2 ].

Definition S550_patch_fmt : list Param :=
  [ P "NAME" "ascii" 12;
    P "BEND RANGE" "int" 1;
    P "dummy1" "dummy" 1;
    P "AFTER TOUCH SENSE" "int" 1;
    P "KEY MODE" "int" 1;
    P "VELOCITY SW THRESHOLD" "int" 1;
    P "TONE TO KEY 1" "multi" 109;
    P "TONE TO KEY 2" "multi" 109;
    P "COPY SOURCE" "int" 1;
    P "OCTAVE SHIFT" "signed_int" 1;
    P "OUTPUT LEVEL" "int" 1;
    P "dummy2" "dummy" 1;
    P "DETUNE" "signed_int" 1;
    P "VELOCITY MIX RATIO" "int" 1;
    P "AFTER TOUCH ASSIGN" "int" 1;
    P "KEY ASSIGN" "int" 1;
    P "OUTPUT ASSIGN" "int" 1;
    P "dummy3" "dummy" 12 ].

Definition S550_func_fmt : list Param :=
  [ P "MASTER TUNE" "signed_int" 1;
    P "dummy1" "dummy" 13;
    P "dummy2" "dummy" 1;
    P "dummy3" "dummy" 1;
    P "VOICE MODE" "int" 1;
    P "MULTI MIDI RX-CH" "multi" 8;
    P "MULTI PATCH NUMBER" "multi" 8;
    P "dummy4" "dummy" 9;
    P "KEYBOARD DISPLAY" "int" 1;
    P "MULTI LEVEL" "multi" 8;
    P "DISK LABEL" "raw" 60;
    P "dummy5" "dummy" 4;
    P "EXTERNAL CONTROLLER" "int" 1;
    P "dummy6" "dummy" 108 ].

Definition S550_midi_fmt : list Param :=
  [ P "dummy1" "dummy" 64;
    P "RX CHANNEL" "multi" 8;
    P "RX PROGRAM CHANGE" "multi" 8;
    P "RX BENDER" "multi" 8;
    P "RX MODULATION" "multi" 8;
    P "RX HOLD" "multi" 8;
    P "RX AFTER TOUCH" "multi" 8;
    P "RX VOLUME" "multi" 8;
    P "RX BEND RANGE" "multi" 8;
    P "dummy2" "dummy" 1;
    P "SYSTEM EXCLUSIVE" "int" 1;
    P "DEVICE ID" "int" 1;
    P "RX PROGRAM CHANGE NUMBER" "multi" 32;
    P "dummy3" "dummy" 125 ].

Definition S50_tone_fmt : list Param :=
  [ P "NAME" "ascii" 8;
    P "dummy1" "dummy" 1;
    P "SOURCE TONE" "int" 1;
    P "ORIG/SUB TONE" "int" 1;
    P "FREQUENCY" "int" 1;
    P "ORIG KEY NUMBER" "int" 1;
    P "WAVE BANK" "int" 1;
    P "WAVE SEGMENT TOP" "int" 1;
    P "WAVE SEGMENT LENGTH" "int" 1;
    P "START POINT" "int" 3;
    P "END POINT" "int" 3;
    P "LOOP POINT" "int" 3;
    P "LOOP MODE" "int" 1;
    P "dummy2" "dummy" 2;
    P "LFO RATE" "int" 1;
    P "dummy3" "dummy" 1;
    P "LFO DELAY" "int" 1;
    P "dummy4" "dummy" 2;
    P "LFO DEPTH" "int" 1;
    P "dummy5" "dummy" 3;
    P "FINE TUNE" "int" 1;
    P "dummy6" "dummy" 13;
    P "TVA ENV SUSTAIN POINT" "int" 1;
    P "TVA ENV END POINT" "int" 1;
    P "TVA ENV" "multi" 16;
    P "dummy7" "dummy" 1;
    P "ENV KEY-RATE" "int" 1;
    P "LEVEL" "int" 1;
    P "ENV VEL-RATE" "int" 1;
    P "ENV THRESHOLD" "int" 1;
    P "REC PRE-TRIGER" "int" 1;
    P "REC SAMPLING FREQUENCY" "int" 1;
    P "REC START POINT" "int" 3;
    P "REC END POINT" "int" 3;
    P "REC LOOP POINT" "int" 3;
    P "ZOOM T" "int" 1;
    P "ZOOM L" "int" 1;
    P "COPY SOURCE" "int" 1;
    P "LOOP TUNE" "signed_int" 1;
    P "LEVEL CURVE" "int" 1;
    P "dummy8" "dummy" 12;
    P "LOOP LENGTH" "int" 3;
    P "PITCH FOLLOW" "int" 1;
    P "ENV ZOOM" "int" 1;
    P "dummy9" "dummy" 21 ].

Definition S50_patch_fmt : list Param :=
  [ P "NAME" "ascii" 12;
    P "BEND RANGE" "int" 1;
    P "dummy1" "dummy" 1;
    P "AFTER TOUCH SENSE" "int" 1;
    P "dummy2" "dummy" 4;
    P "KEY MODE" "int" 1;
    P "VELOCITY SW THRESHOLD" "int" 1;
    P "dummy3" "dummy" 19;
    P "TONE TO KEY 1" "multi" 128;
    P "TONE TO KEY 2" "multi" 128;
    P "COPY SOURCE" "int" 1;
    P "OCTAVE SHIFT" "int" 1;
    P "OUTPUT LEVEL" "int" 1;
    P "MODULATION DEPTH" "int" 1;
    P "DETUNE" "dummy" 1;
    P "VELOCITY MIX RATIO" "int" 1;
    P "AFTER TOUCH ASSIGN" "int" 1;
    P "dummy4" "dummy" 209 ].

Definition S50_func_fmt : list Param :=
  [ P "MASTER TUNE" "signed_int" 1;
    P "dummy1" "dummy" 3;
    P "CONTROLLER ASSIGN" "int" 1;
    P "DP-2 ASSIGN" "int" 1;
    P "dummy2" "dummy" 8;
    P "AUDIO TRIG" "int" 1;
    P "SYSTEM MODE" "int" 1;
    P "VOICE MODE" "int" 1;
    P "MULTI MIDI RX-CH" "multi" 8;
    P "MULTI PATCH NUMBER" "multi" 8;
    P "MULTI TONE NUMBER" "multi" 8;
    P "dummy3" "dummy" 1;
    P "KEYBOARD ASSIGN" "int" 1;
    P "MULTI LEVEL" "multi" 8;
    P "DISK LABEL" "raw" 60;
    P "MIDI CONTROL CHANGE NUMBER" "int" 1;
    P "PARAMETER INITIALIZE" "int" 1;
    P "DT-100" "int" 1;
    P "dummy4" "dummy" 270 ].

Definition S50_midi_fmt : list Param :=
  [ P "dummy1" "dummy" 8;
    P "TX CHANNEL" "int" 1;
    P "TX PROGRAM CHANGE" "int" 1;
    P "TX BENDER" "int" 1;
    P "TX MODULATION" "int" 1;
    P "TX HOLD" "int" 1;
    P "TX AFTER TOUCH" "int" 1;
    P "TX VOLUME" "int" 1;
    P "dummy2" "dummy" 1;
    P "RX PROGRAM NUMBER" "multi" 8;
    P "TX PROGRAM NUMBER" "multi" 8;
    P "RX CHANNEL" "multi" 8;
    P "RX PROGRAM CHANGE" "multi" 8;
    P "RX BENDER" "multi" 8;
    P "RX MODULATION" "multi" 8;
    P "RX HOLD" "multi" 8;
    P "RX AFTER TOUCH" "multi" 8;
    P "RX VOLUME" "multi" 8;
    P "RX BEND RANGE" "multi" 8;
    P "TX BEND RANGE" "int" 1;
    P "SYSTEM EXCLUSIVE" "int" 1;
    P "DEVICE ID" "int" 1;
    P "dummy3" "dummy" 285 ].

(** An instance of class [S550] or [S50]. *)
Record Format : Type := {
  FORMAT_STRING : string;
  SYSTEM_SIZE : Z;
  PATCH_SIZE : Z;
  TONE_SIZE : Z;
  WAVE_SIZE : Z;
  TONES_OFFSET : Z;
  PATCHES_OFFSET : Z;
  FUNCTION_OFFSET : Z;
  MIDI_OFFSET : Z;
  WAVE_OFFSET : Z;
  PATCH_COUNT : Z;
  TONE_COUNT : Z;
  tone_fmt : list Param;
  patch_fmt : list Param;
  func_fmt : list Param;
  midi_fmt : list Param
}.

Definition S550 : Format := {|
  FORMAT_STRING := "S550";
  SYSTEM_SIZE := 64512;
  PATCH_SIZE := 256;
  TONE_SIZE := 128;
  WAVE_SIZE := 660312;
  TONES_OFFSET := 69120;
  PATCHES_OFFSET := 64512;
  FUNCTION_OFFSET := 68608;
  MIDI_OFFSET := 68832;
  WAVE_OFFSET := 73728;
  PATCH_COUNT := 16;
  TONE_COUNT := 32;
  tone_fmt := S550_tone_fmt;
  patch_fmt := S550_patch_fmt;
  func_fmt := S550_func_fmt;
  midi_fmt := S550_midi_fmt
|}.

Definition S50 : Format := {|
  FORMAT_STRING := "S-50";
  SYSTEM_SIZE := 64512;
  PATCH_SIZE := 512;
  TONE_SIZE := 128;
  WAVE_SIZE := 660312;
  TONES_OFFSET := 69120;
  PATCHES_OFFSET := 64512;
  FUNCTION_OFFSET := 68608;
  MIDI_OFFSET := 68832;
  WAVE_OFFSET := 73728;
  PATCH_COUNT := 8;
  TONE_COUNT := 32;
  tone_fmt := S50_tone_fmt;
  patch_fmt := S50_patch_fmt;
  func_fmt := S50_func_fmt;
  midi_fmt := S50_midi_fmt
|}.

(** [check(img)]: the format of a disk image, from the four bytes at
    offset 4. *)
Definition check (img : list byte) : raises Format :=
  match decode_ascii (slice img (Some 4) (Some 8)) with
  | Raise _ => Raise (FormatError "Format error: Unknown file format")
  | Return format_str =>
      if (format_str =? "S550")%string || (format_str =? "S330")%string
      then Return S550
      else if (format_str =? format_str)%string && (format_str =? "W-30")%string
      then Return S550
      else if (format_str =? "S-50")%string || (format_str =? "S-51")%string
      then Return S50
      else Raise (FormatError
                    ("Format error: Invalid disk format '" +:+ format_str +:+ "'"))
  end.

End formats.
Import formats.

(** ** diskread.py: parameter blocks, the disk and its wave data *)

Module diskread.

Definition MAX_FILE_SIZE : Z := 2000000.

(** A value stored in a block's [values] dict: an int ([int], [signed_int]),
    a str ([ascii]), a tuple of ints ([multi]) or bytes ([raw]). *)
Inductive value : Type :=
| VInt (n : Z)
| VStr (s : string)
| VTuple (t : list Z)
| VBytes (b : list byte).

(** Truth value of a stored value, as [if v] tests it. *)
Definition truthy (v : value) : bool :=
  match v with
  | VInt n => negb (n =? 0)
  | VStr s => negb (s =? "")%string
  | VTuple t => match t with [] => false | _ => true end
  | VBytes b => match b with [] => false | _ => true end
  end.

(** [v == n] for an int literal [n]. *)
Definition eq_int (v : value) (n : Z) : bool :=
  match v with
  | VInt m => m =? n
  | _ => false
  end.

(** An int operand of [+] with an int: any other stored value is a
    [TypeError] ([SEGMENT_SIZE * v] is a sequence then, not a number). *)
Definition as_int (v : value) : raises Z :=
  match v with
  | VInt n => Return n
  | _ => Raise TypeError
  end.

(** *** class DiskBytes *)

Record DiskBytes : Type := { _view : list byte }.

Definition DiskBytes_init (bytesobject : list byte) (offset_start : Z)
    (offset_end : option Z) : DiskBytes :=
  {| _view := slice bytesobject (Some offset_start) offset_end |}.

Definition DiskBytes_pop (self : DiskBytes) (n : Z) : list byte * DiskBytes :=
  (slice (_view self) None (Some n),
   {| _view := slice (_view self) (Some n) None |}).

Definition DiskBytes_skip (self : DiskBytes) (n : Z) : DiskBytes :=
  {| _view := slice (_view self) (Some n) None |}.

Definition DiskBytes_contents (self : DiskBytes) : list byte := _view self.

(** One iteration of the loop of [read_params]: the buffer and the dict
    after it, and whether it raised.  The bytes are popped before they are
    decoded, so a failed decode has already advanced the buffer. *)
Definition read_param (param : Param) (self : DiskBytes)
    (values : gmap string value)
    : DiskBytes * gmap string value * raises unit :=
  let pname := pname param in
  if (ptype param =? "int")%string then
    let '(bs, self) := DiskBytes_pop self (psize param) in
    (self, <[pname := VInt (int_from_bytes bs)]> values, Return tt)
  else if (ptype param =? "signed_int")%string then
    let '(bs, self) := DiskBytes_pop self (psize param) in
    (self, <[pname := VInt (int_from_bytes_signed bs)]> values, Return tt)
  else if (ptype param =? "multi")%string then
    let '(bs, self) := DiskBytes_pop self (psize param) in
    match struct_unpack_b (psize param) bs with
    | Return t => (self, <[pname := VTuple t]> values, Return tt)
    | Raise e => (self, values, Raise e)
    end
  else if (ptype param =? "ascii")%string then
    let '(bs, self) := DiskBytes_pop self (psize param) in
    match decode_ascii bs with
    | Return s => (self, <[pname := VStr s]> values, Return tt)
    | Raise e => (self, values, Raise e)
    end
  else if (ptype param =? "raw")%string then
    let '(bs, self) := DiskBytes_pop self (psize param) in
    (self, <[pname := VBytes bs]> values, Return tt)
  else if (ptype param =? "dummy")%string then
    (DiskBytes_skip self (psize param), values, Return tt)
  else
    (self, values, Return tt).

Fixpoint read_params (fmt : list Param) (self : DiskBytes)
    (values : gmap string value)
    : DiskBytes * gmap string value * raises unit :=
  match fmt with
  | [] => (self, values, Return tt)
  | param :: fmt' =>
      match read_param param self values with
      | (self, values, Return _) => read_params fmt' self values
      | (self, values, Raise e) => (self, values, Raise e)
      end
  end.

(** *** class ParamBlock, and its subclasses Tone and Patch

    [number] is the attribute the subclasses set in [read]; it is absent
    until then. *)

Record ParamBlock : Type := {
  values : gmap string value;
  block_fmt : list Param;
  addr : Z;
  number : option Z
}.

Definition ParamBlock_init (block_fmt : list Param) (block_addr : Z)
    : ParamBlock :=
  {| values := ∅; block_fmt := block_fmt; addr := block_addr;
     number := None |}.

Definition ParamBlock_read (self : ParamBlock) (img : list byte)
    : ParamBlock * raises unit :=
  let b := DiskBytes_init img (addr self) None in
  let '(_, values', r) := read_params (block_fmt self) b (values self) in
  ({| values := values'; block_fmt := block_fmt self; addr := addr self;
      number := number self |}, r).

Definition ParamBlock_get_name (self : ParamBlock) : raises value :=
  getitem (values self) "NAME".

Definition ParamBlock_lookup (self : ParamBlock) (key : string) : option value :=
  values self !! key.

Definition Tone_read (self : ParamBlock) (img : list byte)
    (number size : Z) : ParamBlock * raises unit :=
  let self := {| values := values self; block_fmt := block_fmt self;
                 addr := addr self + size * number;
                 number := Some number |} in
  match ParamBlock_read self img with
  | (self, Raise e) => (self, Raise e)
  | (self, Return _) =>
      match getitem (values self) "FREQUENCY" with
      | Raise e => (self, Raise e)
      | Return f =>
          ({| values := <["FREQUENCY" :=
                            VInt (if truthy f then 15000 else 30000)]>
                          (values self);
              block_fmt := block_fmt self; addr := addr self;
              number := diskread.number self |}, Return tt)
      end
  end.

Definition Tone_length (self : ParamBlock) : raises value :=
  getitem (values self) "WAVE SEGMENT LENGTH".

Definition Patch_read (self : ParamBlock) (img : list byte)
    (number size : Z) : ParamBlock * raises unit :=
  let self := {| values := values self; block_fmt := block_fmt self;
                 addr := addr self + size * number;
                 number := Some number |} in
  ParamBlock_read self img.

(** *** class Disk *)

Definition SEGMENT_SIZE : Z := 18432.
Definition BANK_SIZE : Z := 331776.

Record Disk : Type := {
  patches : list ParamBlock;
  tones : list ParamBlock;
  filename : string;
  format : Format;
  sys : list byte;
  os_ver : option string;
  wave : list byte;
  function : ParamBlock;
  midi : ParamBlock
}.

(** The [for i in range(0, count)] loops of [Disk.__init__]: a new block
    for each index, read at that index and appended; the first read that
    raises ends the construction. *)
Fixpoint read_blocks
    (read : ParamBlock -> list byte -> Z -> Z -> ParamBlock * raises unit)
    (block_fmt : list Param) (offset size : Z) (img : list byte)
    (indices : list Z) : raises (list ParamBlock) :=
  match indices with
  | [] => Return []
  | i :: indices' =>
      let p := ParamBlock_init block_fmt offset in
      match read p img i size with
      | (_, Raise e) => Raise e
      | (p, Return _) =>
          let* ps := read_blocks read block_fmt offset size img indices' in
          Return (p :: ps)
      end
  end.

(** [Disk(filename)], for a file holding the bytes [file]: the lines sent
    to [tee], in order, and the disk or the exception raised.  The line
    for an undecodable version string leaves out the text of the caught
    exception, and [os_ver] is [None] when the attribute is never set. *)
Definition Disk_init (filename : string) (file : list byte)
    : list string * raises Disk :=
  if Z.of_nat (length file) >? MAX_FILE_SIZE then ([], Raise FileSizeError)
  else
    let img := file in
    match check img with
    | Raise e => ([], Raise e)
    | Return format =>
        let log :=
          if Z.of_nat (length img) =? 737280 then []
          else ["Bad disk image size: " +:+ str (Z.of_nat (length img))
                  +:+ " bytes."] in
        let sys := slice file None (Some 64512) in
        let log :=
          log ++ ["Read " +:+ str (Z.of_nat (length sys))
                    +:+ " bytes system data."] in
        let '(os_ver, log) :=
          match decode_ascii (slice sys (Some 32) (Some 63)) with
          | Return s =>
              let s := join " " (split s) in
              (Some s, log ++ ["System version: " +:+ s])
          | Raise _ =>
              (None, log ++ ["Unable to decode version string!"])
          end in
        let wave := slice (slice file (Some 73728) None) None (Some 663552) in
        let log :=
          log ++ ["Read " +:+ str (Z.of_nat (length wave))
                    +:+ " bytes wave data."] in
        match ParamBlock_read (ParamBlock_init (func_fmt format) 68608) img with
        | (_, Raise e) => (log, Raise e)
        | (function, Return _) =>
        let log := log ++ ["Read function parameters from disk."] in
        match ParamBlock_read (ParamBlock_init (midi_fmt format) 68832) img with
        | (_, Raise e) => (log, Raise e)
        | (midi, Return _) =>
        let log := log ++ ["Read MIDI parameters from disk."] in
        match read_blocks Patch_read (patch_fmt format) (PATCHES_OFFSET format)
                (PATCH_SIZE format) img (seqZ 0 (PATCH_COUNT format)) with
        | Raise e => (log, Raise e)
        | Return patches =>
        let log :=
          log ++ ["Read " +:+ str (Z.of_nat (length patches))
                    +:+ " patches from disk."] in
        match read_blocks Tone_read (tone_fmt format) (TONES_OFFSET format)
                (TONE_SIZE format) img (seqZ 0 (TONE_COUNT format)) with
        | Raise e => (log, Raise e)
        | Return tones =>
        let log :=
          log ++ ["Read " +:+ str (Z.of_nat (length tones))
                    +:+ " tones from disk."; "Done reading disk."] in
        (log,
         Return {| patches := patches; tones := tones; filename := filename;
                   format := format; sys := sys; os_ver := os_ver;
                   wave := wave; function := function; midi := midi |})
        end end end end
    end.

Definition get_wave_count (self : Disk) : raises Z :=
  fold_left
    (fun total tone =>
       let* total := total in
       let* len := Tone_length tone in
       Return (if eq_int len 0 then total else total + 1))
    (tones self) (Return 0).

Definition get_wave_start (self : Disk) (num : Z) : raises Z :=
  let* tone := index (tones self) num in
  let* tone_bank := getitem (values tone) "WAVE BANK" in
  let* tone_seg := getitem (values tone) "WAVE SEGMENT TOP" in
  let tone_addr := 0 in
  let tone_addr := if eq_int tone_bank 1 then tone_addr + BANK_SIZE
                   else tone_addr in
  let* tone_seg := as_int tone_seg in
  let tone_addr := tone_addr + SEGMENT_SIZE * tone_seg in
  Return tone_addr.

Definition get_wave_end (self : Disk) (num : Z) : raises Z :=
  let* tone_addr := get_wave_start self num in
  let* tone := index (tones self) num in
  let* tone_length := Tone_length tone in
  let* tone_length := as_int tone_length in
  let end_addr := tone_addr + SEGMENT_SIZE * tone_length in
  Return end_addr.

(** The two samples of a 3-byte chunk, each in the upper 12 bits of a
    16-bit value. *)
Definition sample_a (chunk : Z) : Z :=
  Z.shiftr (Z.land chunk 0xfff000) 8.

Definition sample_b (chunk : Z) : Z :=
  let chunk := Z.land chunk 0xfff in
  let sample_b := Z.land (Z.shiftl chunk 8) 0xff00 in
  Z.lor sample_b (Z.land (Z.shiftr chunk 4) 0xf0).

(** [samples_read >= loop_end], which needs an int on the right. *)
Definition reached (samples_read : Z) (loop_end : value) : raises bool :=
  let* loop_end := as_int loop_end in
  Return (loop_end <=? samples_read).

(** The [while tone_addr < end_addr] loop of [convert_wave].  [view] is
    what is left of [wave_view]: [pop(3)] takes its first three bytes, and
    a shorter chunk ends the loop.  [result] is the output written so
    far. *)
Fixpoint convert_loop (use_loop_points : bool) (loop_end : value)
    (end_addr : Z) (view : list byte) (tone_addr samples_read : Z)
    (result : list byte) : raises (list byte) :=
  if tone_addr <? end_addr then
    match view with
    | b0 :: b1 :: b2 :: view' =>
        let chunk := int_from_bytes [b0; b1; b2] in
        let a := sample_a chunk in
        let b := sample_b chunk in
        let samples_read := samples_read + 2 in
        let* stop := if use_loop_points then reached samples_read loop_end
                     else Return false in
        if (stop : bool) then Return result
        else
          let* bytes_a := struct_pack_H a in
          let* bytes_b := struct_pack_H b in
          convert_loop use_loop_points loop_end end_addr view'
            (tone_addr + 3) samples_read (result ++ bytes_a ++ bytes_b)
    | _ => Return result
    end
  else Return result.

Definition convert_wave (self : Disk) (num : Z) (use_loop_points : bool)
    : raises (list byte) :=
  let* tone := index (tones self) num in
  let* tone_bank := getitem (values tone) "WAVE BANK" in
  let* tone_seg := getitem (values tone) "WAVE SEGMENT TOP" in
  let* tone_length := Tone_length tone in
  let* tone_freq := getitem (values tone) "FREQUENCY" in
  let* loop_start := getitem (values tone) "START POINT" in
  let* loop_end := getitem (values tone) "END POINT" in
  let tone_addr := 0 in
  let tone_addr := if eq_int tone_bank 1 then tone_addr + BANK_SIZE
                   else tone_addr in
  let* tone_seg := as_int tone_seg in
  let tone_addr := tone_addr + SEGMENT_SIZE * tone_seg in
  let* tone_length := as_int tone_length in
  let end_addr := tone_addr + SEGMENT_SIZE * tone_length in
  let wave_view := DiskBytes_init (wave self) tone_addr (Some end_addr) in
  convert_loop use_loop_points loop_end end_addr (_view wave_view)
    tone_addr 0 [].

End diskread.
Import diskread.

(** ** Definitions used to state the properties *)

(** The packing of two 12-bit samples into a 3-byte chunk that
    [convert_wave] documents: the nibbles A1 A2 A3 B3 B1 B2, where A1 A2 A3
    are the nibbles of the first sample and B1 B2 B3 those of the second. *)
Definition pack_chunk (a b : Z) : list byte :=
  [byte_of_Z (a / 16); byte_of_Z (a mod 16 * 16 + b mod 16); byte_of_Z (b / 16)].

(** The value of two bytes read as a 16-bit little-endian integer. *)
Definition le16_val (lo hi : byte) : Z := byte_val lo + 256 * byte_val hi.

(** The four bytes [convert_wave] writes for a chunk. *)
Definition chunk_output (b0 b1 b2 : byte) : list byte :=
  let a := sample_a (int_from_bytes [b0; b1; b2]) in
  let b := sample_b (int_from_bytes [b0; b1; b2]) in
  [byte_of_Z a; byte_of_Z (a / 256); byte_of_Z b; byte_of_Z (b / 256)].

(** The four bytes at offsets 4 to 7 of an image, where the format string
    is stored. *)
Definition signature (img : list byte) : list byte := take 4 (drop 4 img).

(** The type tags [read_params] knows, and those among them whose value it
    stores under the field's name. *)
Definition known_tags : list string :=
  ["int"; "signed_int"; "multi"; "ascii"; "raw"; "dummy"]%string.

Definition stored_tags : list string :=
  ["int"; "signed_int"; "multi"; "ascii"; "raw"]%string.

Definition known_tag (t : string) : bool := existsb (String.eqb t) known_tags.

Definition stored_tag (t : string) : bool := existsb (String.eqb t) stored_tags.

(** The sum of the field sizes of a layout. *)
Definition layout_size (fmt : list Param) : Z :=
  fold_right (fun p n => psize p + n) 0 fmt.

(** The names of the fields of a layout that are stored, in order. *)
Fixpoint stored_names (fmt : list Param) : list string :=
  match fmt with
  | [] => []
  | p :: fmt' =>
      if stored_tag (ptype p) then pname p :: stored_names fmt'
      else stored_names fmt'
  end.

(** Every [ascii] field of the layout, laid over the buffer [view] field
    after field, holds bytes below 0x80 only. *)
Fixpoint ascii_clean (fmt : list Param) (view : list byte) : bool :=
  match fmt with
  | [] => true
  | p :: fmt' =>
      (if (ptype p =? "ascii")%string
       then forallb (fun b => byte_val b <? 128) (take (Z.to_nat (psize p)) view)
       else true)
      && ascii_clean fmt' (drop (Z.to_nat (psize p)) view)
  end.

(** The number of bytes a [read_params] pass takes from the buffer. *)
Definition consumed (fmt : list Param) (self : DiskBytes)
    (values : gmap string value) : Z :=
  Z.of_nat (length (_view self))
  - Z.of_nat (length (_view (read_params fmt self values).1.1)).

(** The decoding pass over the image from byte [a] on, into [values]. *)
Definition decode_at (fmt : list Param) (img : list byte) (a : Z)
    (values : gmap string value)
    : DiskBytes * gmap string value * raises unit :=
  read_params fmt {| _view := drop (Z.to_nat a) img |} values.

(** The block and outcome of a read that decodes [fmt] from byte [a] of the
    image into the dict of [self]. *)
Definition read_at (self : ParamBlock) (img : list byte) (a number : Z)
    : ParamBlock * raises unit :=
  let r := decode_at (block_fmt self) img a (values self) in
  ({| values := r.1.2; block_fmt := block_fmt self; addr := a;
      number := Some number |}, r.2).

(** What [Tone.read] does after the parent's [read]: the FREQUENCY flag
    becomes a sample rate. *)
Definition Tone_frequency (r : ParamBlock * raises unit)
    : ParamBlock * raises unit :=
  match r with
  | (self, Raise e) => (self, Raise e)
  | (self, Return _) =>
      match getitem (values self) "FREQUENCY" with
      | Raise e => (self, Raise e)
      | Return f =>
          ({| values := <["FREQUENCY" :=
                            VInt (if truthy f then 15000 else 30000)]>
                          (values self);
              block_fmt := block_fmt self; addr := addr self;
              number := number self |}, Return tt)
      end
  end.

(** The bytes of the image a decoding pass from byte [a] takes: from the
    first component up to, not including, the second. *)
Definition block_extent (fmt : list Param) (img : list byte) (a : Z) : Z * Z :=
  (a, a + consumed fmt {| _view := drop (Z.to_nat a) img |} ∅).

(** The tag of the last stored field of a layout with the given name: the
    one whose value the dict holds after a pass. *)
Fixpoint last_tag (fmt : list Param) (name : string) : option string :=
  match fmt with
  | [] => None
  | p :: fmt' =>
      match last_tag fmt' name with
      | Some t => Some t
      | None =>
          if stored_tag (ptype p) && (pname p =? name)%string
          then Some (ptype p) else None
      end
  end.

(** The fields of a tone that wave addressing and conversion read: the
    bank, the first segment, the number of segments and the end point, and
    the two fields that are looked up but not used. *)
Definition tone_fields (tone : ParamBlock) (bank : value) (seg len : Z)
    (loop_end : value) : Prop :=
  values tone !! "WAVE BANK"%string = Some bank /\
  values tone !! "WAVE SEGMENT TOP"%string = Some (VInt seg) /\
  values tone !! "WAVE SEGMENT LENGTH"%string = Some (VInt len) /\
  is_Some (values tone !! "FREQUENCY"%string) /\
  is_Some (values tone !! "START POINT"%string) /\
  values tone !! "END POINT"%string = Some loop_end.

(** The start address of the wave data of a tone in bank [bank] whose first
    segment is [seg]. *)
Definition wave_start (bank : value) (seg : Z) : Z :=
  (if eq_int bank 1 then BANK_SIZE else 0) + SEGMENT_SIZE * seg.

(** The 16-bit PCM of a run of 3-byte chunks: four bytes per chunk. *)
Fixpoint pcm_of (view : list byte) : list byte :=
  match view with
  | b0 :: b1 :: b2 :: view' => chunk_output b0 b1 b2 ++ pcm_of view'
  | _ => []
  end.

(** The number of 16-bit samples in a PCM buffer. *)
Definition sample_count (pcm : list byte) : Z := Z.of_nat (length pcm) / 2.

(** The number of leading chunks whose running sample count, 2 per chunk,
    stays below [k]. *)
Definition chunks_before (k : Z) : Z := Z.max 0 ((k - 1) / 2).

(** A 128-byte S-550 tone block named "PIANO" with the given bank, first
    segment, segment count and (low byte of the) end point, its decoded
    Tone, and a disk holding that tone alone over the given wave data. *)
Definition example_tone_bytes (bank seg len end_point : byte) : list byte :=
  [x50; x49; x41; x4e; x4f; x20; x20; x20]
  ++ [x00; x00; x00; x00; x3c; bank; seg; len]
  ++ [x00; x00; x00] ++ [x00; x00; end_point] ++ replicate 106 x00.

Definition example_tone (bank seg len end_point : byte) : ParamBlock :=
  (Tone_read (ParamBlock_init (tone_fmt S550) 0)
     (example_tone_bytes bank seg len end_point) 0 128).1.

Definition example_disk (tone : ParamBlock) (wave : list byte) : Disk :=
  {| patches := []; tones := [tone]; filename := "DEV/OUT"; format := S550;
     sys := []; os_ver := None; wave := wave;
     function := ParamBlock_init (func_fmt S550) 68608;
     midi := ParamBlock_init (midi_fmt S550) 68832 |}.



(** An image of 73728 bytes: the format string S550 at offset 4, zero
    bytes elsewhere, and no wave data. *)
Definition example_image : list byte :=
  replicate 4 x00 ++ [x53; x35; x35; x30]
  ++ replicate (Z.to_nat (73728 - 8)) x00.

(** ** More Python primitives: text *)

Module PyText.

(** A result that can only fail with [ValueError]. *)
Inductive checked (A : Type) : Type :=
| Done (a : A)
| ValueError.
Arguments Done {A} a.
Arguments ValueError {A}.

Definition check_bind {A B : Type} (m : checked A) (k : A -> checked B)
    : checked B :=
  match m with
  | Done a => k a
  | ValueError => ValueError
  end.

Definition is_digit (c : ascii) : bool :=
  let n := nat_of_ascii c in ((48 <=? n)%nat && (n <=? 57)%nat).

(** [s.lstrip()], [s.rstrip()] and [s.strip()] *)
Fixpoint lstrip (s : string) : string :=
  match s with
  | EmptyString => EmptyString
  | String c s' => if isspace c then lstrip s' else s
  end.

Fixpoint rstrip (s : string) : string :=
  match s with
  | EmptyString => EmptyString
  | String c s' =>
      let r := rstrip s' in
      if (r =? "")%string && isspace c then EmptyString else String c r
  end.

Definition strip (s : string) : string := rstrip (lstrip s).

(** The digits of a decimal literal, without the underscores that may
    stand, one at a time, between two digits; [after_digit] tells whether
    the character before was a digit. *)
Fixpoint literal_digits (after_digit : bool) (s : string) : option string :=
  match s with
  | EmptyString => if after_digit then Some EmptyString else None
  | String c s' =>
      if is_digit c then String c <$> literal_digits true s'
      else if Ascii.eqb c "_" && after_digit then literal_digits false s'
      else None
  end.

Definition unsigned_literal (s : string) : checked Z :=
  match literal_digits false s with
  | Some digits =>
      match NilEmpty.uint_of_string digits with
      | Some d => Done (Z.of_uint d)
      | None => ValueError
      end
  | None => ValueError
  end.

(** [int(s)] for a str of ASCII characters: surrounding whitespace, an
    optional sign, and decimal digits. *)
Definition int (s : string) : checked Z :=
  match strip s with
  | String "-" s' => check_bind (unsigned_literal s') (fun v => Done (- v))
  | String "+" s' => unsigned_literal s'
  | s' => unsigned_literal s'
  end.

(** The octal digits of a non-negative int, most significant first.  The
    recursion is bounded by [fuel], which is chosen larger than the number
    of digits. *)
Definition digit_char (d : Z) : ascii := ascii_of_nat (48 + Z.to_nat d).

Fixpoint oct_digits (fuel : nat) (n : Z) : string :=
  match fuel with
  | O => EmptyString
  | S fuel' =>
      if n <? 8 then String (digit_char n) EmptyString
      else oct_digits fuel' (n / 8) +:+ String (digit_char (n mod 8)) EmptyString
  end.

(** [oct(n)] *)
Definition oct (n : Z) : string :=
  let digits := oct_digits (S (Z.to_nat (Z.log2 (Z.abs n)))) (Z.abs n) in
  if n <? 0 then "-0o" +:+ digits else "0o" +:+ digits.

(** [s[lo:]] for a str *)
Definition str_from (s : string) (lo : Z) : string :=
  string_of_list_ascii (slice (list_ascii_of_string s) (Some lo) None).

(** [s[:hi]] for a str *)
Definition str_upto (s : string) (hi : Z) : string :=
  string_of_list_ascii (slice (list_ascii_of_string s) None (Some hi)).

(** [l.index(x)] for a list of str *)
Fixpoint list_index (l : list string) (x : string) : checked Z :=
  match l with
  | [] => ValueError
  | y :: l' =>
      if (y =? x)%string then Done 0
      else check_bind (list_index l' x) (fun i => Done (i + 1))
  end.

(** [s.translate({ord(c): None for c in chars})]: the characters of
    [chars] are deleted. *)
Fixpoint delete_chars (chars : list ascii) (s : string) : string :=
  match s with
  | EmptyString => EmptyString
  | String c s' =>
      if existsb (Ascii.eqb c) chars then delete_chars chars s'
      else String c (delete_chars chars s')
  end.

(** [s.replace(old, new)] for single characters [old] and [new] *)
Fixpoint replace_char (old new : ascii) (s : string) : string :=
  match s with
  | EmptyString => EmptyString
  | String c s' =>
      String (if Ascii.eqb c old then new else c) (replace_char old new s')
  end.

(** [zip] applied to the unpacked columns: the rows across them, as many
    as the shortest column has entries. *)
Definition zip_star {A : Type} (cols : list (list A)) : list (list A) :=
  match cols with
  | [] => []
  | col :: cols' =>
      let rows := fold_right Nat.min (length col) (map (@length A) cols') in
      map (fun r => omap (fun c => c !! r) cols) (seq 0 rows)
  end.

(** [struct.unpack('4s' * count, data)]: [count] byte strings of 4 bytes;
    [data] must have exactly [4 * count] bytes. *)
Fixpoint chunks_of_4 (count : nat) (data : list byte) : list (list byte) :=
  match count with
  | O => []
  | S count' => take 4 data :: chunks_of_4 count' (drop 4 data)
  end.

Definition struct_unpack_4s (count : nat) (data : list byte)
    : raises (list (list byte)) :=
  if (length data =? 4 * count)%nat then Return (chunks_of_4 count data)
  else Raise struct_error.

End PyText.
Import PyText.

Notation "'let?' x ':=' m 'in' k" := (check_bind m (fun x => k))
  (at level 10, x pattern, m at level 100, k at level 200).

(** ** diskread.py: Patch.tone_list *)

Module diskread_rest.

(** A Python set of ints or of one-character strings. *)
Inductive pyset : Type :=
| IntSet (s : gset Z)
| StrSet (s : gset string).

(** [a + b] for two stored values: ints add, sequences of the same type
    concatenate, anything else is a [TypeError]. *)
Definition value_add (a b : value) : raises value :=
  match a, b with
  | VInt x, VInt y => Return (VInt (x + y))
  | VStr x, VStr y => Return (VStr (x +:+ y))
  | VTuple x, VTuple y => Return (VTuple (x ++ y))
  | VBytes x, VBytes y => Return (VBytes (x ++ y))
  | _, _ => Raise TypeError
  end.

(** [set(v)] for a stored value: an int is not iterable. *)
Definition set_of (v : value) : raises pyset :=
  match v with
  | VInt _ => Raise TypeError
  | VStr s =>
      Return (StrSet (list_to_set
                        (map (fun c => String c EmptyString)
                           (list_ascii_of_string s))))
  | VTuple t => Return (IntSet (list_to_set t))
  | VBytes b => Return (IntSet (list_to_set (map byte_val b)))
  end.

Definition Patch_tone_list (self : ParamBlock) : raises pyset :=
  let* key1 := getitem (values self) "TONE TO KEY 1" in
  let* key2 := getitem (values self) "TONE TO KEY 2" in
  let* both := value_add key1 key2 in
  set_of both.

End diskread_rest.
Import diskread_rest.

(** ** formatting.py: display strings, and tone_filename of the package *)

Module formatting.

Definition newline : string := String (ascii_of_nat 10) EmptyString.

Definition midi_multi_ch_parse (vals : list Z) : list string :=
  map (fun v => if v =? 16 then "Off"%string else str (v + 1)) vals.

(** The bytes after the first line are unpacked into 12 columns of 4 and
    read across; the first [decode] comes before [struct.unpack], and each
    line is decoded as it is appended. *)
Definition readable_disk_label (raw : list byte) : raises string :=
  let* first := decode_ascii (slice raw None (Some 12)) in
  let result := first +:+ newline in
  let* cols := struct_unpack_4s 12 (slice raw (Some 12) None) in
  let* result :=
    fold_left
      (fun result line =>
         let* result := result in
         let* text := decode_ascii line in
         Return (result +:+ text +:+ newline))
      (zip_star cols) (Return result) in
  Return (str_upto result (-1)).

Definition scale : list string :=
  ["C"; "C#"; "D"; "D#"; "E"; "F"; "F#"; "G"; "G#"; "A"; "A#"; "B"]%string.

Definition int_to_note (n : Z) : raises string :=
  let degree := n mod 12 in
  let octave := n / 12 - 1 in
  let* name := index scale degree in
  Return (name +:+ " " +:+ str octave).

Definition note_to_int (n : string) : checked Z :=
  match split n with
  | [note; octave] =>
      let? octave := int octave in
      let octave_start := (octave + 1) * 12 in
      let? degree := list_index scale note in
      Done (octave_start + degree)
  | _ => ValueError
  end.

Definition roland_number (num : Z) : checked string :=
  let? octdec := int (str_from (oct num) 2) in
  let octdec := octdec + 11 in
  Done ("I" +:+ str octdec).

Definition multi_on_off (vals : list Z) : list string :=
  map (fun v => if v =? 0 then "Off"%string else "On"%string) vals.

(** The pair (rate, level); an odd number of values fails at [vals[i+1]]
    of the last step. *)
Fixpoint envelope_unpack (vals : list Z)
    : raises (list string * list string) :=
  match vals with
  | [] => Return ([], [])
  | [_] => Raise IndexError
  | level :: rate :: vals' =>
      match envelope_unpack vals' with
      | Return (rates, levels) => Return (str rate :: rates, str level :: levels)
      | Raise e => Raise e
      end
  end.

(** class Fields550 *)

Definition patch_output_renum (val : Z) : string :=
  if val =? 8 then "Tone" else str (val + 1).

Definition parse_voice_mode (val : Z) : string :=
  if val =? 0 then "Last Note (VAL)"
  else if val =? 1 then "First Note (VAF)"
  else "V " +:+ str (val - 1).

Fixpoint multi_roland_number (vals : list Z) : checked (list string) :=
  match vals with
  | [] => Done []
  | v :: vals' =>
      let? s := roland_number v in
      let? rest := multi_roland_number vals' in
      Done (s :: rest)
  end.

(** rlook/__init__.py: [tone_filename(num, name)] *)

Definition prohibited : list ascii :=
  ["$"; "&"; "%"; "@"; "\"; "^"; ":"; "."; "#"; "*"; ascii_of_nat 34; "|"]%char.

Definition tone_filename (num : Z) (name : string) : checked string :=
  let? num := roland_number num in
  Done (num +:+ "_"
        +:+ replace_char " " "_" (delete_chars prohibited (rstrip name))
        +:+ "/wav").

End formatting.
Import formatting.

(** ** Definitions used to state further properties *)

(** What a stored field of the given tag holds for the bytes popped. *)
Definition decode_field (tag : string) (bs : list byte) : option value :=
  if (tag =? "int")%string then Some (VInt (int_from_bytes bs))
  else if (tag =? "signed_int")%string then Some (VInt (int_from_bytes_signed bs))
  else if (tag =? "multi")%string then Some (VTuple (map signed_char bs))
  else if (tag =? "ascii")%string then Some (VStr (string_of_list_byte bs))
  else if (tag =? "raw")%string then Some (VBytes bs)
  else None.

(** Whether a tone counts as a sample: its segment length is not 0. *)
Definition tone_nonempty (tone : ParamBlock) : bool :=
  match values tone !! "WAVE SEGMENT LENGTH"%string with
  | Some v => negb (eq_int v 0)
  | None => false
  end.

(** Level and rate values back in the order they are stored in. *)
Fixpoint interleave (levels rates : list string) : list string :=
  match levels, rates with
  | l :: levels', r :: rates' => l :: r :: interleave levels' rates'
  | _, _ => []
  end.

(** Row [r] (0 to 3) of the scrambled part of a disk label: the bytes at
    offsets 12 + 4c + r for the columns c = 0 to 11. *)
Definition label_row (raw : list byte) (r : nat) : list byte :=
  omap (fun c => raw !! (12 + 4 * c + r)%nat) (seq 0 12).

(** Every character of a string satisfies a test. *)
Fixpoint all_chars (test : ascii -> bool) (s : string) : bool :=
  match s with
  | EmptyString => true
  | String c s' => test c && all_chars test s'
  end.

(** The decimal digits of a number of 0 to 63 written in octal: what
    [roland_number] reads back as a decimal number. *)
Definition octal_as_decimal (num : Z) : Z := 10 * (num / 8) + num mod 8.

(** A character that may stand in the name part of an exported file's
    name: not one of the prohibited characters, and not a space. *)
Definition filename_char (c : ascii) : bool :=
  negb (existsb (Ascii.eqb c) prohibited) && negb (Ascii.eqb c " ").

(** The readable form of a 60-byte disk label, all ASCII: the first 12
    bytes, then the four rows read across the 12 columns. *)
Definition label_text (raw : list byte) : string :=
  join newline
    (string_of_list_byte (take 12 raw)
     :: map (fun r => string_of_list_byte (label_row raw r)) (seq 0 4)).

(** ** Python primitives: basic facts *)

Lemma byte_val_range (b : byte) : 0 <= byte_val b < 256.
Proof.
  unfold byte_val. pose proof (Byte.to_N_bounded b) as Hb. lia.
Qed.

Lemma byte_val_of_Z (z : Z) : byte_val (byte_of_Z z) = z mod 256.
Proof.
  unfold byte_val, byte_of_Z.
  assert (Hr : 0 <= z mod 256 < 256) by (apply Z.mod_pos_bound; lia).
  destruct (Byte.of_N (Z.to_N (z mod 256))) as [b|] eqn:E; simpl.
  - apply Byte.to_of_N in E. rewrite E. lia.
  - apply Byte.of_N_None_iff in E. lia.
Qed.

Lemma int_from_bytes_3 (b0 b1 b2 : byte) :
  int_from_bytes [b0; b1; b2]
  = byte_val b0 * 65536 + byte_val b1 * 256 + byte_val b2.
Proof. unfold int_from_bytes. simpl. lia. Qed.

(** ** Bit masks as arithmetic *)

Lemma land_shifted_ones (c k n : Z) :
  0 <= k -> 0 <= n ->
  Z.land c (Z.shiftl (Z.ones n) k) = (c / 2 ^ k) mod 2 ^ n * 2 ^ k.
Proof.
  intros Hk Hn.
  rewrite <- Z.land_ones, <- Z.shiftr_div_pow2, <- Z.shiftl_mul_pow2 by lia.
  apply Z.bits_inj'. intros i Hi.
  rewrite Z.land_spec, !Z.shiftl_spec, Z.land_spec by lia.
  destruct (Z.ltb_spec i k) as [Hlt|Hge].
  - rewrite !(Z.testbit_neg_r _ (i - k)) by lia. apply andb_false_r.
  - rewrite Z.shiftr_spec by lia. do 2 f_equal. lia.
Qed.

Lemma lor_disjoint_add (u v k : Z) :
  0 <= k -> 0 <= v < 2 ^ k -> Z.lor (u * 2 ^ k) v = u * 2 ^ k + v.
Proof.
  intros Hk Hv.
  assert (Hz : Z.land (u * 2 ^ k) v = 0).
  { apply Z.bits_inj'. intros i Hi. rewrite Z.land_spec, Z.bits_0.
    destruct (Z.ltb_spec i k) as [Hlt|Hge].
    - rewrite Z.mul_pow2_bits_low by lia. reflexivity.
    - rewrite <- (Z.mod_small v (2 ^ k)) by lia.
      rewrite Z.mod_pow2_bits_high by lia. apply andb_false_r. }
  rewrite <- Z.lxor_lor by exact Hz. symmetry. apply Z.add_nocarry_lxor, Hz.
Qed.

(** The two samples of a chunk, from its three bytes [x y z]: the first is
    [x] and the upper nibble of [y], the second is [z] and the lower nibble
    of [y]. *)
Lemma sample_a_bytes (x y z : Z) :
  0 <= x < 256 -> 0 <= y < 256 -> 0 <= z < 256 ->
  sample_a (x * 65536 + y * 256 + z) = x * 256 + y / 16 * 16.
Proof.
  intros Hx Hy Hz. unfold sample_a.
  change 0xfff000 with (Z.shiftl (Z.ones 12) 12).
  rewrite land_shifted_ones, Z.shiftr_div_pow2 by lia.
  change (2 ^ 12) with 4096. change (2 ^ 8) with 256.
  Z.div_mod_to_equations. lia.
Qed.

Lemma sample_b_bytes (x y z : Z) :
  0 <= x < 256 -> 0 <= y < 256 -> 0 <= z < 256 ->
  sample_b (x * 65536 + y * 256 + z) = z * 256 + y mod 16 * 16.
Proof.
  intros Hx Hy Hz. unfold sample_b.
  change 0xfff with (Z.ones 12).
  change 0xff00 with (Z.shiftl (Z.ones 8) 8).
  change 0xf0 with (Z.shiftl (Z.ones 4) 4).
  rewrite Z.land_ones by lia.
  rewrite !land_shifted_ones, Z.shiftl_mul_pow2, Z.shiftr_div_pow2 by lia.
  rewrite lor_disjoint_add.
  - change (2 ^ 12) with 4096. change (2 ^ 8) with 256.
    change (2 ^ 4) with 16. Z.div_mod_to_equations. lia.
  - lia.
  - change (2 ^ 12) with 4096. change (2 ^ 8) with 256.
    change (2 ^ 4) with 16. Z.div_mod_to_equations. lia.
Qed.

Lemma sample_a_chunk (b0 b1 b2 : byte) :
  sample_a (int_from_bytes [b0; b1; b2])
  = byte_val b0 * 256 + byte_val b1 / 16 * 16.
Proof.
  rewrite int_from_bytes_3. apply sample_a_bytes; apply byte_val_range.
Qed.

Lemma sample_b_chunk (b0 b1 b2 : byte) :
  sample_b (int_from_bytes [b0; b1; b2])
  = byte_val b2 * 256 + byte_val b1 mod 16 * 16.
Proof.
  rewrite int_from_bytes_3. apply sample_b_bytes; apply byte_val_range.
Qed.

Lemma sample_a_range (b0 b1 b2 : byte) :
  0 <= sample_a (int_from_bytes [b0; b1; b2]) <= 65535.
Proof.
  rewrite sample_a_chunk.
  pose proof (byte_val_range b0). pose proof (byte_val_range b1).
  Z.div_mod_to_equations. lia.
Qed.

Lemma sample_b_range (b0 b1 b2 : byte) :
  0 <= sample_b (int_from_bytes [b0; b1; b2]) <= 65535.
Proof.
  rewrite sample_b_chunk.
  pose proof (byte_val_range b2). pose proof (byte_val_range b1).
  Z.div_mod_to_equations. lia.
Qed.

Lemma struct_pack_H_ok (v : Z) :
  0 <= v <= 65535 ->
  struct_pack_H v = Return [byte_of_Z v; byte_of_Z (v / 256)].
Proof.
  intros Hv. unfold struct_pack_H.
  destruct (Z.leb_spec 0 v); [|lia]. destruct (Z.leb_spec v 65535); [|lia].
  reflexivity.
Qed.

Lemma le16_val_pack (v : Z) :
  0 <= v <= 65535 -> le16_val (byte_of_Z v) (byte_of_Z (v / 256)) = v.
Proof.
  intros Hv. unfold le16_val. rewrite !byte_val_of_Z.
  Z.div_mod_to_equations. lia.
Qed.

(** ** The conversion loop, one chunk at a time *)

Lemma convert_loop_done ulp loop_end end_addr view tone_addr samples_read res :
  end_addr <= tone_addr ->
  convert_loop ulp loop_end end_addr view tone_addr samples_read res
  = Return res.
Proof.
  intros H. destruct view; simpl; destruct (Z.ltb_spec tone_addr end_addr);
    try lia; reflexivity.
Qed.

Lemma convert_loop_emit loop_end end_addr b0 b1 b2 view tone_addr
    samples_read res :
  tone_addr < end_addr ->
  convert_loop false loop_end end_addr (b0 :: b1 :: b2 :: view) tone_addr
    samples_read res
  = convert_loop false loop_end end_addr view (tone_addr + 3)
      (samples_read + 2) (res ++ chunk_output b0 b1 b2).
Proof.
  intros H. cbn [convert_loop].
  destruct (Z.ltb_spec tone_addr end_addr); [|lia].
  cbn [bind].
  rewrite (struct_pack_H_ok _ (sample_a_range b0 b1 b2)).
  rewrite (struct_pack_H_ok _ (sample_b_range b0 b1 b2)).
  reflexivity.
Qed.

Lemma convert_loop_emit_before k end_addr b0 b1 b2 view tone_addr
    samples_read res :
  tone_addr < end_addr -> samples_read + 2 < k ->
  convert_loop true (VInt k) end_addr (b0 :: b1 :: b2 :: view) tone_addr
    samples_read res
  = convert_loop true (VInt k) end_addr view (tone_addr + 3)
      (samples_read + 2) (res ++ chunk_output b0 b1 b2).
Proof.
  intros H Hk. cbn [convert_loop].
  destruct (Z.ltb_spec tone_addr end_addr); [|lia].
  cbn [bind reached as_int].
  destruct (Z.leb_spec k (samples_read + 2)); [lia|].
  rewrite (struct_pack_H_ok _ (sample_a_range b0 b1 b2)).
  rewrite (struct_pack_H_ok _ (sample_b_range b0 b1 b2)).
  reflexivity.
Qed.

Lemma convert_loop_stop k end_addr b0 b1 b2 view tone_addr samples_read res :
  k <= samples_read + 2 ->
  convert_loop true (VInt k) end_addr (b0 :: b1 :: b2 :: view) tone_addr
    samples_read res
  = Return res.
Proof.
  intros Hk. cbn [convert_loop].
  destruct (Z.ltb_spec tone_addr end_addr); [|reflexivity].
  cbn [bind reached as_int].
  destruct (Z.leb_spec k (samples_read + 2)); [reflexivity|lia].
Qed.

(** C1: a chunk that packs the 12-bit values [a] and [b] as documented
    decodes to the samples [a << 4] and [b << 4], and the conversion loop
    writes them as two 16-bit little-endian values, [a << 4] first. *)
Theorem C1_unpack_roundtrip (a b : Z) (loop_end : value) (tone_addr : Z) :
  0 <= a < 4096 -> 0 <= b < 4096 ->
  sample_a (int_from_bytes (pack_chunk a b)) = Z.shiftl a 4 /\
  sample_b (int_from_bytes (pack_chunk a b)) = Z.shiftl b 4 /\
  exists a_lo a_hi b_lo b_hi,
    convert_loop false loop_end (tone_addr + 3) (pack_chunk a b) tone_addr 0 []
    = Return [a_lo; a_hi; b_lo; b_hi] /\
    le16_val a_lo a_hi = Z.shiftl a 4 /\
    le16_val b_lo b_hi = Z.shiftl b 4.
Proof.
  intros Ha Hb. unfold pack_chunk.
  assert (HA : sample_a (int_from_bytes
              [byte_of_Z (a / 16); byte_of_Z (a mod 16 * 16 + b mod 16);
               byte_of_Z (b / 16)]) = Z.shiftl a 4).
  { rewrite sample_a_chunk, !byte_val_of_Z, Z.shiftl_mul_pow2 by lia.
    change (2 ^ 4) with 16. Z.div_mod_to_equations. lia. }
  assert (HB : sample_b (int_from_bytes
              [byte_of_Z (a / 16); byte_of_Z (a mod 16 * 16 + b mod 16);
               byte_of_Z (b / 16)]) = Z.shiftl b 4).
  { rewrite sample_b_chunk, !byte_val_of_Z, Z.shiftl_mul_pow2 by lia.
    change (2 ^ 4) with 16. Z.div_mod_to_equations. lia. }
  split; [exact HA|]. split; [exact HB|].
  rewrite convert_loop_emit by lia.
  rewrite convert_loop_done by lia.
  unfold chunk_output. rewrite HA, HB. cbn [app].
  do 4 eexists. split; [reflexivity|].
  rewrite !Z.shiftl_mul_pow2 by lia. change (2 ^ 4) with 16.
  split; apply le16_val_pack; lia.
Qed.

Lemma C1_unpack_roundtrip_witness :
  0 <= 0xabc < 4096 /\ 0 <= 0x123 < 4096 /\
  sample_a (int_from_bytes (pack_chunk 0xabc 0x123)) = 0xabc0 /\
  sample_b (int_from_bytes (pack_chunk 0xabc 0x123)) = 0x1230.
Proof.
  assert (Ha : 0 <= 0xabc < 4096) by lia.
  assert (Hb : 0 <= 0x123 < 4096) by lia.
  destruct (C1_unpack_roundtrip 0xabc 0x123 (VInt 0) 0 Ha Hb) as (HA & HB & _).
  split; [exact Ha|]. split; [exact Hb|]. split; [exact HA | exact HB].
Defined.

(** ** Slices *)

Lemma slice_from {A : Type} (l : list A) (lo : Z) :
  0 <= lo -> slice l (Some lo) None = drop (Z.to_nat lo) l.
Proof.
  intros Hlo. unfold slice, slice_index.
  destruct (Z.ltb_spec lo 0); [lia|].
  destruct (Z.le_gt_cases lo (Z.of_nat (length l))) as [Hle|Hgt].
  - rewrite Z.min_l by lia. apply take_ge. rewrite length_drop. lia.
  - rewrite Z.min_r by lia. rewrite !drop_ge by lia. apply take_nil.
Qed.

Lemma slice_upto {A : Type} (l : list A) (hi : Z) :
  0 <= hi -> slice l None (Some hi) = take (Z.to_nat hi) l.
Proof.
  intros Hhi. unfold slice, slice_index.
  destruct (Z.ltb_spec hi 0); [lia|]. rewrite Z.sub_0_r.
  change (Z.to_nat 0) with 0%nat. rewrite drop_0.
  destruct (Z.le_gt_cases hi (Z.of_nat (length l))) as [Hle|Hgt].
  - rewrite Z.min_l by lia. reflexivity.
  - rewrite Z.min_r by lia. rewrite !take_ge by lia. reflexivity.
Qed.

Lemma slice_between {A : Type} (l : list A) (lo hi : Z) :
  0 <= lo <= hi ->
  slice l (Some lo) (Some hi) = take (Z.to_nat (hi - lo)) (drop (Z.to_nat lo) l).
Proof.
  intros H. unfold slice, slice_index.
  destruct (Z.ltb_spec lo 0); [lia|]. destruct (Z.ltb_spec hi 0); [lia|].
  destruct (Z.le_gt_cases lo (Z.of_nat (length l))) as [Hle|Hgt].
  - rewrite (Z.min_l lo) by lia.
    destruct (Z.le_gt_cases hi (Z.of_nat (length l))) as [Hle'|Hgt'].
    + rewrite Z.min_l by lia. reflexivity.
    + rewrite Z.min_r by lia. rewrite !take_ge; [reflexivity|..];
        rewrite length_drop; lia.
  - rewrite !drop_ge by lia. rewrite !take_nil. reflexivity.
Qed.

(** ** Format detection *)

Lemma decode_ascii_ok (bs : list byte) :
  Forall (fun b => byte_val b < 128) bs ->
  decode_ascii bs = Return (string_of_list_byte bs).
Proof.
  intros H. unfold decode_ascii.
  replace (forallb _ bs) with true; [reflexivity|].
  symmetry. induction H as [|b bs Hb _ IH]; simpl; [reflexivity|].
  rewrite IH. destruct (Z.ltb_spec (byte_val b) 128); [reflexivity|lia].
Qed.

Lemma decode_ascii_fails (bs : list byte) :
  Exists (fun b => 128 <= byte_val b) bs ->
  decode_ascii bs = Raise UnicodeDecodeError.
Proof.
  intros H. unfold decode_ascii.
  replace (forallb _ bs) with false; [reflexivity|].
  symmetry. induction H as [b bs Hb|b bs _ IH]; simpl.
  - destruct (Z.ltb_spec (byte_val b) 128); [lia|reflexivity].
  - rewrite IH. apply andb_false_r.
Qed.

(** C2: the format string of an image of at least 8 bytes decides the
    result of [check]: S550, S330 and W-30 give the S550 format, S-50 and
    S-51 the S50 format, any other ASCII string a [FormatError] that quotes
    it, and four bytes that are not all ASCII a [FormatError] too. *)
Theorem C2_check_signature (img : list byte) :
  (8 <= length img)%nat ->
  length (signature img) = 4%nat /\
  (Forall (fun b => byte_val b < 128) (signature img) ->
   let s := string_of_list_byte (signature img) in
   (s = "S550" \/ s = "S330" \/ s = "W-30" -> check img = Return S550) /\
   (s = "S-50" \/ s = "S-51" -> check img = Return S50) /\
   (s <> "S550" -> s <> "S330" -> s <> "W-30" -> s <> "S-50" ->
    s <> "S-51" ->
    check img
    = Raise (FormatError
               ("Format error: Invalid disk format '" +:+ s +:+ "'")))) /\
  (Exists (fun b => 128 <= byte_val b) (signature img) ->
   check img = Raise (FormatError "Format error: Unknown file format")).
Proof.
  intros Hlen.
  assert (Hsig : slice img (Some 4) (Some 8) = signature img)
    by (rewrite slice_between by lia; reflexivity).
  split; [|split].
  - unfold signature. rewrite length_take, length_drop. lia.
  - intros Hascii s. unfold check. rewrite Hsig, decode_ascii_ok by exact Hascii.
    fold s. rewrite String.eqb_refl. cbn [andb].
    split; [|split].
    + intros [-> | [-> | ->]]; reflexivity.
    + intros [-> | ->]; reflexivity.
    + intros H1 H2 H3 H4 H5.
      apply String.eqb_neq in H1, H2, H3, H4, H5.
      rewrite H1, H2, H3, H4, H5. reflexivity.
  - intros Hbad. unfold check. rewrite Hsig, decode_ascii_fails by exact Hbad.
    reflexivity.
Qed.

Lemma C2_check_signature_witness :
  (8 <= length [x00; x00; x00; x00; x53; x35; x35; x30])%nat /\
  check [x00; x00; x00; x00; x53; x35; x35; x30] = Return S550.
Proof.
  assert (Hlen : (8 <= length [x00; x00; x00; x00; x53; x35; x35; x30])%nat)
    by (simpl; lia).
  split; [exact Hlen|].
  destruct (C2_check_signature _ Hlen) as (_ & Hascii & _).
  apply Hascii.
  - repeat constructor.
  - left. reflexivity.
Defined.

(** ** The buffer: [pop] and [skip] *)

Lemma DiskBytes_pop_spec (self : DiskBytes) (n : Z) :
  0 <= n ->
  DiskBytes_pop self n
  = (take (Z.to_nat n) (_view self), {| _view := drop (Z.to_nat n) (_view self) |}).
Proof.
  intros Hn. unfold DiskBytes_pop. rewrite slice_upto, slice_from by lia.
  reflexivity.
Qed.

Lemma DiskBytes_skip_spec (self : DiskBytes) (n : Z) :
  0 <= n ->
  DiskBytes_skip self n = {| _view := drop (Z.to_nat n) (_view self) |}.
Proof.
  intros Hn. unfold DiskBytes_skip. rewrite slice_from by lia. reflexivity.
Qed.

(** [pop(3)] is what the conversion loop matches on: three bytes and the
    rest, or a short chunk when fewer than three bytes are left. *)
Lemma DiskBytes_pop_3 (view : list byte) :
  match view with
  | b0 :: b1 :: b2 :: view' =>
      DiskBytes_pop {| _view := view |} 3 = ([b0; b1; b2], {| _view := view' |})
  | _ => (length (DiskBytes_pop {| _view := view |} 3).1 < 3)%nat
  end.
Proof.
  destruct view as [|b0 [|b1 [|b2 view']]];
    rewrite DiskBytes_pop_spec by lia; simpl; try lia; reflexivity.
Qed.

(** ** [read_params], field by field *)

Lemma known_tag_cases (t : string) :
  known_tag t = true ->
  t = "int"%string \/ t = "signed_int"%string \/ t = "multi"%string \/
  t = "ascii"%string \/ t = "raw"%string \/ t = "dummy"%string.
Proof.
  unfold known_tag, known_tags. cbn [existsb].
  rewrite !orb_true_iff, !String.eqb_eq. intuition discriminate.
Qed.

Lemma unknown_tag_neq (t : string) :
  known_tag t = false ->
  (t =? "int")%string = false /\ (t =? "signed_int")%string = false /\
  (t =? "multi")%string = false /\ (t =? "ascii")%string = false /\
  (t =? "raw")%string = false /\ (t =? "dummy")%string = false.
Proof.
  unfold known_tag, known_tags. cbn [existsb].
  rewrite !orb_false_iff. tauto.
Qed.

Lemma read_params_app (fmt1 fmt2 : list Param) self values :
  read_params (fmt1 ++ fmt2) self values
  = match read_params fmt1 self values with
    | (self', values', Return _) => read_params fmt2 self' values'
    | (self', values', Raise e) => (self', values', Raise e)
    end.
Proof.
  revert self values. induction fmt1 as [|p fmt1 IH]; intros self values.
  - reflexivity.
  - cbn [app read_params].
    destruct (read_param p self values) as [[self1 values1] [[]|e]].
    + apply IH.
    + reflexivity.
Qed.

(** C3: a field whose type tag is not one of the six known ones reaches the
    final [else: pass] of [read_params]: the buffer and the dict are left as
    they were and the pass goes on, so a layout with such a field decodes
    like the layout without it and raises nothing for it. *)
Theorem C3_unknown_tag_ignored (fmt1 fmt2 : list Param) (param : Param)
    (self : DiskBytes) (values : gmap string value) :
  known_tag (ptype param) = false ->
  read_param param self values = (self, values, Return tt) /\
  read_params (fmt1 ++ param :: fmt2) self values
  = read_params (fmt1 ++ fmt2) self values.
Proof.
  intros Hunknown.
  assert (Hskip : forall self values,
             read_param param self values = (self, values, Return tt)).
  { intros self' values'. unfold read_param.
    destruct (unknown_tag_neq _ Hunknown) as (-> & -> & -> & -> & -> & ->).
    reflexivity. }
  split; [apply Hskip|].
  rewrite !read_params_app.
  destruct (read_params fmt1 self values) as [[self1 values1] [[]|e]];
    [|reflexivity].
  cbn [read_params]. rewrite Hskip. reflexivity.
Qed.

Lemma C3_unknown_tag_ignored_witness :
  known_tag "float" = false /\
  read_params [P "LEVEL" "float" 1] {| _view := [x7f] |} ∅
  = ({| _view := [x7f] |}, ∅, Return tt).
Proof.
  split; [reflexivity|].
  destruct (C3_unknown_tag_ignored [] [] (P "LEVEL" "float" 1)
              {| _view := [x7f] |} ∅ eq_refl) as [_ H].
  exact H.
Defined.

Ltac eval_tags := cbv [String.eqb Ascii.eqb Bool.eqb].

(** What one field does when its tag is known, its size is a byte count
    the buffer still holds, and, for [ascii], its bytes are ASCII. *)
Lemma read_param_known (p : Param) (self : DiskBytes)
    (values : gmap string value) :
  known_tag (ptype p) = true ->
  0 <= psize p <= Z.of_nat (length (_view self)) ->
  ((ptype p =? "ascii")%string = true ->
   forallb (fun b => byte_val b <? 128)
     (take (Z.to_nat (psize p)) (_view self)) = true) ->
  exists values',
    read_param p self values
    = ({| _view := drop (Z.to_nat (psize p)) (_view self) |}, values',
       Return tt) /\
    (if stored_tag (ptype p)
     then exists v, values' = <[pname p := v]> values
     else values' = values).
Proof.
  destruct p as [name t size]. cbn [ptype psize pname].
  intros Hknown Hsize Hascii. unfold read_param. cbn [ptype psize pname].
  destruct (known_tag_cases _ Hknown) as [-> | [-> | [-> | [-> | [-> | ->]]]]];
    eval_tags; try rewrite DiskBytes_pop_spec by lia;
    try rewrite DiskBytes_skip_spec by lia.
  - eexists. split; [reflexivity|]. eexists. reflexivity.
  - eexists. split; [reflexivity|]. eexists. reflexivity.
  - unfold struct_unpack_b. destruct (Z.ltb_spec size 0); [lia|].
    rewrite length_take.
    destruct (Z.eqb_spec (Z.of_nat (Z.to_nat size `min` length (_view self))) size);
      [|lia].
    eexists. split; [reflexivity|]. eexists. reflexivity.
  - unfold decode_ascii. rewrite Hascii by reflexivity.
    eexists. split; [reflexivity|]. eexists. reflexivity.
  - eexists. split; [reflexivity|]. eexists. reflexivity.
  - eexists. split; reflexivity.
Qed.

Lemma layout_size_nonneg (fmt : list Param) :
  Forall (fun p => known_tag (ptype p) = true /\ 0 <= psize p) fmt ->
  0 <= layout_size fmt.
Proof.
  induction 1 as [|p fmt [_ Hp] _ IH]; cbn [layout_size fold_right];
    [lia|]. fold (layout_size fmt). lia.
Qed.

Lemma read_params_known (fmt : list Param) :
  forall (self : DiskBytes) (values : gmap string value),
  Forall (fun p => known_tag (ptype p) = true /\ 0 <= psize p) fmt ->
  layout_size fmt <= Z.of_nat (length (_view self)) ->
  ascii_clean fmt (_view self) = true ->
  exists values',
    read_params fmt self values
    = ({| _view := drop (Z.to_nat (layout_size fmt)) (_view self) |}, values',
       Return tt) /\
    dom values' = dom values ∪ list_to_set (stored_names fmt) /\
    (forall k, k ∉ stored_names fmt -> values' !! k = values !! k).
Proof.
  induction fmt as [|p fmt IH]; intros self values Hfmt Hlen Hclean.
  - exists values. cbn. destruct self as [view]. cbn.
    split; [reflexivity|]. split; [|reflexivity].
    symmetry. apply (right_id_L ∅ (∪)).
  - inversion Hfmt as [|p' fmt' [Hknown Hsize] Hfmt']; subst p' fmt'.
    pose proof (layout_size_nonneg _ Hfmt') as Hnn.
    cbn [layout_size fold_right] in Hlen |- *. fold (layout_size fmt) in Hlen |- *.
    cbn [ascii_clean] in Hclean. apply andb_true_iff in Hclean as [Hp Hclean].
    destruct (read_param_known p self values Hknown) as (values1 & Hread & Hvals1).
    { lia. }
    { intros Hasc. rewrite Hasc in Hp. exact Hp. }
    cbn [read_params]. rewrite Hread.
    destruct (IH {| _view := drop (Z.to_nat (psize p)) (_view self) |} values1
                Hfmt') as (values' & Hrest & Hdom & Hother).
    { cbn [_view]. rewrite length_drop. lia. }
    { exact Hclean. }
    exists values'. rewrite Hrest. cbn [_view].
    split; [|split].
    + rewrite drop_drop, Z2Nat.inj_add by lia. reflexivity.
    + rewrite Hdom. cbn [stored_names].
      destruct (stored_tag (ptype p)).
      * destruct Hvals1 as [v ->]. rewrite dom_insert_L, list_to_set_cons.
        rewrite (assoc_L (∪)), (comm_L (∪) (dom values)). reflexivity.
      * subst values1. reflexivity.
    + intros k Hk. cbn [stored_names] in Hk.
      destruct (stored_tag (ptype p)).
      * destruct Hvals1 as [v ->].
        apply not_elem_of_cons in Hk as [Hne Hk].
        rewrite Hother by exact Hk.
        apply lookup_insert_ne. congruence.
      * subst values1. apply Hother, Hk.
Qed.

Lemma read_params_unclean (fmt : list Param) :
  forall (self : DiskBytes) (values : gmap string value),
  Forall (fun p => known_tag (ptype p) = true /\ 0 <= psize p) fmt ->
  layout_size fmt <= Z.of_nat (length (_view self)) ->
  ascii_clean fmt (_view self) = false ->
  exists self' values',
    read_params fmt self values = (self', values', Raise UnicodeDecodeError).
Proof.
  induction fmt as [|p fmt IH]; intros self values Hfmt Hlen Hclean.
  - discriminate.
  - inversion Hfmt as [|p' fmt' [Hknown Hsize] Hfmt']; subst p' fmt'.
    pose proof (layout_size_nonneg _ Hfmt') as Hnn.
    cbn [layout_size fold_right] in Hlen. fold (layout_size fmt) in Hlen.
    cbn [ascii_clean] in Hclean. cbn [read_params].
    destruct (ptype p =? "ascii")%string eqn:Hasc.
    + destruct (forallb (fun b => byte_val b <? 128)
                  (take (Z.to_nat (psize p)) (_view self))) eqn:Hbytes.
      * destruct (read_param_known p self values Hknown) as (values1 & -> & _);
          [lia | intros _; exact Hbytes |].
        apply IH; [exact Hfmt' | cbn [_view]; rewrite length_drop; lia
                  | exact Hclean].
      * unfold read_param. apply String.eqb_eq in Hasc. rewrite Hasc.
        eval_tags. rewrite DiskBytes_pop_spec by lia.
        unfold decode_ascii. rewrite Hbytes. eauto.
    + destruct (read_param_known p self values Hknown) as (values1 & -> & _);
        [lia | intros H; rewrite Hasc in H; discriminate |].
      apply IH; [exact Hfmt' | cbn [_view]; rewrite length_drop; lia
                | exact Hclean].
Qed.

(** C6 (as amended): over a layout of known tags and sizes that are byte
    counts summing to N, and a buffer that holds at least N bytes: when the
    bytes under the [ascii] fields are all ASCII, one pass returns normally,
    takes exactly the first N bytes, and adds to the dict exactly the names
    of the stored (non-dummy) fields, one entry per such name and none for
    a name that only dummy fields carry; otherwise the pass raises
    [UnicodeDecodeError]. *)
Theorem C6_read_params_consumes_layout (fmt : list Param)
    (self : DiskBytes) (values : gmap string value) :
  Forall (fun p => known_tag (ptype p) = true /\ 0 <= psize p) fmt ->
  layout_size fmt <= Z.of_nat (length (_view self)) ->
  (ascii_clean fmt (_view self) = true ->
   exists self' values',
     read_params fmt self values = (self', values', Return tt) /\
     _view self' = drop (Z.to_nat (layout_size fmt)) (_view self) /\
     consumed fmt self values = layout_size fmt /\
     dom values' = dom values ∪ list_to_set (stored_names fmt) /\
     (forall k, k ∉ stored_names fmt -> values' !! k = values !! k) /\
     (values = ∅ -> NoDup (stored_names fmt) ->
      size values' = length (stored_names fmt))) /\
  (ascii_clean fmt (_view self) = false ->
   exists self' values',
     read_params fmt self values = (self', values', Raise UnicodeDecodeError)).
Proof.
  intros Hfmt Hlen. split; [|apply read_params_unclean; assumption].
  intros Hclean.
  destruct (read_params_known fmt self values Hfmt Hlen Hclean)
    as (values' & Hread & Hdom & Hother).
  pose proof (layout_size_nonneg _ Hfmt) as Hnn.
  eexists _, values'. split; [exact Hread|].
  split; [reflexivity|]. split; [|split; [exact Hdom|split; [exact Hother|]]].
  - unfold consumed. rewrite Hread. cbn [fst _view]. rewrite length_drop. lia.
  - intros -> Hnodup. rewrite <- size_dom, Hdom, dom_empty_L, (left_id_L ∅ (∪)).
    apply size_list_to_set, Hnodup.
Qed.

Lemma C6_read_params_consumes_layout_witness :
  let fmt := [P "NAME" "ascii" 2; P "dummy1" "dummy" 1; P "LEVEL" "int" 1] in
  let self := {| _view := [x41; x42; xff; x07; x09] |} in
  Forall (fun p => known_tag (ptype p) = true /\ 0 <= psize p) fmt /\
  layout_size fmt <= Z.of_nat (length (_view self)) /\
  ascii_clean fmt (_view self) = true /\
  read_params fmt self ∅
  = ({| _view := [x09] |},
     <["LEVEL" := VInt 7]> (<["NAME" := VStr "AB"]> ∅), Return tt) /\
  consumed fmt self ∅ = 4.
Proof.
  intros fmt self.
  assert (Hfmt : Forall (fun p => known_tag (ptype p) = true /\ 0 <= psize p) fmt)
    by (repeat constructor; simpl; lia).
  assert (Hlen : layout_size fmt <= Z.of_nat (length (_view self)))
    by (simpl; lia).
  destruct (C6_read_params_consumes_layout fmt self ∅ Hfmt Hlen) as [Hok _].
  destruct (Hok eq_refl) as (self' & values' & Hread & _ & Hconsumed & _).
  split; [exact Hfmt|]. split; [exact Hlen|]. split; [reflexivity|].
  split; [reflexivity | exact Hconsumed].
Defined.

(** C6 as it was stated fails when an [ascii] field holds a byte that is
    not ASCII: the tags are known and the buffer holds the two bytes of the
    layout, but the pass raises after the first byte and stores nothing. *)
Lemma C6_counterexample :
  let fmt := [P "NAME" "ascii" 1; P "LEVEL" "int" 1] in
  let self := {| _view := [xff; x07] |} in
  Forall (fun p => known_tag (ptype p) = true /\ 0 <= psize p) fmt /\
  layout_size fmt = 2 /\
  layout_size fmt <= Z.of_nat (length (_view self)) /\
  read_params fmt self ∅ = ({| _view := [x07] |}, ∅, Raise UnicodeDecodeError) /\
  consumed fmt self ∅ <> layout_size fmt.
Proof.
  intros fmt self. split; [|split; [|split; [|split]]].
  - repeat constructor; simpl; lia.
  - reflexivity.
  - simpl. lia.
  - reflexivity.
  - discriminate.
Qed.

(** ** Parameter blocks: where a read decodes from *)

Lemma DiskBytes_init_from (img : list byte) (a : Z) :
  0 <= a -> DiskBytes_init img a None = {| _view := drop (Z.to_nat a) img |}.
Proof.
  intros Ha. unfold DiskBytes_init. rewrite slice_from by lia. reflexivity.
Qed.

Lemma Patch_read_at (self : ParamBlock) (img : list byte) (i s : Z) :
  0 <= addr self + s * i ->
  Patch_read self img i s = read_at self img (addr self + s * i) i.
Proof.
  intros Ha. unfold Patch_read, ParamBlock_read, read_at, decode_at.
  cbn [addr values block_fmt number]. rewrite DiskBytes_init_from by exact Ha.
  destruct (read_params _ _ _) as [[b values'] r]. reflexivity.
Qed.

Lemma Tone_read_Patch_read (self : ParamBlock) (img : list byte) (i s : Z) :
  Tone_read self img i s = Tone_frequency (Patch_read self img i s).
Proof. reflexivity. Qed.

Lemma Tone_frequency_fields (r : ParamBlock * raises unit) :
  addr (Tone_frequency r).1 = addr r.1 /\
  block_fmt (Tone_frequency r).1 = block_fmt r.1 /\
  number (Tone_frequency r).1 = number r.1.
Proof.
  destruct r as [self [[]|e]]; cbn [Tone_frequency]; [|auto].
  destruct (getitem (values self) "FREQUENCY"); auto.
Qed.

(** One field takes at most its size from the buffer, whatever its tag and
    whether or not decoding it raises. *)
Lemma read_param_view (p : Param) (self : DiskBytes)
    (values : gmap string value) :
  0 <= psize p ->
  exists k, 0 <= k <= psize p /\
    _view (read_param p self values).1.1 = drop (Z.to_nat k) (_view self).
Proof.
  destruct p as [name t size]. cbn [psize]. intros Hsize.
  unfold read_param. cbn [ptype psize pname].
  rewrite DiskBytes_pop_spec, DiskBytes_skip_spec by lia.
  destruct (t =? "int")%string; [exists size; split; [lia|reflexivity]|].
  destruct (t =? "signed_int")%string; [exists size; split; [lia|reflexivity]|].
  destruct (t =? "multi")%string.
  { exists size. split; [lia|]. destruct (struct_unpack_b _ _); reflexivity. }
  destruct (t =? "ascii")%string.
  { exists size. split; [lia|]. destruct (decode_ascii _); reflexivity. }
  destruct (t =? "raw")%string; [exists size; split; [lia|reflexivity]|].
  destruct (t =? "dummy")%string; [exists size; split; [lia|reflexivity]|].
  exists 0. split; [lia|reflexivity].
Qed.

Lemma consumed_bounds (fmt : list Param) :
  forall (self : DiskBytes) (values : gmap string value),
  Forall (fun p => 0 <= psize p) fmt ->
  0 <= consumed fmt self values <= layout_size fmt.
Proof.
  unfold consumed.
  induction fmt as [|p fmt IH]; intros self values Hfmt.
  - cbn. lia.
  - inversion Hfmt as [|p' fmt' Hp Hfmt']; subst p' fmt'.
    assert (Hnn : 0 <= layout_size fmt).
    { clear -Hfmt'. induction Hfmt' as [|q l Hq _ IHl]; [cbn; lia|].
      change (layout_size (q :: l)) with (psize q + layout_size l). lia. }
    cbn [layout_size fold_right read_params]. fold (layout_size fmt).
    destruct (read_param_view p self values Hp) as (k & Hk & Hview).
    destruct (read_param p self values) as [[self1 values1] [[]|e]];
      cbn [fst _view] in Hview |- *.
    + specialize (IH self1 values1 Hfmt'). rewrite Hview, length_drop in IH. lia.
    + rewrite Hview, length_drop. lia.
Qed.

Lemma sizes_nonneg_check (fmt : list Param) :
  forallb (fun p => 0 <=? psize p) fmt = true ->
  Forall (fun p => 0 <= psize p) fmt.
Proof.
  induction fmt as [|p fmt IH]; cbn [forallb]; intros H; constructor.
  - apply andb_true_iff in H as [H _]. lia.
  - apply IH. apply andb_true_iff in H as [_ H]. exact H.
Qed.

Lemma format_layout_sizes (f : Format) :
  f = S550 \/ f = S50 ->
  Forall (fun p => 0 <= psize p) (tone_fmt f) /\
  Forall (fun p => 0 <= psize p) (patch_fmt f) /\
  layout_size (tone_fmt f) = TONE_SIZE f /\
  layout_size (patch_fmt f) = PATCH_SIZE f /\
  0 <= TONE_SIZE f /\ 0 <= PATCH_SIZE f /\
  0 <= TONES_OFFSET f /\ 0 <= PATCHES_OFFSET f.
Proof.
  intros [-> | ->];
    (split; [apply sizes_nonneg_check; reflexivity|]);
    (split; [apply sizes_nonneg_check; reflexivity|]);
    (split; [reflexivity|]); (split; [reflexivity|]);
    cbn; lia.
Qed.

(** C4: a Tone or Patch made with the format's block offset and read with
    index [i] and stride [s] gets the address offset + i*s and is decoded
    from that byte of the image on; with the format's own stride, which is
    the size of its layout, the bytes taken at index [i] end no later than
    those at a later index [j] begin, so adjacent blocks never overlap. *)
Theorem C4_block_addressing (f : Format) (img : list byte) (i j s : Z) :
  f = S550 \/ f = S50 -> 0 <= i < j -> 0 <= s ->
  let tone := ParamBlock_init (tone_fmt f) (TONES_OFFSET f) in
  let patch := ParamBlock_init (patch_fmt f) (PATCHES_OFFSET f) in
  (addr (Tone_read tone img i s).1 = TONES_OFFSET f + i * s /\
   Tone_read tone img i s
   = Tone_frequency (read_at tone img (TONES_OFFSET f + i * s) i)) /\
  (addr (Patch_read patch img i s).1 = PATCHES_OFFSET f + i * s /\
   Patch_read patch img i s = read_at patch img (PATCHES_OFFSET f + i * s) i) /\
  (block_extent (tone_fmt f) img (TONES_OFFSET f + i * TONE_SIZE f)).2
  <= (block_extent (tone_fmt f) img (TONES_OFFSET f + j * TONE_SIZE f)).1 /\
  (block_extent (patch_fmt f) img (PATCHES_OFFSET f + i * PATCH_SIZE f)).2
  <= (block_extent (patch_fmt f) img (PATCHES_OFFSET f + j * PATCH_SIZE f)).1.
Proof.
  intros Hf Hij Hs tone patch.
  destruct (format_layout_sizes f Hf)
    as (Htone & Hpatch & Htsize & Hpsize & Hts & Hps & Hto & Hpo).
  assert (Hpr : Patch_read patch img i s
                = read_at patch img (PATCHES_OFFSET f + i * s) i).
  { rewrite Patch_read_at; cbn [patch ParamBlock_init addr]; [|nia].
    f_equal. lia. }
  assert (Htr : Tone_read tone img i s
                = Tone_frequency (read_at tone img (TONES_OFFSET f + i * s) i)).
  { rewrite Tone_read_Patch_read, Patch_read_at;
      cbn [tone ParamBlock_init addr]; [|nia].
    do 2 f_equal. lia. }
  split; [|split; [|split]].
  - split; [|exact Htr]. rewrite Htr.
    destruct (Tone_frequency_fields
                (read_at tone img (TONES_OFFSET f + i * s) i)) as (-> & _).
    reflexivity.
  - split; [|exact Hpr]. rewrite Hpr. reflexivity.
  - unfold block_extent. cbn [fst snd].
    pose proof (consumed_bounds (tone_fmt f)
      {| _view := drop (Z.to_nat (TONES_OFFSET f + i * TONE_SIZE f)) img |}
      ∅ Htone) as Hc.
    nia.
  - unfold block_extent. cbn [fst snd].
    pose proof (consumed_bounds (patch_fmt f)
      {| _view := drop (Z.to_nat (PATCHES_OFFSET f + i * PATCH_SIZE f)) img |}
      ∅ Hpatch) as Hc.
    nia.
Qed.

Lemma C4_block_addressing_witness :
  (S550 = S550 \/ S550 = S50) /\ 0 <= 2 < 3 /\ 0 <= 128 /\
  addr (Tone_read (ParamBlock_init (tone_fmt S550) 69120) [] 2 128).1 = 69376 /\
  addr (Patch_read (ParamBlock_init (patch_fmt S550) 64512) [] 2 128).1 = 64768.
Proof.
  assert (Hf : S550 = S550 \/ S550 = S50) by (left; reflexivity).
  assert (Hij : 0 <= 2 < 3) by lia.
  assert (Hs : 0 <= 128) by lia.
  destruct (C4_block_addressing S550 [] 2 3 128 Hf Hij Hs)
    as ((Ht & _) & (Hp & _) & _).
  split; [exact Hf|]. split; [exact Hij|]. split; [exact Hs|].
  split; [exact Ht | exact Hp].
Defined.

(** C9: [read] adds index*stride to the address the block already has.  A
    second call with the same index [i > 0] and stride on the same Tone or
    Patch therefore decodes from base + 2*i*stride, not from the address
    base + i*stride of the first call. *)
Theorem C9_read_not_idempotent (fmt : list Param) (base : Z)
    (img : list byte) (i s : Z) :
  0 <= base -> 0 < i -> 0 < s ->
  let tone1 := (Tone_read (ParamBlock_init fmt base) img i s).1 in
  let patch1 := (Patch_read (ParamBlock_init fmt base) img i s).1 in
  (addr tone1 = base + i * s /\
   addr (Tone_read tone1 img i s).1 = base + 2 * i * s /\
   Tone_read tone1 img i s
   = Tone_frequency (read_at tone1 img (base + 2 * i * s) i)) /\
  (addr patch1 = base + i * s /\
   addr (Patch_read patch1 img i s).1 = base + 2 * i * s /\
   Patch_read patch1 img i s = read_at patch1 img (base + 2 * i * s) i) /\
  base + 2 * i * s <> base + i * s.
Proof.
  intros Hbase Hi Hs tone1 patch1.
  assert (Hp1 : addr patch1 = base + i * s).
  { unfold patch1. rewrite Patch_read_at; cbn [ParamBlock_init addr]; [|nia].
    cbn [read_at fst addr]. lia. }
  assert (Ht1 : addr tone1 = base + i * s).
  { unfold tone1. rewrite Tone_read_Patch_read.
    destruct (Tone_frequency_fields
                (Patch_read (ParamBlock_init fmt base) img i s)) as (-> & _).
    exact Hp1. }
  assert (Hp2 : Patch_read patch1 img i s
                = read_at patch1 img (base + 2 * i * s) i).
  { rewrite Patch_read_at; rewrite Hp1; [|nia]. f_equal. lia. }
  assert (Ht2 : Tone_read tone1 img i s
                = Tone_frequency (read_at tone1 img (base + 2 * i * s) i)).
  { rewrite Tone_read_Patch_read, Patch_read_at; rewrite Ht1; [|nia].
    do 2 f_equal. lia. }
  split; [|split].
  - split; [exact Ht1|]. split; [|exact Ht2]. rewrite Ht2.
    destruct (Tone_frequency_fields
                (read_at tone1 img (base + 2 * i * s) i)) as (-> & _).
    reflexivity.
  - split; [exact Hp1|]. split; [|exact Hp2]. rewrite Hp2. reflexivity.
  - nia.
Qed.

Lemma C9_read_not_idempotent_witness :
  0 <= 69120 /\ 0 < 1 /\ 0 < 128 /\
  addr (Tone_read (Tone_read (ParamBlock_init (tone_fmt S550) 69120)
                     [] 1 128).1 [] 1 128).1 = 69376.
Proof.
  assert (Hb : 0 <= 69120) by lia.
  assert (Hi : 0 < 1) by lia.
  assert (Hs : 0 < 128) by lia.
  destruct (C9_read_not_idempotent (tone_fmt S550) 69120 [] 1 128 Hb Hi Hs)
    as ((_ & Ht & _) & _).
  split; [exact Hb|]. split; [exact Hi|]. split; [exact Hs|]. exact Ht.
Defined.

(** ** Wave addressing and conversion *)

Lemma eq_int_1 (bank : value) : eq_int bank 1 = true <-> bank = VInt 1.
Proof.
  destruct bank as [n| | |]; cbn [eq_int]; try (split; discriminate).
  rewrite Z.eqb_eq. split; [intros ->; reflexivity | intros [= ->]; reflexivity].
Qed.

Lemma get_wave_start_eq (self : Disk) (num : Z) (tone : ParamBlock)
    (bank : value) (seg len : Z) (loop_end : value) :
  index (tones self) num = Return tone ->
  tone_fields tone bank seg len loop_end ->
  get_wave_start self num = Return (wave_start bank seg).
Proof.
  intros Htone (Hbank & Hseg & _).
  unfold get_wave_start, getitem. rewrite Htone. cbn [bind].
  rewrite Hbank, Hseg. reflexivity.
Qed.

Lemma get_wave_end_eq (self : Disk) (num : Z) (tone : ParamBlock)
    (bank : value) (seg len : Z) (loop_end : value) :
  index (tones self) num = Return tone ->
  tone_fields tone bank seg len loop_end ->
  get_wave_end self num = Return (wave_start bank seg + SEGMENT_SIZE * len).
Proof.
  intros Htone Hfields. unfold get_wave_end.
  rewrite (get_wave_start_eq _ _ _ _ _ _ _ Htone Hfields).
  destruct Hfields as (_ & _ & Hlen & _).
  cbn [bind]. rewrite Htone. cbn [bind]. unfold Tone_length, getitem.
  rewrite Hlen. reflexivity.
Qed.

Lemma convert_wave_eq (self : Disk) (num : Z) (use_loop_points : bool)
    (tone : ParamBlock) (bank : value) (seg len : Z) (loop_end : value) :
  index (tones self) num = Return tone ->
  tone_fields tone bank seg len loop_end ->
  let tone_addr := wave_start bank seg in
  let end_addr := tone_addr + SEGMENT_SIZE * len in
  convert_wave self num use_loop_points
  = convert_loop use_loop_points loop_end end_addr
      (slice (wave self) (Some tone_addr) (Some end_addr)) tone_addr 0 [].
Proof.
  intros Htone (Hbank & Hseg & Hlen & [f Hf] & [sp Hsp] & Hend).
  unfold convert_wave, Tone_length, getitem. rewrite Htone. cbn [bind].
  rewrite Hbank, Hseg, Hlen, Hf, Hsp, Hend. reflexivity.
Qed.

Lemma pcm_of_length (n : nat) :
  forall view : list byte,
  length view = (3 * n)%nat -> length (pcm_of view) = (4 * n)%nat.
Proof.
  induction n as [|n IH]; intros view Hlen.
  - destruct view; [reflexivity|discriminate].
  - destruct view as [|b0 [|b1 [|b2 view']]]; simpl in Hlen; try lia.
    cbn [pcm_of]. rewrite length_app, (IH view') by lia. simpl. lia.
Qed.

Lemma pcm_of_take (m : nat) :
  forall view : list byte,
  pcm_of (take (3 * m) view) = take (4 * m) (pcm_of view).
Proof.
  induction m as [|m IH]; intros view.
  - reflexivity.
  - replace (3 * S m)%nat with (S (S (S (3 * m)))) by lia.
    replace (4 * S m)%nat with (S (S (S (S (4 * m))))) by lia.
    destruct view as [|b0 [|b1 [|b2 view']]]; try reflexivity.
    cbn [take pcm_of]. rewrite IH. reflexivity.
Qed.

(** Without loop points the loop converts every chunk of a range that the
    buffer holds in full. *)
Lemma convert_loop_all (loop_end : value) (n : nat) :
  forall (view : list byte) (tone_addr samples_read : Z) (res : list byte),
  length view = (3 * n)%nat ->
  convert_loop false loop_end (tone_addr + 3 * Z.of_nat n) view tone_addr
    samples_read res
  = Return (res ++ pcm_of view).
Proof.
  induction n as [|n IH]; intros view tone_addr samples_read res Hlen.
  - destruct view; [|discriminate]. rewrite convert_loop_done by lia.
    cbn [pcm_of]. rewrite app_nil_r. reflexivity.
  - destruct view as [|b0 [|b1 [|b2 view']]]; simpl in Hlen; try lia.
    rewrite convert_loop_emit by lia.
    replace (tone_addr + 3 * Z.of_nat (S n))
      with (tone_addr + 3 + 3 * Z.of_nat n) by lia.
    rewrite IH by lia. cbn [pcm_of]. rewrite app_assoc. reflexivity.
Qed.

(** With loop points and the end point [k], it converts the chunks before
    the one at which the running sample count reaches [k]. *)
Lemma convert_loop_until (k : Z) (n : nat) :
  forall (view : list byte) (tone_addr samples_read : Z) (res : list byte),
  length view = (3 * n)%nat ->
  convert_loop true (VInt k) (tone_addr + 3 * Z.of_nat n) view tone_addr
    samples_read res
  = Return (res ++ pcm_of (take (3 * Z.to_nat (chunks_before (k - samples_read)))
                             view)).
Proof.
  induction n as [|n IH]; intros view tone_addr samples_read res Hlen.
  - destruct view; [|discriminate]. rewrite convert_loop_done by lia.
    rewrite take_nil. cbn [pcm_of]. rewrite app_nil_r. reflexivity.
  - destruct view as [|b0 [|b1 [|b2 view']]]; simpl in Hlen; try lia.
    destruct (Z.le_gt_cases k (samples_read + 2)) as [Hstop|Hgo].
    + rewrite convert_loop_stop by lia.
      replace (chunks_before (k - samples_read)) with 0.
      * cbn [Z.to_nat Nat.mul take pcm_of]. rewrite app_nil_r. reflexivity.
      * unfold chunks_before.
        assert ((k - samples_read - 1) / 2 <= 0)
          by (Z.div_mod_to_equations; lia).
        lia.
    + rewrite convert_loop_emit_before by lia.
      replace (tone_addr + 3 * Z.of_nat (S n))
        with (tone_addr + 3 + 3 * Z.of_nat n) by lia.
      rewrite IH by lia.
      assert (Hm : chunks_before (k - samples_read)
                   = 1 + chunks_before (k - (samples_read + 2))).
      { unfold chunks_before. Z.div_mod_to_equations. lia. }
      assert (Hm0 : 0 <= chunks_before (k - (samples_read + 2)))
        by (unfold chunks_before; lia).
      rewrite Hm, Z2Nat.inj_add by lia.
      change (Z.to_nat 1) with 1%nat.
      replace (3 * (1 + Z.to_nat (chunks_before (k - (samples_read + 2)))))%nat
        with (S (S (S (3 * Z.to_nat (chunks_before (k - (samples_read + 2)))))))
        by lia.
      cbn [take pcm_of]. rewrite app_assoc. reflexivity.
Qed.

Lemma chunks_before_bound (k : Z) : 0 <= k -> 0 <= 2 * chunks_before k <= k.
Proof.
  intros Hk. unfold chunks_before. Z.div_mod_to_equations. lia.
Qed.

(** C5: for a tone whose wave range lies within the wave data, conversion
    without loop points writes every chunk of the range, which is
    12288 = (SEGMENT_SIZE / 3) * 2 samples per segment; with loop points
    and END POINT [k] it writes the chunks before the one at which the
    running sample count reaches [k] and stops there, which is at most [k]
    samples. *)
Theorem C5_loop_truncation (self : Disk) (num : Z) (tone : ParamBlock)
    (bank : value) (seg len k : Z) :
  index (tones self) num = Return tone ->
  tone_fields tone bank seg len (VInt k) ->
  0 <= wave_start bank seg -> 0 <= len -> 0 <= k ->
  wave_start bank seg + SEGMENT_SIZE * len <= Z.of_nat (length (wave self)) ->
  exists full : list byte,
    full = pcm_of (take (Z.to_nat (SEGMENT_SIZE * len))
                     (drop (Z.to_nat (wave_start bank seg)) (wave self))) /\
    convert_wave self num false = Return full /\
    sample_count full = len * (SEGMENT_SIZE / 3) * 2 /\
    sample_count full = len * 12288 /\
    convert_wave self num true
    = Return (take (Z.to_nat (4 * chunks_before k)) full) /\
    sample_count (take (Z.to_nat (4 * chunks_before k)) full) <= k.
Proof.
  intros Htone Hfields Hstart Hlen Hk Hin.
  unfold SEGMENT_SIZE in *.
  set (start := wave_start bank seg) in *.
  set (view := take (Z.to_nat (18432 * len)) (drop (Z.to_nat start) (wave self))).
  set (n := Z.to_nat (6144 * len)).
  assert (Hview : length view = (3 * n)%nat).
  { unfold view, n. rewrite length_take, length_drop. lia. }
  assert (Hend : start + 18432 * len = start + 3 * Z.of_nat n)
    by (unfold n; lia).
  assert (Hslice : slice (wave self) (Some start) (Some (start + 18432 * len))
                   = view).
  { rewrite slice_between by lia. unfold view. do 2 f_equal. lia. }
  pose proof (chunks_before_bound k Hk) as Hcb.
  exists (pcm_of view). split; [reflexivity|].
  assert (Hcount : sample_count (pcm_of view) = len * 12288).
  { unfold sample_count. rewrite (pcm_of_length n) by exact Hview.
    unfold n. Z.div_mod_to_equations. lia. }
  split; [|split; [|split; [|split]]].
  - rewrite (convert_wave_eq _ _ _ _ _ _ _ _ Htone Hfields).
    cbn zeta. fold start. unfold SEGMENT_SIZE. rewrite Hslice, Hend.
    rewrite convert_loop_all by exact Hview. reflexivity.
  - rewrite Hcount. change (18432 / 3) with 6144. lia.
  - exact Hcount.
  - rewrite (convert_wave_eq _ _ _ _ _ _ _ _ Htone Hfields).
    cbn zeta. fold start. unfold SEGMENT_SIZE. rewrite Hslice, Hend.
    rewrite convert_loop_until by exact Hview.
    rewrite Z.sub_0_r, pcm_of_take. cbn [app]. do 2 f_equal. lia.
  - unfold sample_count. rewrite length_take.
    Z.div_mod_to_equations. lia.
Qed.

(** C8: a tone whose WAVE SEGMENT LENGTH is 0 has a wave range that ends
    where it starts, and its conversion returns no samples and raises
    nothing, with or without loop points. *)
Theorem C8_empty_tone (self : Disk) (num : Z) (tone : ParamBlock)
    (bank : value) (seg : Z) (loop_end : value) (use_loop_points : bool) :
  index (tones self) num = Return tone ->
  tone_fields tone bank seg 0 loop_end ->
  Tone_length tone = Return (VInt 0) /\
  (exists a, get_wave_start self num = Return a /\
             get_wave_end self num = Return a) /\
  convert_wave self num use_loop_points = Return [] /\
  sample_count [] = 0.
Proof.
  intros Htone Hfields. split; [|split; [|split]].
  - destruct Hfields as (_ & _ & Hlen & _).
    unfold Tone_length, getitem. rewrite Hlen. reflexivity.
  - exists (wave_start bank seg).
    rewrite (get_wave_start_eq _ _ _ _ _ _ _ Htone Hfields).
    rewrite (get_wave_end_eq _ _ _ _ _ _ _ Htone Hfields).
    split; [reflexivity|]. f_equal. unfold SEGMENT_SIZE. lia.
  - rewrite (convert_wave_eq _ _ _ _ _ _ _ _ Htone Hfields).
    apply convert_loop_done. unfold SEGMENT_SIZE. lia.
  - reflexivity.
Qed.

(** C10: the size of bank A is added to a tone's start address only when
    its WAVE BANK is exactly 1.  Any other value, 0 and the marker 2 of an
    empty tone included, gives the base address 0, in [get_wave_start] and
    in [convert_wave] alike: the range of a tone marked empty is computed
    inside bank A, and nothing is raised for it. *)
Theorem C10_bank_addressing (self : Disk) (num : Z) (tone : ParamBlock)
    (bank : value) (seg len : Z) (loop_end : value) (use_loop_points : bool) :
  index (tones self) num = Return tone ->
  tone_fields tone bank seg len loop_end ->
  BANK_SIZE = 331776 /\
  (bank = VInt 1 ->
   get_wave_start self num = Return (BANK_SIZE + SEGMENT_SIZE * seg) /\
   convert_wave self num use_loop_points
   = convert_loop use_loop_points loop_end
       (BANK_SIZE + SEGMENT_SIZE * seg + SEGMENT_SIZE * len)
       (slice (wave self) (Some (BANK_SIZE + SEGMENT_SIZE * seg))
          (Some (BANK_SIZE + SEGMENT_SIZE * seg + SEGMENT_SIZE * len)))
       (BANK_SIZE + SEGMENT_SIZE * seg) 0 []) /\
  (bank <> VInt 1 ->
   get_wave_start self num = Return (SEGMENT_SIZE * seg) /\
   convert_wave self num use_loop_points
   = convert_loop use_loop_points loop_end
       (SEGMENT_SIZE * seg + SEGMENT_SIZE * len)
       (slice (wave self) (Some (SEGMENT_SIZE * seg))
          (Some (SEGMENT_SIZE * seg + SEGMENT_SIZE * len)))
       (SEGMENT_SIZE * seg) 0 []) /\
  (bank = VInt 2 -> 0 <= seg < 18 ->
   exists a, get_wave_start self num = Return a /\ 0 <= a < BANK_SIZE).
Proof.
  intros Htone Hfields.
  pose proof (get_wave_start_eq _ _ _ _ _ _ _ Htone Hfields) as Hstart.
  pose proof (convert_wave_eq _ _ use_loop_points _ _ _ _ _ Htone Hfields)
    as Hconv.
  cbn zeta in Hconv. unfold wave_start in Hstart, Hconv.
  split; [reflexivity|]. split; [|split].
  - intros ->. cbn [eq_int Z.eqb Pos.eqb] in Hstart, Hconv.
    split; [exact Hstart | exact Hconv].
  - intros Hbank.
    destruct (eq_int bank 1) eqn:E; [apply eq_int_1 in E; contradiction|].
    rewrite Z.add_0_l in Hstart, Hconv.
    split; [exact Hstart | exact Hconv].
  - intros -> Hseg. cbn [eq_int Z.eqb Pos.eqb] in Hstart.
    eexists. split; [exact Hstart|]. unfold SEGMENT_SIZE, BANK_SIZE. lia.
Qed.

(** ** The properties on an example tone *)


Ltac tone_fields_by_evaluation :=
  repeat split; try (vm_compute; reflexivity); eexists; vm_compute; reflexivity.

Lemma C5_loop_truncation_witness :
  let tone := example_tone x00 x00 x01 x05 in
  let self := example_disk tone (replicate (Z.to_nat 18432) x00) in
  (index (tones self) 0 = Return tone /\
   tone_fields tone (VInt 0) 0 1 (VInt 5) /\
   0 <= wave_start (VInt 0) 0 /\ 0 <= 1 /\ 0 <= 5 /\
   wave_start (VInt 0) 0 + SEGMENT_SIZE * 1 <= Z.of_nat (length (wave self))) /\
  exists full,
    convert_wave self 0 false = Return full /\
    sample_count full = 12288 /\
    convert_wave self 0 true = Return (take 8 full).
Proof.
  intros tone self.
  assert (Htone : index (tones self) 0 = Return tone) by reflexivity.
  assert (Hfields : tone_fields tone (VInt 0) 0 1 (VInt 5))
    by tone_fields_by_evaluation.
  assert (Hstart : 0 <= wave_start (VInt 0) 0) by (vm_compute; discriminate).
  assert (Hlen : 0 <= 1) by lia.
  assert (Hk : 0 <= 5) by lia.
  assert (Hin : wave_start (VInt 0) 0 + SEGMENT_SIZE * 1
                <= Z.of_nat (length (wave self)))
    by (vm_compute; discriminate).
  split; [tauto|].
  destruct (C5_loop_truncation self 0 tone (VInt 0) 0 1 5 Htone Hfields
              Hstart Hlen Hk Hin)
    as (full & _ & Hfull & _ & Hcount & Hloop & _).
  exists full. split; [exact Hfull|]. split; [exact Hcount|exact Hloop].
Defined.

Lemma C8_empty_tone_witness :
  let tone := example_tone x02 x03 x00 x00 in
  let self := example_disk tone (replicate (Z.to_nat 18432) x00) in
  (index (tones self) 0 = Return tone /\
   tone_fields tone (VInt 2) 3 0 (VInt 0)) /\
  get_wave_start self 0 = get_wave_end self 0 /\
  convert_wave self 0 true = Return [] /\
  convert_wave self 0 false = Return [].
Proof.
  intros tone self.
  assert (Htone : index (tones self) 0 = Return tone) by reflexivity.
  assert (Hfields : tone_fields tone (VInt 2) 3 0 (VInt 0))
    by tone_fields_by_evaluation.
  split; [tauto|].
  destruct (C8_empty_tone self 0 _ _ _ _ true Htone Hfields)
    as (_ & (a & Hs & He) & Htrue & _).
  destruct (C8_empty_tone self 0 _ _ _ _ false Htone Hfields)
    as (_ & _ & Hfalse & _).
  split; [rewrite Hs, He; reflexivity|]. split; [exact Htrue|exact Hfalse].
Defined.

Lemma C10_bank_addressing_witness :
  let tone := example_tone x02 x03 x00 x00 in
  let self := example_disk tone (replicate (Z.to_nat 18432) x00) in
  (index (tones self) 0 = Return tone /\
   tone_fields tone (VInt 2) 3 0 (VInt 0)) /\
  get_wave_start self 0 = Return (SEGMENT_SIZE * 3).
Proof.
  intros tone self.
  assert (Htone : index (tones self) 0 = Return tone) by reflexivity.
  assert (Hfields : tone_fields tone (VInt 2) 3 0 (VInt 0))
    by tone_fields_by_evaluation.
  split; [tauto|].
  destruct (C10_bank_addressing self 0 _ _ _ _ _ false Htone Hfields)
    as (_ & _ & Hother & _).
  destruct Hother as [Hstart _]; [discriminate|]. exact Hstart.
Defined.

(** ** Decoded tones carry the fields that conversion reads *)

Lemma int_from_bytes_nonneg (bs : list byte) : 0 <= int_from_bytes bs.
Proof.
  unfold int_from_bytes.
  assert (H : forall acc, 0 <= acc ->
            0 <= fold_left (fun acc b => acc * 256 + byte_val b) bs acc).
  { induction bs as [|b bs IH]; intros acc Hacc; cbn [fold_left]; [exact Hacc|].
    apply IH. pose proof (byte_val_range b). lia. }
  apply H. lia.
Qed.

(** What a field that does not raise leaves in the dict. *)
Lemma read_param_stored (p : Param) (self self1 : DiskBytes)
    (values values1 : gmap string value) :
  read_param p self values = (self1, values1, Return tt) ->
  if stored_tag (ptype p)
  then exists v, values1 = <[pname p := v]> values /\
                 (ptype p = "int"%string -> exists n, v = VInt n /\ 0 <= n)
  else values1 = values.
Proof.
  destruct p as [name t size]. unfold read_param. cbn [ptype psize pname].
  destruct (DiskBytes_pop self size) as [bs self'].
  destruct (t =? "int")%string eqn:E1.
  { apply String.eqb_eq in E1. subst t. intros [= _ <-].
    eexists. split; [reflexivity|]. intros _. eexists. split; [reflexivity|].
    apply int_from_bytes_nonneg. }
  destruct (t =? "signed_int")%string eqn:E2.
  { apply String.eqb_eq in E2. subst t. intros [= _ <-].
    eexists. split; [reflexivity|]. discriminate. }
  destruct (t =? "multi")%string eqn:E3.
  { apply String.eqb_eq in E3. subst t.
    destruct (struct_unpack_b size bs); intros [= _ <-].
    eexists. split; [reflexivity|]. discriminate. }
  destruct (t =? "ascii")%string eqn:E4.
  { apply String.eqb_eq in E4. subst t.
    destruct (decode_ascii bs); intros [= _ <-].
    eexists. split; [reflexivity|]. discriminate. }
  destruct (t =? "raw")%string eqn:E5.
  { apply String.eqb_eq in E5. subst t. intros [= _ <-].
    eexists. split; [reflexivity|]. discriminate. }
  unfold stored_tag, stored_tags. cbn [existsb]. rewrite E1, E2, E3, E4, E5.
  cbn [orb]. destruct (t =? "dummy")%string; intros [= _ <-]; reflexivity.
Qed.

Lemma read_params_int_field (name : string) (fmt : list Param) :
  forall (self self' : DiskBytes) (values values' : gmap string value),
  read_params fmt self values = (self', values', Return tt) ->
  match last_tag fmt name with
  | Some t => t = "int"%string
  | None => exists n, values !! name = Some (VInt n) /\ 0 <= n
  end ->
  exists n, values' !! name = Some (VInt n) /\ 0 <= n.
Proof.
  induction fmt as [|p fmt IH]; intros self self' values values' Hread Htag.
  - cbn in Hread, Htag. injection Hread as _ <-. exact Htag.
  - cbn [read_params] in Hread.
    destruct (read_param p self values) as [[self1 values1] [[]|e]] eqn:Hp;
      [|discriminate].
    apply read_param_stored in Hp.
    apply (IH _ _ _ _ Hread). cbn [last_tag] in Htag.
    destruct (last_tag fmt name) as [t|]; [exact Htag|].
    destruct (stored_tag (ptype p)); cbn [andb] in Htag.
    + destruct Hp as (v & -> & Hint).
      destruct (String.eqb_spec (pname p) name) as [<-|Hne].
      * destruct (Hint Htag) as (n & -> & Hn). exists n.
        rewrite lookup_insert_eq. split; [reflexivity|exact Hn].
      * rewrite lookup_insert_ne by exact Hne. exact Htag.
    + subst values1. exact Htag.
Qed.

(** A tone that [Tone.read] decodes from an image with the tone layout of
    either format, without raising, has the fields of [tone_fields], with
    unsigned ints for the bank, the segments and the end point. *)
Lemma Tone_read_fields (f : Format) (base : Z) (img : list byte) (i s : Z)
    (tone : ParamBlock) :
  f = S550 \/ f = S50 ->
  Tone_read (ParamBlock_init (tone_fmt f) base) img i s = (tone, Return tt) ->
  exists bank seg len k,
    tone_fields tone (VInt bank) seg len (VInt k) /\
    0 <= bank /\ 0 <= seg /\ 0 <= len /\ 0 <= k.
Proof.
  intros Hf. unfold Tone_read, ParamBlock_read.
  cbn [ParamBlock_init values block_fmt addr number].
  destruct (read_params _ _ _) as [[b values'] [[]|e]] eqn:Hread;
    [|discriminate].
  cbn [values]. unfold getitem.
  destruct (values' !! "FREQUENCY"%string) as [fq|] eqn:Hfq; [|discriminate].
  intros [= <-].
  assert (Hint : forall name,
             last_tag (tone_fmt f) name = Some "int"%string ->
             exists n, values' !! name = Some (VInt n) /\ 0 <= n).
  { intros name Hname. apply (read_params_int_field name _ _ _ _ _ Hread).
    rewrite Hname. reflexivity. }
  destruct (Hint "WAVE BANK"%string) as (bank & Hbank & Hb);
    [destruct Hf as [-> | ->]; reflexivity|].
  destruct (Hint "WAVE SEGMENT TOP"%string) as (seg & Hseg & Hs);
    [destruct Hf as [-> | ->]; reflexivity|].
  destruct (Hint "WAVE SEGMENT LENGTH"%string) as (len & Hlen & Hl);
    [destruct Hf as [-> | ->]; reflexivity|].
  destruct (Hint "START POINT"%string) as (sp & Hsp & _);
    [destruct Hf as [-> | ->]; reflexivity|].
  destruct (Hint "END POINT"%string) as (k & Hend & Hk);
    [destruct Hf as [-> | ->]; reflexivity|].
  exists bank, seg, len, k. unfold tone_fields. cbn [values].
  rewrite lookup_insert_eq, !lookup_insert_ne by discriminate.
  repeat split; eauto.
Qed.

(** ** What the steps of [Disk.__init__] can raise *)

Lemma check_formats (img : list byte) (f : Format) :
  check img = Return f -> f = S550 \/ f = S50.
Proof.
  unfold check. destruct (decode_ascii _) as [s|e]; [|discriminate].
  repeat (match goal with
          | |- context [if ?c then _ else _] => destruct c
          end; [intros [= <-]; auto|]).
  discriminate.
Qed.








(** ** Bytes after the parameter blocks do not change what is decoded *)











(** ** The size gate of [Disk.__init__] *)









(** ** The buffer never loses bytes *)

Lemma slice_index_range (len i : Z) :
  0 <= len -> 0 <= slice_index len i <= len.
Proof.
  intros Hlen. unfold slice_index. destruct (Z.ltb_spec i 0); lia.
Qed.

Lemma slice_prefix {A : Type} (l : list A) (n : Z) :
  slice l None (Some n)
  = take (Z.to_nat (slice_index (Z.of_nat (length l)) n)) l.
Proof.
  unfold slice. rewrite Z.sub_0_r. change (Z.to_nat 0) with 0%nat.
  rewrite drop_0. reflexivity.
Qed.

Lemma slice_suffix {A : Type} (l : list A) (n : Z) :
  slice l (Some n) None
  = drop (Z.to_nat (slice_index (Z.of_nat (length l)) n)) l.
Proof.
  unfold slice.
  pose proof (slice_index_range (Z.of_nat (length l)) n ltac:(lia)) as Hk.
  apply take_ge. rewrite length_drop. lia.
Qed.

(** X1: [pop(n)] never raises and never loses bytes: for every integer
    [n], negative ones included, the bytes it returns followed by what is
    left in the buffer are the buffer as it was; [skip(n)] leaves the same
    buffer as [pop(n)]; and for [n >= 0] the bytes returned are [n] or, on
    a short read, all that was left. *)
Theorem X1_pop_never_loses_bytes (self : DiskBytes) (n : Z) :
  (DiskBytes_pop self n).1 ++ _view (DiskBytes_pop self n).2 = _view self /\
  DiskBytes_skip self n = (DiskBytes_pop self n).2 /\
  (0 <= n ->
   Z.of_nat (length (DiskBytes_pop self n).1)
   = Z.min n (Z.of_nat (length (_view self)))).
Proof.
  unfold DiskBytes_pop, DiskBytes_skip. cbn [fst snd _view].
  rewrite slice_prefix, slice_suffix. split; [apply take_drop|].
  split; [reflexivity|]. intros Hn. rewrite length_take.
  unfold slice_index. destruct (Z.ltb_spec n 0); lia.
Qed.

Lemma X1_pop_never_loses_bytes_witness :
  0 <= 3 /\
  DiskBytes_pop {| _view := [x01; x02] |} 3
  = ([x01; x02], {| _view := [] |}) /\
  Z.of_nat (length (DiskBytes_pop {| _view := [x01; x02] |} 3).1) = 2.
Proof.
  assert (H3 : 0 <= 3) by lia.
  destruct (X1_pop_never_loses_bytes {| _view := [x01; x02] |} 3)
    as (_ & _ & Hlen).
  split; [exact H3|]. split; [reflexivity|]. exact (Hlen H3).
Defined.

(** X2: two pops in a row take what one pop of the sum takes: for
    [a, b >= 0], the bytes of [pop(a)] followed by those of [pop(b)] are
    the bytes of a single [pop(a + b)], and the buffer is left the same. *)
Theorem X2_pop_pop (self : DiskBytes) (a b : Z) :
  0 <= a -> 0 <= b ->
  let first := DiskBytes_pop self a in
  let second := DiskBytes_pop first.2 b in
  DiskBytes_pop self (a + b) = (first.1 ++ second.1, second.2).
Proof.
  intros Ha Hb first second. unfold second, first.
  rewrite !DiskBytes_pop_spec by lia. cbn [fst snd _view].
  rewrite drop_drop, Z2Nat.inj_add by lia. f_equal.
  rewrite <- (take_drop (Z.to_nat a) (_view self)) at 1.
  rewrite take_app_ge; rewrite length_take; [|lia].
  destruct (Nat.le_gt_cases (Z.to_nat a) (length (_view self))) as [Hle|Hgt].
  - rewrite Nat.min_l by lia. do 2 f_equal. lia.
  - rewrite Nat.min_r by lia. rewrite !drop_ge by lia. rewrite !take_nil.
    reflexivity.
Qed.

Lemma X2_pop_pop_witness :
  0 <= 1 /\ 0 <= 2 /\
  DiskBytes_pop {| _view := [x01; x02; x03; x04] |} (1 + 2)
  = ([x01] ++ [x02; x03], {| _view := [x04] |}).
Proof.
  assert (Ha : 0 <= 1) by lia. assert (Hb : 0 <= 2) by lia.
  split; [exact Ha|]. split; [exact Hb|].
  exact (X2_pop_pop {| _view := [x01; x02; x03; x04] |} 1 2 Ha Hb).
Defined.

(** ** What a decoding pass keeps *)

Lemma stored_tag_decode_field (t : string) (bs : list byte) :
  stored_tag t = true -> is_Some (decode_field t bs).
Proof.
  unfold stored_tag, stored_tags, decode_field. cbn [existsb].
  destruct (t =? "int")%string; [eauto|].
  destruct (t =? "signed_int")%string; [eauto|].
  destruct (t =? "multi")%string; [eauto|].
  destruct (t =? "ascii")%string; [eauto|].
  destruct (t =? "raw")%string; [eauto|discriminate].
Qed.

(** One field, whatever its tag and outcome: the buffer afterwards is a
    suffix of the buffer before, and the dict is unchanged or has the
    field's name set. *)
Lemma read_param_any (p : Param) (self : DiskBytes)
    (values : gmap string value) :
  (exists k, _view (read_param p self values).1.1 = drop k (_view self)) /\
  ((read_param p self values).1.2 = values \/
   stored_tag (ptype p) = true /\
   exists v, (read_param p self values).1.2 = <[pname p := v]> values).
Proof.
  unfold read_param, DiskBytes_pop, DiskBytes_skip. cbn [_view].
  rewrite !slice_suffix.
  destruct (ptype p =? "int")%string eqn:E1.
  { apply String.eqb_eq in E1. rewrite E1. cbn [fst snd _view]. eauto 6. }
  destruct (ptype p =? "signed_int")%string eqn:E2.
  { apply String.eqb_eq in E2. rewrite E2. cbn [fst snd _view]. eauto 6. }
  destruct (ptype p =? "multi")%string eqn:E3.
  { apply String.eqb_eq in E3. rewrite E3.
    destruct (struct_unpack_b _ _); cbn [fst snd _view]; eauto 6. }
  destruct (ptype p =? "ascii")%string eqn:E4.
  { apply String.eqb_eq in E4. rewrite E4.
    destruct (decode_ascii _); cbn [fst snd _view]; eauto 6. }
  destruct (ptype p =? "raw")%string eqn:E5.
  { apply String.eqb_eq in E5. rewrite E5. cbn [fst snd _view]. eauto 6. }
  destruct (ptype p =? "dummy")%string; cbn [fst snd _view]; [eauto|].
  split; [exists 0%nat; reflexivity|auto].
Qed.

Lemma read_params_keeps (fmt : list Param) (self : DiskBytes)
    (values : gmap string value) :
  dom values ⊆ dom (read_params fmt self values).1.2 /\
  (forall key, key ∉ stored_names fmt ->
     (read_params fmt self values).1.2 !! key = values !! key) /\
  exists k, _view (read_params fmt self values).1.1 = drop k (_view self).
Proof.
  revert self values. induction fmt as [|p fmt IH]; intros self values.
  - cbn. split; [reflexivity|]. split; [reflexivity|]. exists 0%nat. reflexivity.
  - cbn [read_params stored_names].
    destruct (read_param_any p self values) as ((k1 & Hview) & Hvals).
    destruct (read_param p self values) as [[self1 values1] r1].
    cbn [fst snd] in Hview, Hvals.
    assert (Hdom1 : dom values ⊆ dom values1).
    { destruct Hvals as [-> | (_ & v & ->)]; [reflexivity|].
      rewrite dom_insert. apply union_subseteq_r. }
    assert (Hkeep1 : forall key,
               key ∉ (if stored_tag (ptype p)
                      then pname p :: stored_names fmt else stored_names fmt) ->
               values1 !! key = values !! key).
    { intros key Hkey. destruct Hvals as [-> | (Hst & v & ->)]; [reflexivity|].
      rewrite Hst in Hkey. apply not_elem_of_cons in Hkey as [Hne _].
      apply lookup_insert_ne. congruence. }
    destruct r1 as [[]|e].
    + destruct (IH self1 values1) as (Hdom & Hkeep & k & Hk).
      split; [etransitivity; eassumption|]. split.
      * intros key Hkey. rewrite Hkeep, Hkeep1; [reflexivity|exact Hkey|].
        destruct (stored_tag (ptype p)); [|exact Hkey].
        apply not_elem_of_cons in Hkey as [_ Hkey]. exact Hkey.
      * exists (k1 + k)%nat. rewrite Hk, Hview. apply drop_drop.
    + cbn [fst snd]. split; [exact Hdom1|]. split; [exact Hkeep1|].
      exists k1. exact Hview.
Qed.

(** X3: a decoding pass, whether it returns or raises and whatever tags
    and sizes the layout has, never removes an entry from the dict it is
    given, leaves every key that is not the name of a stored field as it
    was, and leaves the buffer at a suffix of where it was: it never
    rewinds. *)
Theorem X3_read_params_keeps (fmt : list Param) (self : DiskBytes)
    (values : gmap string value) :
  dom values ⊆ dom (read_params fmt self values).1.2 /\
  (forall key, key ∉ stored_names fmt ->
     (read_params fmt self values).1.2 !! key = values !! key) /\
  exists k, _view (read_params fmt self values).1.1 = drop k (_view self).
Proof. apply read_params_keeps. Qed.

Lemma X3_read_params_keeps_witness :
  ("NAME"%string ∉ stored_names [P "LEVEL" "int" 1]) /\
  (read_params [P "LEVEL" "int" 1] {| _view := [x07] |}
     (<["NAME" := VStr "PIANO"]> ∅)).1.2 !! "NAME"%string
  = Some (VStr "PIANO").
Proof.
  assert (Hkey : "NAME"%string ∉ stored_names [P "LEVEL" "int" 1]).
  { cbn. intros H. apply list_elem_of_singleton in H. discriminate. }
  split; [exact Hkey|].
  destruct (X3_read_params_keeps [P "LEVEL" "int" 1] {| _view := [x07] |}
              (<["NAME" := VStr "PIANO"]> ∅)) as (_ & Hkeep & _).
  rewrite (Hkeep _ Hkey). reflexivity.
Defined.

(** A field of a known tag that does not raise takes its size from the
    buffer and, unless it is a dummy, stores the decoded bytes. *)
Lemma read_param_returns (p : Param) (self self1 : DiskBytes)
    (values values1 : gmap string value) :
  known_tag (ptype p) = true -> 0 <= psize p ->
  read_param p self values = (self1, values1, Return tt) ->
  _view self1 = drop (Z.to_nat (psize p)) (_view self) /\
  values1 = match decode_field (ptype p)
                    (take (Z.to_nat (psize p)) (_view self)) with
            | Some v => <[pname p := v]> values
            | None => values
            end.
Proof.
  destruct p as [name t size]. cbn [ptype psize pname].
  intros Hknown Hsize. unfold read_param. cbn [ptype psize pname].
  rewrite DiskBytes_pop_spec, DiskBytes_skip_spec by lia.
  destruct (known_tag_cases _ Hknown) as [-> | [-> | [-> | [-> | [-> | ->]]]]];
    unfold decode_field; eval_tags.
  - intros [= <- <-]. split; reflexivity.
  - intros [= <- <-]. split; reflexivity.
  - unfold struct_unpack_b. destruct (size <? 0); [discriminate|].
    destruct (_ =? size); [|discriminate].
    intros [= <- <-]. split; reflexivity.
  - unfold decode_ascii. destruct (forallb _ _); [|discriminate].
    intros [= <- <-]. split; reflexivity.
  - intros [= <- <-]. split; reflexivity.
  - intros [= <- <-]. split; reflexivity.
Qed.

Lemma read_params_returns_view (fmt : list Param) :
  forall (self self' : DiskBytes) (values values' : gmap string value),
  Forall (fun p => known_tag (ptype p) = true /\ 0 <= psize p) fmt ->
  read_params fmt self values = (self', values', Return tt) ->
  _view self' = drop (Z.to_nat (layout_size fmt)) (_view self).
Proof.
  induction fmt as [|p fmt IH]; intros self self' values values' Hfmt Hread.
  - cbn in Hread. injection Hread as <- _. reflexivity.
  - inversion Hfmt as [|p' fmt' [Hknown Hsize] Hfmt']; subst p' fmt'.
    pose proof (layout_size_nonneg _ Hfmt') as Hnn.
    cbn [read_params] in Hread.
    destruct (read_param p self values) as [[self1 values1] [[]|e]] eqn:Hp;
      [|discriminate].
    destruct (read_param_returns _ _ _ _ _ Hknown Hsize Hp) as [Hview _].
    rewrite (IH _ _ _ _ Hfmt' Hread), Hview, drop_drop.
    change (layout_size (p :: fmt)) with (psize p + layout_size fmt).
    rewrite Z2Nat.inj_add by lia. reflexivity.
Qed.

Lemma read_params_field_value (fmt1 fmt2 : list Param) (p : Param)
    (self self' : DiskBytes) (values values' : gmap string value) :
  Forall (fun p => known_tag (ptype p) = true /\ 0 <= psize p) (fmt1 ++ [p]) ->
  stored_tag (ptype p) = true ->
  pname p ∉ stored_names fmt2 ->
  read_params (fmt1 ++ p :: fmt2) self values = (self', values', Return tt) ->
  values' !! pname p
  = decode_field (ptype p)
      (take (Z.to_nat (psize p))
         (drop (Z.to_nat (layout_size fmt1)) (_view self))).
Proof.
  intros Hfmt Hstored Hlater Hread.
  apply Forall_app in Hfmt as [Hfmt1 Hp].
  apply Forall_singleton in Hp as [Hknown Hsize].
  rewrite read_params_app in Hread.
  destruct (read_params fmt1 self values) as [[self1 values1] [[]|e]] eqn:H1;
    [|discriminate].
  apply (read_params_returns_view _ _ _ _ _ Hfmt1) in H1.
  cbn [read_params] in Hread.
  destruct (read_param p self1 values1) as [[self2 values2] [[]|e]] eqn:Hp;
    [|discriminate].
  destruct (read_param_returns _ _ _ _ _ Hknown Hsize Hp) as [_ Hvals].
  destruct (read_params_keeps fmt2 self2 values2) as (_ & Hkeep & _).
  rewrite Hread in Hkeep. cbn [fst snd] in Hkeep.
  rewrite (Hkeep _ Hlater), Hvals, H1.
  destruct (stored_tag_decode_field (ptype p)
              (take (Z.to_nat (psize p))
                 (drop (Z.to_nat (layout_size fmt1)) (_view self))) Hstored)
    as [v Hv].
  rewrite Hv. apply lookup_insert_eq.
Qed.

(** X4: the layout is the byte-offset map of a block.  When a pass over a
    layout returns, a stored field that follows fields of known tags, and
    whose name no later field stores again, holds the decoding of the bytes
    at the offset that is the sum of the sizes before it, and of its own
    size (fewer if the buffer ends there). *)
Theorem X4_field_at_layout_offset (fmt1 fmt2 : list Param) (p : Param)
    (self self' : DiskBytes) (values values' : gmap string value) :
  Forall (fun p => known_tag (ptype p) = true /\ 0 <= psize p) (fmt1 ++ [p]) ->
  stored_tag (ptype p) = true ->
  pname p ∉ stored_names fmt2 ->
  read_params (fmt1 ++ p :: fmt2) self values = (self', values', Return tt) ->
  values' !! pname p
  = decode_field (ptype p)
      (take (Z.to_nat (psize p))
         (drop (Z.to_nat (layout_size fmt1)) (_view self))).
Proof. apply read_params_field_value. Qed.

Lemma X4_field_at_layout_offset_witness :
  let fmt1 := [P "NAME" "ascii" 2; P "dummy1" "dummy" 1] in
  let p := P "END POINT" "int" 3 in
  let fmt2 := [P "LEVEL" "float" 1; P "TUNE" "signed_int" 1] in
  let self := {| _view := [x41; x42; xff; x01; x02; x03; xfe] |} in
  (Forall (fun p => known_tag (ptype p) = true /\ 0 <= psize p) (fmt1 ++ [p]) /\
   stored_tag (ptype p) = true /\
   (pname p ∉ stored_names fmt2) /\
   (read_params (fmt1 ++ p :: fmt2) self ∅).2 = Return tt) /\
  (read_params (fmt1 ++ p :: fmt2) self ∅).1.2 !! "END POINT"%string
  = Some (VInt 0x010203).
Proof.
  intros fmt1 p fmt2 self.
  assert (Hfmt : Forall (fun p => known_tag (ptype p) = true /\ 0 <= psize p)
                   (fmt1 ++ [p]))
    by (repeat constructor; simpl; lia).
  assert (Hstored : stored_tag (ptype p) = true) by reflexivity.
  assert (Hlater : pname p ∉ stored_names fmt2).
  { cbn. intros H. apply list_elem_of_singleton in H. discriminate. }
  split; [split; [exact Hfmt|]; split; [exact Hstored|];
          split; [exact Hlater|reflexivity]|].
  destruct (read_params (fmt1 ++ p :: fmt2) self ∅) as [[self' values'] r] eqn:E.
  assert (Hr : r = Return tt) by (vm_compute in E; congruence).
  subst r. cbn [fst snd]. change "END POINT"%string with (pname p).
  rewrite (X4_field_at_layout_offset fmt1 fmt2 p self self' ∅ values'
             Hfmt Hstored Hlater E).
  reflexivity.
Defined.

(** ** Tones and patches as decoded *)

Lemma tone_fmt_frequency (f : Format) :
  f = S550 \/ f = S50 ->
  tone_fmt f
  = take 4 (tone_fmt f) ++ P "FREQUENCY" "int" 1 :: drop 5 (tone_fmt f) /\
  Forall (fun p => known_tag (ptype p) = true /\ 0 <= psize p)
    (take 4 (tone_fmt f) ++ [P "FREQUENCY" "int" 1]) /\
  layout_size (take 4 (tone_fmt f)) = 11 /\
  "FREQUENCY"%string ∉ stored_names (drop 5 (tone_fmt f)).
Proof.
  intros [-> | ->]; (split; [reflexivity|]);
    (split; [repeat constructor; cbn; lia|]); (split; [reflexivity|]);
    apply (bool_decide_unpack _); vm_compute; exact I.
Qed.

(** X5: a tone read with the tone layout of either format has FREQUENCY
    30000 when the flag byte at offset 11 of its block is 0 and 15000 for
    every other value of that byte, not for 1 alone; a block that ends
    before that byte counts as 0. *)
Theorem X5_tone_frequency (f : Format) (base : Z) (img : list byte)
    (i s : Z) (tone : ParamBlock) :
  f = S550 \/ f = S50 ->
  0 <= base + s * i ->
  Tone_read (ParamBlock_init (tone_fmt f) base) img i s = (tone, Return tt) ->
  let flag :=
    int_from_bytes (take 1 (drop 11 (drop (Z.to_nat (base + s * i)) img))) in
  values tone !! "FREQUENCY"%string
  = Some (VInt (if flag =? 0 then 30000 else 15000)).
Proof.
  intros Hf Haddr Hread flag.
  destruct (tone_fmt_frequency f Hf) as (Hsplit & Hfmt & Hoff & Hlater).
  rewrite Tone_read_Patch_read, Patch_read_at in Hread by exact Haddr.
  unfold read_at, decode_at in Hread.
  cbn [ParamBlock_init addr values block_fmt] in Hread.
  destruct (read_params (tone_fmt f) _ ∅) as [[b values'] r] eqn:Hpass.
  cbn [fst snd] in Hread.
  destruct r as [[]|e]; [|discriminate].
  rewrite Hsplit in Hpass.
  pose proof (read_params_field_value _ _ _ _ _ _ _ Hfmt eq_refl Hlater Hpass)
    as Hfq.
  rewrite Hoff in Hfq. cbn [pname ptype psize decode_field _view] in Hfq.
  change (decode_field "int" ?bs) with (Some (VInt (int_from_bytes bs))) in Hfq.
  change (Z.to_nat 1) with 1%nat in Hfq. change (Z.to_nat 11) with 11%nat in Hfq.
  fold flag in Hfq.
  cbn [Tone_frequency values] in Hread. unfold getitem in Hread.
  rewrite Hfq in Hread. injection Hread as <-. cbn [values].
  rewrite lookup_insert_eq. cbn [truthy].
  destruct (flag =? 0); reflexivity.
Qed.

Lemma X5_tone_frequency_witness :
  let img := replicate 11 x00 ++ [x02] ++ replicate 116 x00 in
  (S550 = S550 \/ S550 = S50) /\ 0 <= 0 + 128 * 0 /\
  (Tone_read (ParamBlock_init (tone_fmt S550) 0) img 0 128).2 = Return tt /\
  values (Tone_read (ParamBlock_init (tone_fmt S550) 0) img 0 128).1
    !! "FREQUENCY"%string = Some (VInt 15000).
Proof.
  intros img.
  assert (Hf : S550 = S550 \/ S550 = S50) by (left; reflexivity).
  assert (Haddr : 0 <= 0 + 128 * 0) by lia.
  destruct (Tone_read (ParamBlock_init (tone_fmt S550) 0) img 0 128)
    as [tone r] eqn:E.
  assert (Hr : r = Return tt) by (vm_compute in E; congruence).
  subst r. split; [exact Hf|]. split; [exact Haddr|]. split; [reflexivity|].
  exact (X5_tone_frequency S550 0 img 0 128 tone Hf Haddr E).
Defined.

(** ** What [Disk.__init__] builds *)

Lemma Patch_read_block (self : ParamBlock) (img : list byte) (i s : Z) :
  addr (Patch_read self img i s).1 = addr self + s * i /\
  number (Patch_read self img i s).1 = Some i /\
  block_fmt (Patch_read self img i s).1 = block_fmt self.
Proof.
  unfold Patch_read, ParamBlock_read. cbn [addr values block_fmt number].
  destruct (read_params _ _ _) as [[b values'] r]. cbn. auto.
Qed.

Lemma Tone_read_block (self : ParamBlock) (img : list byte) (i s : Z) :
  addr (Tone_read self img i s).1 = addr self + s * i /\
  number (Tone_read self img i s).1 = Some i /\
  block_fmt (Tone_read self img i s).1 = block_fmt self.
Proof.
  rewrite Tone_read_Patch_read.
  destruct (Tone_frequency_fields (Patch_read self img i s)) as (-> & -> & ->).
  apply Patch_read_block.
Qed.

Lemma read_blocks_returns
    (read : ParamBlock -> list byte -> Z -> Z -> ParamBlock * raises unit)
    (fmt : list Param) (offset size : Z) (img : list byte) :
  forall (indices : list Z) (blocks : list ParamBlock),
  read_blocks read fmt offset size img indices = Return blocks ->
  Forall2 (fun i p => read (ParamBlock_init fmt offset) img i size
                      = (p, Return tt)) indices blocks.
Proof.
  induction indices as [|i indices IH]; intros blocks H.
  - injection H as <-. constructor.
  - cbn [read_blocks] in H.
    destruct (read _ img i size) as [p [[]|e]] eqn:Hp; [|discriminate].
    destruct (read_blocks read fmt offset size img indices) as [ps|e];
      [|discriminate].
    injection H as <-. constructor; [exact Hp|]. apply IH. reflexivity.
Qed.

(** The steps behind a disk that [Disk.__init__] returns. *)
Lemma Disk_init_returns (filename : string) (file : list byte)
    (log : list string) (d : Disk) :
  Disk_init filename file = (log, Return d) ->
  check file = Return (format d) /\
  diskread.filename d = filename /\
  sys d = slice file None (Some 64512) /\
  wave d = slice (slice file (Some 73728) None) None (Some 663552) /\
  ParamBlock_read (ParamBlock_init (func_fmt (format d)) 68608) file
  = (function d, Return tt) /\
  ParamBlock_read (ParamBlock_init (midi_fmt (format d)) 68832) file
  = (midi d, Return tt) /\
  read_blocks Patch_read (patch_fmt (format d)) (PATCHES_OFFSET (format d))
    (PATCH_SIZE (format d)) file (seqZ 0 (PATCH_COUNT (format d)))
  = Return (patches d) /\
  read_blocks Tone_read (tone_fmt (format d)) (TONES_OFFSET (format d))
    (TONE_SIZE (format d)) file (seqZ 0 (TONE_COUNT (format d)))
  = Return (tones d).
Proof.
  unfold Disk_init.
  destruct (Z.of_nat (length file) >? MAX_FILE_SIZE); [discriminate|].
  destruct (check file) as [f|e]; [|discriminate].
  destruct (decode_ascii (slice (slice file None (Some 64512)) (Some 32)
                            (Some 63))) as [ver|e0];
    (destruct (ParamBlock_read (ParamBlock_init (func_fmt f) 68608) file)
       as [function [[]|e1]] eqn:Hfunc; [|discriminate]);
    (destruct (ParamBlock_read (ParamBlock_init (midi_fmt f) 68832) file)
       as [midi [[]|e2]] eqn:Hmidi; [|discriminate]);
    (destruct (read_blocks Patch_read _ _ _ file _) as [patches|e3] eqn:Hp;
     [|discriminate]);
    (destruct (read_blocks Tone_read _ _ _ file _) as [tones|e4] eqn:Ht;
     [|discriminate]);
    intros [= _ <-]; cbn; repeat split; try reflexivity; assumption.
Qed.

Lemma blocks_of_indices
    (read : ParamBlock -> list byte -> Z -> Z -> ParamBlock * raises unit)
    (fmt : list Param) (offset size count : Z) (img : list byte)
    (blocks : list ParamBlock) :
  read_blocks read fmt offset size img (seqZ 0 count) = Return blocks ->
  length blocks = Z.to_nat count /\
  forall (i : nat) (p : ParamBlock),
    blocks !! i = Some p ->
    read (ParamBlock_init fmt offset) img (Z.of_nat i) size = (p, Return tt).
Proof.
  intros H. apply read_blocks_returns in H.
  split.
  - rewrite <- (Forall2_length _ _ _ H). apply length_seqZ.
  - intros i p Hp.
    destruct (Forall2_lookup_r _ _ _ _ _ H Hp) as (k & Hk & Hread).
    apply lookup_seqZ in Hk as [-> _]. rewrite Z.add_0_l in Hread. exact Hread.
Qed.

(** X6: a disk that [Disk.__init__] returns has the format [check] found,
    the first 64512 bytes of the file as system data and up to 663552
    bytes from offset 73728 as wave data, and as many patches and tones as
    the format counts, in disk order: the block at list position [i] has
    number [i], the address offset + size * i and the format's layout. *)
Theorem X6_disk_blocks_in_order (filename : string) (file : list byte)
    (log : list string) (d : Disk) :
  Disk_init filename file = (log, Return d) ->
  (format d = S550 \/ format d = S50) /\
  sys d = take (Z.to_nat 64512) file /\
  wave d = take (Z.to_nat 663552) (drop (Z.to_nat 73728) file) /\
  length (patches d) = Z.to_nat (PATCH_COUNT (format d)) /\
  length (tones d) = Z.to_nat (TONE_COUNT (format d)) /\
  (forall (i : nat) (p : ParamBlock),
     patches d !! i = Some p ->
     number p = Some (Z.of_nat i) /\
     addr p = PATCHES_OFFSET (format d) + PATCH_SIZE (format d) * Z.of_nat i /\
     block_fmt p = patch_fmt (format d)) /\
  (forall (i : nat) (t : ParamBlock),
     tones d !! i = Some t ->
     number t = Some (Z.of_nat i) /\
     addr t = TONES_OFFSET (format d) + TONE_SIZE (format d) * Z.of_nat i /\
     block_fmt t = tone_fmt (format d)).
Proof.
  intros Hinit.
  destruct (Disk_init_returns _ _ _ _ Hinit)
    as (Hcheck & _ & Hsys & Hwave & _ & _ & Hpatches & Htones).
  apply blocks_of_indices in Hpatches as [Hplen Hp].
  apply blocks_of_indices in Htones as [Htlen Ht].
  split; [exact (check_formats _ _ Hcheck)|].
  split; [rewrite Hsys; apply slice_upto; lia|].
  split; [rewrite Hwave, slice_from, slice_upto by lia; reflexivity|].
  split; [exact Hplen|]. split; [exact Htlen|]. split.
  - intros i p Hi. specialize (Hp i p Hi).
    pose proof (Patch_read_block
                  (ParamBlock_init (patch_fmt (format d))
                     (PATCHES_OFFSET (format d)))
                  file (Z.of_nat i) (PATCH_SIZE (format d))) as Hb.
    rewrite Hp in Hb. exact (conj (proj1 (proj2 Hb))
                               (conj (proj1 Hb) (proj2 (proj2 Hb)))).
  - intros i t Hi. specialize (Ht i t Hi).
    pose proof (Tone_read_block
                  (ParamBlock_init (tone_fmt (format d))
                     (TONES_OFFSET (format d)))
                  file (Z.of_nat i) (TONE_SIZE (format d))) as Hb.
    rewrite Ht in Hb. exact (conj (proj1 (proj2 Hb))
                               (conj (proj1 Hb) (proj2 (proj2 Hb)))).
Qed.

Lemma X6_disk_blocks_in_order_witness :
  exists log d,
    Disk_init "DEV/OUT" example_image = (log, Return d) /\
    format d = S550 /\ length (patches d) = 16%nat /\
    length (tones d) = 32%nat.
Proof.
  assert (Hret : returns (Disk_init "DEV/OUT" example_image).2)
    by (vm_compute; exact I).
  destruct (Disk_init "DEV/OUT" example_image) as [log [d|e]] eqn:E;
    [|destruct Hret].
  exists log, d. split; [reflexivity|].
  destruct (X6_disk_blocks_in_order _ _ _ _ E)
    as (_ & _ & _ & Hp & Ht & _).
  assert (Hfmt : format d = S550).
  { destruct (Disk_init_returns _ _ _ _ E) as (Hcheck & _).
    assert (Hc : check example_image = Return S550) by (vm_compute; reflexivity).
    congruence. }
  rewrite Hfmt in Hp, Ht. split; [exact Hfmt|].
  split; [exact Hp | exact Ht].
Defined.

(** ** What [Disk.__init__] can raise *)






(** ** Conversion over wave data that ends early *)

Lemma pcm_of_short (view : list byte) :
  (length view < 3)%nat -> pcm_of view = [].
Proof.
  destruct view as [|b0 [|b1 [|b2 view']]]; simpl; intros H;
    try reflexivity; lia.
Qed.

Lemma convert_loop_short ulp loop_end end_addr view tone_addr samples_read res :
  (length view < 3)%nat ->
  convert_loop ulp loop_end end_addr view tone_addr samples_read res
  = Return res.
Proof.
  intros H. destruct view as [|b0 [|b1 [|b2 view']]]; simpl in H; try lia;
    simpl; destruct (tone_addr <? end_addr); reflexivity.
Qed.

Lemma convert_loop_all_available (loop_end : value) (end_addr : Z) (n : nat) :
  forall (view : list byte) (tone_addr samples_read : Z) (res : list byte),
  (length view <= n)%nat ->
  Z.of_nat (length view) <= end_addr - tone_addr ->
  convert_loop false loop_end end_addr view tone_addr samples_read res
  = Return (res ++ pcm_of view).
Proof.
  induction n as [|n IH]; intros view tone_addr samples_read res Hn Hlen.
  - rewrite convert_loop_short, pcm_of_short by lia.
    rewrite app_nil_r. reflexivity.
  - destruct view as [|b0 [|b1 [|b2 view']]];
      try (rewrite convert_loop_short, pcm_of_short by (simpl; lia);
           rewrite app_nil_r; reflexivity).
    simpl in Hn, Hlen. rewrite convert_loop_emit by lia.
    rewrite IH by lia. cbn [pcm_of]. rewrite app_assoc. reflexivity.
Qed.

Lemma convert_loop_until_available (k end_addr : Z) (n : nat) :
  forall (view : list byte) (tone_addr samples_read : Z) (res : list byte),
  (length view <= n)%nat ->
  Z.of_nat (length view) <= end_addr - tone_addr ->
  convert_loop true (VInt k) end_addr view tone_addr samples_read res
  = Return (res ++ pcm_of (take (3 * Z.to_nat (chunks_before (k - samples_read)))
                             view)).
Proof.
  induction n as [|n IH]; intros view tone_addr samples_read res Hn Hlen.
  - rewrite convert_loop_short, pcm_of_short by (try rewrite length_take; lia).
    rewrite app_nil_r. reflexivity.
  - destruct view as [|b0 [|b1 [|b2 view']]];
      try (rewrite convert_loop_short, pcm_of_short
             by (try rewrite length_take; simpl; lia);
           rewrite app_nil_r; reflexivity).
    simpl in Hn, Hlen.
    destruct (Z.le_gt_cases k (samples_read + 2)) as [Hstop|Hgo].
    + rewrite convert_loop_stop by lia.
      replace (chunks_before (k - samples_read)) with 0.
      * cbn [Z.to_nat Nat.mul take pcm_of]. rewrite app_nil_r. reflexivity.
      * unfold chunks_before.
        assert ((k - samples_read - 1) / 2 <= 0)
          by (Z.div_mod_to_equations; lia).
        lia.
    + rewrite convert_loop_emit_before by lia.
      rewrite IH by lia.
      assert (Hm : chunks_before (k - samples_read)
                   = 1 + chunks_before (k - (samples_read + 2))).
      { unfold chunks_before. Z.div_mod_to_equations. lia. }
      assert (Hm0 : 0 <= chunks_before (k - (samples_read + 2)))
        by (unfold chunks_before; lia).
      rewrite Hm, Z2Nat.inj_add by lia.
      change (Z.to_nat 1) with 1%nat.
      replace (3 * (1 + Z.to_nat (chunks_before (k - (samples_read + 2)))))%nat
        with (S (S (S (3 * Z.to_nat (chunks_before (k - (samples_read + 2)))))))
        by lia.
      cbn [take pcm_of]. rewrite app_assoc. reflexivity.
Qed.

Lemma pcm_of_length_div (n : nat) :
  forall view : list byte,
  (length view <= n)%nat ->
  Z.of_nat (length (pcm_of view)) = 4 * (Z.of_nat (length view) / 3).
Proof.
  induction n as [|n IH]; intros view Hn.
  - destruct view; [reflexivity|simpl in Hn; lia].
  - destruct view as [|b0 [|b1 [|b2 view']]]; try reflexivity.
    simpl in Hn. cbn [pcm_of]. rewrite length_app, Nat2Z.inj_add.
    rewrite IH by lia. cbn [chunk_output length].
    rewrite !Nat2Z.inj_succ. Z.div_mod_to_equations. lia.
Qed.

Lemma convert_wave_available (self : Disk) (num : Z) (tone : ParamBlock)
    (bank : value) (seg len k : Z) :
  index (tones self) num = Return tone ->
  tone_fields tone bank seg len (VInt k) ->
  0 <= wave_start bank seg -> 0 <= len ->
  let view := slice (wave self) (Some (wave_start bank seg))
                (Some (wave_start bank seg + SEGMENT_SIZE * len)) in
  convert_wave self num false = Return (pcm_of view) /\
  convert_wave self num true
  = Return (take (Z.to_nat (4 * chunks_before k)) (pcm_of view)).
Proof.
  intros Htone Hfields Hstart Hlen view.
  assert (Hview : Z.of_nat (length view) <= SEGMENT_SIZE * len).
  { unfold view, SEGMENT_SIZE. rewrite slice_between by lia.
    rewrite length_take. lia. }
  split.
  - rewrite (convert_wave_eq _ _ _ _ _ _ _ _ Htone Hfields). cbn zeta.
    fold view.
    rewrite (convert_loop_all_available _ _ (length view)) by lia.
    reflexivity.
  - rewrite (convert_wave_eq _ _ _ _ _ _ _ _ Htone Hfields). cbn zeta.
    fold view.
    rewrite (convert_loop_until_available _ _ (length view)) by lia.
    rewrite Z.sub_0_r, pcm_of_take. cbn [app]. do 2 f_equal.
    assert (0 <= chunks_before k) by (unfold chunks_before; lia). lia.
Qed.

(** X8: for a tone with int fields and a range that does not start before
    the wave data, [convert_wave] never raises, however much of the range
    the wave data holds: without loop points it returns the PCM of every
    whole 3-byte chunk available in the range, 4 bytes per chunk, and a
    trailing part of a chunk is dropped; with loop points it returns the
    first [chunks_before k] chunks of that output, which is nothing at all
    when the end point [k] is 2 or less. *)
Theorem X8_convert_wave_available (self : Disk) (num : Z)
    (tone : ParamBlock) (bank : value) (seg len k : Z) :
  index (tones self) num = Return tone ->
  tone_fields tone bank seg len (VInt k) ->
  0 <= wave_start bank seg -> 0 <= len ->
  let view := slice (wave self) (Some (wave_start bank seg))
                (Some (wave_start bank seg + SEGMENT_SIZE * len)) in
  convert_wave self num false = Return (pcm_of view) /\
  Z.of_nat (length (pcm_of view)) = 4 * (Z.of_nat (length view) / 3) /\
  convert_wave self num true
  = Return (take (Z.to_nat (4 * chunks_before k)) (pcm_of view)) /\
  (k <= 2 -> convert_wave self num true = Return []).
Proof.
  intros Htone Hfields Hstart Hlen view.
  destruct (convert_wave_available _ _ _ _ _ _ _ Htone Hfields Hstart Hlen)
    as [Hall Huntil].
  fold view in Hall, Huntil.
  split; [exact Hall|].
  split; [apply (pcm_of_length_div (length view)); lia|].
  split; [exact Huntil|].
  intros Hk. rewrite Huntil.
  replace (chunks_before k) with 0; [reflexivity|].
  unfold chunks_before.
  assert ((k - 1) / 2 <= 0) by (Z.div_mod_to_equations; lia). lia.
Qed.

Lemma X8_convert_wave_available_witness :
  let tone := example_tone x00 x00 x01 x05 in
  let self := example_disk tone [x12; x34; x56; x78; x9a; xbc; xde] in
  (index (tones self) 0 = Return tone /\
   tone_fields tone (VInt 0) 0 1 (VInt 5) /\
   0 <= wave_start (VInt 0) 0 /\ 0 <= 1) /\
  convert_wave self 0 false
  = Return [x30; x12; x40; x56; x90; x78; xa0; xbc] /\
  convert_wave self 0 true = Return [x30; x12; x40; x56; x90; x78; xa0; xbc].
Proof.
  intros tone self.
  assert (Htone : index (tones self) 0 = Return tone) by reflexivity.
  assert (Hfields : tone_fields tone (VInt 0) 0 1 (VInt 5))
    by tone_fields_by_evaluation.
  assert (Hstart : 0 <= wave_start (VInt 0) 0) by (vm_compute; discriminate).
  assert (Hlen : 0 <= 1) by lia.
  split; [tauto|].
  destruct (X8_convert_wave_available self 0 tone (VInt 0) 0 1 5 Htone Hfields
              Hstart Hlen) as (Hall & _ & Huntil & _).
  split; [rewrite Hall|rewrite Huntil]; vm_compute; reflexivity.
Defined.

(** ** Waves of a disk that was read *)

Lemma index_in_range {A : Type} (l : list A) (num : Z) :
  - Z.of_nat (length l) <= num < Z.of_nat (length l) ->
  exists (i : nat) (x : A), l !! i = Some x /\ index l num = Return x.
Proof.
  intros Hnum. unfold index.
  set (i' := if num <? 0 then num + Z.of_nat (length l) else num).
  assert (Hi : 0 <= i' < Z.of_nat (length l))
    by (unfold i'; destruct (Z.ltb_spec num 0); lia).
  destruct (Z.ltb_spec i' 0); [lia|].
  destruct (lookup_lt_is_Some_2 l (Z.to_nat i')) as [x Hx]; [lia|].
  exists (Z.to_nat i'), x. rewrite Hx. split; reflexivity.
Qed.

Lemma index_out_of_range {A : Type} (l : list A) (num : Z) :
  num < - Z.of_nat (length l) \/ Z.of_nat (length l) <= num ->
  index l num = Raise IndexError.
Proof.
  intros Hnum. unfold index.
  set (i' := if num <? 0 then num + Z.of_nat (length l) else num).
  destruct (Z.ltb_spec i' 0); [reflexivity|].
  assert (Hi : Z.of_nat (length l) <= i')
    by (unfold i' in *; destruct (Z.ltb_spec num 0); lia).
  rewrite lookup_ge_None_2 by lia. reflexivity.
Qed.

Lemma Disk_init_tone_fields (filename : string) (file : list byte)
    (log : list string) (d : Disk) (i : nat) (tone : ParamBlock) :
  Disk_init filename file = (log, Return d) ->
  tones d !! i = Some tone ->
  exists bank seg len k,
    tone_fields tone (VInt bank) seg len (VInt k) /\
    0 <= bank /\ 0 <= seg /\ 0 <= len /\ 0 <= k.
Proof.
  intros Hinit Hi.
  destruct (Disk_init_returns _ _ _ _ Hinit)
    as (Hcheck & _ & _ & _ & _ & _ & _ & Htones).
  apply blocks_of_indices in Htones as [_ Ht].
  eapply Tone_read_fields; [exact (check_formats _ _ Hcheck)|].
  apply (Ht i tone Hi).
Qed.

Lemma Disk_init_tone_count (filename : string) (file : list byte)
    (log : list string) (d : Disk) :
  Disk_init filename file = (log, Return d) ->
  Z.of_nat (length (tones d)) = 32.
Proof.
  intros Hinit.
  destruct (Disk_init_returns _ _ _ _ Hinit)
    as (Hcheck & _ & _ & _ & _ & _ & _ & Htones).
  apply blocks_of_indices in Htones as [Hlen _]. rewrite Hlen.
  destruct (check_formats _ _ Hcheck) as [-> | ->]; reflexivity.
Qed.

(** X9: on a disk that [Disk.__init__] returned, the wave of every tone
    can be addressed and converted: for the tone numbers 0 to 31, and for
    -32 to -1, which count from the end, [get_wave_start], [get_wave_end]
    and [convert_wave] return, with or without loop points; for any other
    number all three raise [IndexError]. *)
Theorem X9_constructed_disk_waves (filename : string) (file : list byte)
    (log : list string) (d : Disk) (num : Z) (use_loop_points : bool) :
  Disk_init filename file = (log, Return d) ->
  (-32 <= num < 32 ->
   returns (get_wave_start d num) /\ returns (get_wave_end d num) /\
   returns (convert_wave d num use_loop_points)) /\
  (num < -32 \/ 32 <= num ->
   get_wave_start d num = Raise IndexError /\
   get_wave_end d num = Raise IndexError /\
   convert_wave d num use_loop_points = Raise IndexError).
Proof.
  intros Hinit. pose proof (Disk_init_tone_count _ _ _ _ Hinit) as Hcount.
  split.
  - intros Hnum.
    destruct (index_in_range (tones d) num) as (i & tone & Hi & Htone); [lia|].
    destruct (Disk_init_tone_fields _ _ _ _ _ _ Hinit Hi)
      as (bank & seg & len & k & Hfields & Hb & Hs & Hl & Hk).
    assert (Hstart : 0 <= wave_start (VInt bank) seg).
    { unfold wave_start, BANK_SIZE, SEGMENT_SIZE.
      destruct (eq_int (VInt bank) 1); lia. }
    rewrite (get_wave_start_eq _ _ _ _ _ _ _ Htone Hfields).
    rewrite (get_wave_end_eq _ _ _ _ _ _ _ Htone Hfields).
    destruct (convert_wave_available _ _ _ _ _ _ _ Htone Hfields Hstart Hl)
      as [Hall Huntil].
    destruct use_loop_points; [rewrite Huntil|rewrite Hall]; cbn; auto.
  - intros Hnum.
    assert (Hidx : index (tones d) num = Raise IndexError)
      by (apply index_out_of_range; lia).
    unfold get_wave_end, get_wave_start, convert_wave. rewrite Hidx.
    cbn. auto.
Qed.

Lemma X9_constructed_disk_waves_witness :
  exists log d,
    Disk_init "DEV/OUT" example_image = (log, Return d) /\
    -32 <= -1 < 32 /\ (40 < -32 \/ 32 <= 40) /\
    returns (convert_wave d (-1) true) /\
    convert_wave d 40 true = Raise IndexError.
Proof.
  assert (Hret : returns (Disk_init "DEV/OUT" example_image).2)
    by (vm_compute; exact I).
  destruct (Disk_init "DEV/OUT" example_image) as [log [d|e]] eqn:E;
    [|destruct Hret].
  exists log, d. split; [reflexivity|].
  assert (Hin : -32 <= -1 < 32) by lia.
  assert (Hout : 40 < -32 \/ 32 <= 40) by (right; lia).
  destruct (X9_constructed_disk_waves _ _ _ _ (-1) true E) as [Hyes _].
  destruct (X9_constructed_disk_waves _ _ _ _ 40 true E) as [_ Hno].
  split; [exact Hin|]. split; [exact Hout|].
  split; [exact (proj2 (proj2 (Hyes Hin)))|exact (proj2 (proj2 (Hno Hout)))].
Defined.

(** ** The unpacked samples *)

(** X10: whatever integer the chunk is, both samples taken from it are
    16-bit values with the low four bits clear: multiples of 16 between 0
    and 65520, so [struct.pack('H', ...)] cannot fail on them. *)
Theorem X10_samples_are_12_bits_promoted (chunk : Z) :
  (0 <= sample_a chunk <= 65520 /\ sample_a chunk mod 16 = 0 /\
   exists bytes, struct_pack_H (sample_a chunk) = Return bytes) /\
  (0 <= sample_b chunk <= 65520 /\ sample_b chunk mod 16 = 0 /\
   exists bytes, struct_pack_H (sample_b chunk) = Return bytes).
Proof.
  assert (Ha : 0 <= sample_a chunk <= 65520 /\ sample_a chunk mod 16 = 0).
  { unfold sample_a. change 0xfff000 with (Z.shiftl (Z.ones 12) 12).
    rewrite land_shifted_ones, Z.shiftr_div_pow2 by lia.
    change (2 ^ 12) with 4096. change (2 ^ 8) with 256.
    Z.div_mod_to_equations. lia. }
  assert (Hb : 0 <= sample_b chunk <= 65520 /\ sample_b chunk mod 16 = 0).
  { unfold sample_b.
    change 0xfff with (Z.ones 12).
    change 0xff00 with (Z.shiftl (Z.ones 8) 8).
    change 0xf0 with (Z.shiftl (Z.ones 4) 4).
    rewrite Z.land_ones by lia.
    rewrite !land_shifted_ones, Z.shiftl_mul_pow2, Z.shiftr_div_pow2 by lia.
    rewrite lor_disjoint_add.
    - change (2 ^ 12) with 4096. change (2 ^ 8) with 256.
      change (2 ^ 4) with 16. split; Z.div_mod_to_equations; lia.
    - lia.
    - change (2 ^ 12) with 4096. change (2 ^ 8) with 256.
      change (2 ^ 4) with 16. Z.div_mod_to_equations. lia. }
  split.
  - destruct Ha as [Hr Hm]. split; [exact Hr|]. split; [exact Hm|].
    eexists. apply struct_pack_H_ok. lia.
  - destruct Hb as [Hr Hm]. split; [exact Hr|]. split; [exact Hm|].
    eexists. apply struct_pack_H_ok. lia.
Qed.

Lemma byte_of_Z_val (b : byte) : byte_of_Z (byte_val b) = b.
Proof.
  unfold byte_of_Z, byte_val. pose proof (byte_val_range b) as Hr.
  unfold byte_val in Hr. rewrite Z.mod_small by lia.
  rewrite N2Z.id, Byte.of_to_N. reflexivity.
Qed.

(** X11: unpacking a chunk loses nothing: packing the two 12-bit values
    that the samples of a 3-byte chunk carry (each sample shifted back
    right by 4) gives the three bytes of the chunk again. *)
Theorem X11_unpack_then_pack (b0 b1 b2 : byte) :
  let chunk := int_from_bytes [b0; b1; b2] in
  pack_chunk (Z.shiftr (sample_a chunk) 4) (Z.shiftr (sample_b chunk) 4)
  = [b0; b1; b2].
Proof.
  intros chunk. unfold chunk, pack_chunk.
  rewrite sample_a_chunk, sample_b_chunk, !Z.shiftr_div_pow2 by lia.
  change (2 ^ 4) with 16.
  pose proof (byte_val_range b0). pose proof (byte_val_range b1).
  pose proof (byte_val_range b2).
  assert (Hb : forall z b, z = byte_val b -> byte_of_Z z = b)
    by (intros z b ->; apply byte_of_Z_val).
  f_equal; [apply Hb|f_equal; [apply Hb|f_equal; apply Hb]];
    Z.div_mod_to_equations; lia.
Qed.

(** ** Images too short to hold a format string *)

Lemma length_string_of_list_byte (bs : list byte) :
  String.length (string_of_list_byte bs) = length bs.
Proof.
  induction bs as [|b bs IH]; [reflexivity|].
  change (S (String.length (string_of_list_byte bs)) = S (length bs)).
  rewrite IH. reflexivity.
Qed.

(** X12: an image of fewer than 8 bytes never gets a format: whatever it
    holds, [check] raises [FormatError], since a format string cut short
    equals none of the five 4-character names. *)
Theorem X12_check_short_image (img : list byte) :
  (length img < 8)%nat ->
  exists msg, check img = Raise (FormatError msg).
Proof.
  intros Hlen. unfold check. rewrite slice_between by lia.
  change (Z.to_nat (8 - 4)) with 4%nat. change (Z.to_nat 4) with 4%nat.
  set (sig := take 4 (drop 4 img)).
  assert (Hsig : (length sig < 4)%nat)
    by (unfold sig; rewrite length_take, length_drop; lia).
  unfold decode_ascii. destruct (forallb _ sig); [|eauto].
  assert (Hne : forall name,
             String.length name = 4%nat ->
             (string_of_list_byte sig =? name)%string = false).
  { intros name Hname. apply String.eqb_neq. intros Heq.
    apply (f_equal String.length) in Heq.
    rewrite length_string_of_list_byte in Heq. lia. }
  rewrite (Hne "S550"), (Hne "S330"), (Hne "W-30"), (Hne "S-50"),
    (Hne "S-51") by reflexivity.
  rewrite String.eqb_refl. cbn [orb andb]. eauto.
Qed.

Lemma X12_check_short_image_witness :
  (length [x00; x00; x00; x00; x53; x35; x35] < 8)%nat /\
  check [x00; x00; x00; x00; x53; x35; x35]
  = Raise (FormatError "Format error: Invalid disk format 'S55'").
Proof.
  assert (Hlen : (length [x00; x00; x00; x00; x53; x35; x35] < 8)%nat)
    by (simpl; lia).
  split; [exact Hlen|].
  destruct (X12_check_short_image _ Hlen) as [msg Hmsg].
  rewrite Hmsg. vm_compute in Hmsg. injection Hmsg as <-. reflexivity.
Defined.

(** ** Counting samples, and the tones a patch links *)

Lemma get_wave_count_fold (tones : list ParamBlock) :
  forall total : Z,
  Forall (fun tone => is_Some (values tone !! "WAVE SEGMENT LENGTH"%string))
    tones ->
  fold_left
    (fun total tone =>
       let* total := total in
       let* len := Tone_length tone in
       Return (if eq_int len 0 then total else total + 1))
    tones (Return total)
  = Return (total + Z.of_nat (length (List.filter tone_nonempty tones))).
Proof.
  set (step := fun (total : raises Z) (tone : ParamBlock) =>
                 let* total := total in
                 let* len := Tone_length tone in
                 Return (if eq_int len 0 then total else total + 1)).
  induction tones as [|tone tones IH]; intros total Hall.
  - cbn. f_equal. lia.
  - inversion Hall as [|t ts [v Hv] Hrest]; subst t ts.
    change (fold_left step (tone :: tones) (Return total))
      with (fold_left step tones (step (Return total) tone)).
    assert (Hstep : step (Return total) tone
                    = Return (if eq_int v 0 then total else total + 1)).
    { unfold step, Tone_length, getitem. rewrite Hv. reflexivity. }
    rewrite Hstep, IH by exact Hrest.
    cbn [List.filter]. unfold tone_nonempty at 2. rewrite Hv.
    destruct (eq_int v 0); cbn [negb length]; f_equal; lia.
Qed.

Lemma get_wave_count_fold_raise (tones : list ParamBlock) (e : exception) :
  fold_left
    (fun total tone =>
       let* total := total in
       let* len := Tone_length tone in
       Return (if eq_int len 0 then total else total + 1))
    tones (Raise e)
  = Raise e.
Proof. induction tones as [|tone tones IH]; [reflexivity|apply IH]. Qed.

Lemma get_wave_count_fold_missing (tones : list ParamBlock) :
  forall total : Z,
  Exists (fun tone => values tone !! "WAVE SEGMENT LENGTH"%string = None)
    tones ->
  fold_left
    (fun total tone =>
       let* total := total in
       let* len := Tone_length tone in
       Return (if eq_int len 0 then total else total + 1))
    tones (Return total)
  = Raise (KeyError "WAVE SEGMENT LENGTH").
Proof.
  set (step := fun (total : raises Z) (tone : ParamBlock) =>
                 let* total := total in
                 let* len := Tone_length tone in
                 Return (if eq_int len 0 then total else total + 1)).
  induction tones as [|tone tones IH]; intros total Hex.
  - inversion Hex.
  - change (fold_left step (tone :: tones) (Return total))
      with (fold_left step tones (step (Return total) tone)).
    destruct (values tone !! "WAVE SEGMENT LENGTH"%string) as [v|] eqn:Hv.
    + assert (Hstep : step (Return total) tone
                      = Return (if eq_int v 0 then total else total + 1))
        by (unfold step, Tone_length, getitem; rewrite Hv; reflexivity).
      rewrite Hstep. apply IH.
      inversion Hex as [t ts H|t ts H]; subst; [congruence|exact H].
    + assert (Hstep : step (Return total) tone
                      = Raise (KeyError "WAVE SEGMENT LENGTH"))
        by (unfold step, Tone_length, getitem; rewrite Hv; reflexivity).
      rewrite Hstep. apply get_wave_count_fold_raise.
Qed.

(** X13: [get_wave_count] returns the number of tones whose WAVE SEGMENT
    LENGTH is not 0, a number between 0 and the number of tones, when every
    tone has that field; a tone without it makes the count raise the
    [KeyError] of [Tone.length]. *)
Theorem X13_get_wave_count (self : Disk) :
  (Forall (fun tone => is_Some (values tone !! "WAVE SEGMENT LENGTH"%string))
     (tones self) ->
   get_wave_count self
   = Return (Z.of_nat (length (List.filter tone_nonempty (tones self)))) /\
   (length (List.filter tone_nonempty (tones self)) <= length (tones self))%nat) /\
  (Exists (fun tone => values tone !! "WAVE SEGMENT LENGTH"%string = None)
     (tones self) ->
   get_wave_count self = Raise (KeyError "WAVE SEGMENT LENGTH")).
Proof.
  unfold get_wave_count. split.
  - intros Hall. rewrite get_wave_count_fold by exact Hall. split.
    + reflexivity.
    + apply List.filter_length_le.
  - apply get_wave_count_fold_missing.
Qed.

Lemma X13_get_wave_count_witness :
  let self :=
    {| patches := []; filename := "DEV/OUT"; format := S550; sys := [];
       os_ver := None; wave := [];
       function := ParamBlock_init (func_fmt S550) 68608;
       midi := ParamBlock_init (midi_fmt S550) 68832;
       tones := [example_tone x00 x00 x01 x05; example_tone x02 x03 x00 x00;
                 example_tone x01 x00 x02 x09] |} in
  Forall (fun tone => is_Some (values tone !! "WAVE SEGMENT LENGTH"%string))
    (tones self) /\
  get_wave_count self = Return 2.
Proof.
  intros self.
  assert (Hall : Forall (fun tone =>
                           is_Some (values tone !! "WAVE SEGMENT LENGTH"%string))
                   (tones self))
    by (repeat constructor; eexists; vm_compute; reflexivity).
  split; [exact Hall|].
  destruct (X13_get_wave_count self) as [Hcount _].
  destruct (Hcount Hall) as [-> _]. vm_compute. reflexivity.
Defined.

(** What a stored field that does not raise holds: the decoding of some
    bytes under its tag. *)
Lemma read_param_stored_decode (p : Param) (self self1 : DiskBytes)
    (values values1 : gmap string value) :
  read_param p self values = (self1, values1, Return tt) ->
  stored_tag (ptype p) = true ->
  exists bs v, decode_field (ptype p) bs = Some v /\
               values1 = <[pname p := v]> values.
Proof.
  destruct p as [name t size]. unfold read_param. cbn [ptype psize pname].
  destruct (DiskBytes_pop self size) as [bs self'].
  unfold decode_field, stored_tag, stored_tags. cbn [existsb].
  destruct (t =? "int")%string; [intros [= _ <-] _; eauto|].
  destruct (t =? "signed_int")%string; [intros [= _ <-] _; eauto|].
  destruct (t =? "multi")%string.
  { unfold struct_unpack_b. destruct (size <? 0); [discriminate|].
    destruct (_ =? size); [|discriminate]. intros [= _ <-] _. eauto. }
  destruct (t =? "ascii")%string.
  { unfold decode_ascii. destruct (forallb _ bs); [|discriminate].
    intros [= _ <-] _. eauto. }
  destruct (t =? "raw")%string; [intros [= _ <-] _; eauto|].
  discriminate.
Qed.

Lemma read_params_last_field (name : string) (fmt : list Param) :
  forall (self self' : DiskBytes) (values values' : gmap string value)
         (t : string),
  read_params fmt self values = (self', values', Return tt) ->
  last_tag fmt name = Some t ->
  exists bs v, decode_field t bs = Some v /\ values' !! name = Some v.
Proof.
  induction fmt as [|p fmt IH]; intros self self' values values' t Hread Htag.
  - discriminate.
  - cbn [read_params] in Hread.
    destruct (read_param p self values) as [[self1 values1] [[]|e]] eqn:Hp;
      [|discriminate].
    cbn [last_tag] in Htag.
    destruct (last_tag fmt name) as [t'|] eqn:Hlast.
    + injection Htag as ->. eapply IH; [exact Hread|reflexivity].
    + destruct (stored_tag (ptype p)) eqn:Hst; [|discriminate].
      destruct (String.eqb_spec (pname p) name) as [Hname|]; [|discriminate].
      injection Htag as <-.
      destruct (read_param_stored_decode _ _ _ _ _ Hp Hst)
        as (bs & v & Hv & ->).
      exists bs, v. split; [exact Hv|].
      destruct (read_params_keeps fmt self1 (<[pname p := v]> values))
        as (_ & Hkeep & _).
      rewrite Hread in Hkeep. cbn [fst snd] in Hkeep.
      rewrite Hkeep.
      * rewrite Hname. apply lookup_insert_eq.
      * clear -Hlast. induction fmt as [|q fmt IHf]; [apply not_elem_of_nil|].
        cbn [last_tag] in Hlast. cbn [stored_names].
        destruct (last_tag fmt name); [discriminate|].
        destruct (stored_tag (ptype q)); [|apply IHf; reflexivity].
        cbn [andb] in Hlast.
        destruct (String.eqb_spec (pname q) name); [discriminate|].
        apply not_elem_of_cons. split; [congruence|apply IHf; reflexivity].
Qed.

Lemma signed_char_range (b : byte) : -128 <= signed_char b <= 127.
Proof.
  unfold signed_char. pose proof (byte_val_range b).
  destruct (Z.ltb_spec (byte_val b) 128); lia.
Qed.

(** X14: [Patch.tone_list] of a patch whose two key tables are tuples is
    the set of the numbers that occur in either table: a number is in the
    set exactly when it is in `TONE TO KEY 1` or in `TONE TO KEY 2`.  A
    patch without `TONE TO KEY 1` raises [KeyError] for it. *)
Theorem X14_tone_list (self : ParamBlock) (key1 key2 : list Z) :
  (values self !! "TONE TO KEY 1"%string = Some (VTuple key1) ->
   values self !! "TONE TO KEY 2"%string = Some (VTuple key2) ->
   exists s : gset Z,
     Patch_tone_list self = Return (IntSet s) /\
     forall x, x ∈ s <-> x ∈ key1 \/ x ∈ key2) /\
  (values self !! "TONE TO KEY 1"%string = None ->
   Patch_tone_list self = Raise (KeyError "TONE TO KEY 1")).
Proof.
  unfold Patch_tone_list, getitem. split.
  - intros -> ->. cbn. eexists. split; [reflexivity|].
    intros x. rewrite elem_of_list_to_set, elem_of_app. reflexivity.
  - intros ->. reflexivity.
Qed.

Lemma X14_tone_list_witness :
  let self := {| values := <["TONE TO KEY 1" := VTuple [0; 1; 1]]>
                             (<["TONE TO KEY 2" := VTuple [1; 5]]> ∅);
                 block_fmt := []; addr := 0; number := None |} in
  (values self !! "TONE TO KEY 1"%string = Some (VTuple [0; 1; 1]) /\
   values self !! "TONE TO KEY 2"%string = Some (VTuple [1; 5])) /\
  Patch_tone_list self = Return (IntSet {[0; 1; 5]}).
Proof.
  intros self.
  assert (H1 : values self !! "TONE TO KEY 1"%string = Some (VTuple [0; 1; 1]))
    by (vm_compute; reflexivity).
  assert (H2 : values self !! "TONE TO KEY 2"%string = Some (VTuple [1; 5]))
    by (vm_compute; reflexivity).
  split; [split; assumption|].
  destruct (X14_tone_list self [0; 1; 1] [1; 5]) as [Hset _].
  destruct (Hset H1 H2) as (s & -> & Hs).
  do 2 f_equal. apply set_eq. intros x. rewrite Hs.
  rewrite !elem_of_union, !elem_of_singleton, !elem_of_cons, !elem_of_nil.
  tauto.
Defined.

(** X15: for a patch read with the patch layout of either format,
    [Patch.tone_list] returns a set of ints, and every number in it is a
    signed byte, between -128 and 127: the key tables are unpacked as
    signed chars, so a table byte of 0x80 or more is a negative tone
    number. *)
Theorem X15_decoded_patch_tone_list (f : Format) (offset : Z)
    (img : list byte) (i s : Z) (patch : ParamBlock) :
  f = S550 \/ f = S50 ->
  Patch_read (ParamBlock_init (patch_fmt f) offset) img i s
  = (patch, Return tt) ->
  exists tones : gset Z,
    Patch_tone_list patch = Return (IntSet tones) /\
    forall x, x ∈ tones -> -128 <= x <= 127.
Proof.
  intros Hf. unfold Patch_read, ParamBlock_read.
  cbn [ParamBlock_init values block_fmt addr number].
  destruct (read_params _ _ _) as [[b values'] r] eqn:Hread.
  intros [= <- ->].
  assert (Hmulti : forall name,
             last_tag (patch_fmt f) name = Some "multi"%string ->
             exists bs, values' !! name = Some (VTuple (map signed_char bs))).
  { intros name Hname.
    destruct (read_params_last_field name _ _ _ _ _ _ Hread Hname)
      as (bs & v & Hv & Hlook).
    exists bs. rewrite Hlook. cbn in Hv. congruence. }
  destruct (Hmulti "TONE TO KEY 1"%string) as [bs1 H1];
    [destruct Hf as [-> | ->]; reflexivity|].
  destruct (Hmulti "TONE TO KEY 2"%string) as [bs2 H2];
    [destruct Hf as [-> | ->]; reflexivity|].
  unfold Patch_tone_list, getitem. cbn [values]. rewrite H1, H2. cbn.
  eexists. split; [reflexivity|].
  intros x Hx. rewrite elem_of_list_to_set, <- map_app in Hx.
  apply list_elem_of_fmap in Hx as (b' & -> & _). apply signed_char_range.
Qed.

Lemma X15_decoded_patch_tone_list_witness :
  let img := replicate 17 x00 ++ [xff] ++ replicate 238 x00 in
  (S550 = S550 \/ S550 = S50) /\
  (Patch_read (ParamBlock_init (patch_fmt S550) 0) img 0 256).2 = Return tt /\
  Patch_tone_list (Patch_read (ParamBlock_init (patch_fmt S550) 0) img 0 256).1
  = Return (IntSet {[0; -1]}).
Proof.
  intros img.
  assert (Hf : S550 = S550 \/ S550 = S50) by (left; reflexivity).
  destruct (Patch_read (ParamBlock_init (patch_fmt S550) 0) img 0 256)
    as [patch r] eqn:E.
  assert (Hr : r = Return tt) by (vm_compute in E; congruence).
  subst r. split; [exact Hf|]. split; [reflexivity|].
  destruct (X15_decoded_patch_tone_list S550 0 img 0 256 patch Hf E)
    as (tones & Htones & _).
  cbn [fst]. rewrite Htones.
  assert (Hp : Patch_tone_list patch = Return (IntSet {[0; -1]})).
  { replace patch with (Patch_read (ParamBlock_init (patch_fmt S550) 0)
                          img 0 256).1 by (rewrite E; reflexivity).
    vm_compute. reflexivity. }
  congruence.
Defined.

(** ** Where the waves of the two banks lie *)

(** X16: a tone with a segment top and a segment count that fit the 18
    segments of a bank has a wave range of 18432 bytes per segment that
    lies inside its bank: inside the first 331776 bytes for any bank other
    than 1, and inside the 331776 bytes after them for bank 1, so ranges
    in different banks never overlap and none passes the 663552 bytes of
    wave data. *)
Theorem X16_wave_range_in_bank (self : Disk) (num : Z) (tone : ParamBlock)
    (bank seg len : Z) (loop_end : value) :
  index (tones self) num = Return tone ->
  tone_fields tone (VInt bank) seg len loop_end ->
  0 <= seg -> 0 <= len -> seg + len <= 18 ->
  exists start stop,
    get_wave_start self num = Return start /\
    get_wave_end self num = Return stop /\
    stop - start = 18432 * len /\
    (bank = 1 -> 331776 <= start /\ stop <= 663552) /\
    (bank <> 1 -> 0 <= start /\ stop <= 331776).
Proof.
  intros Htone Hfields Hseg Hlen Hfit.
  exists (wave_start (VInt bank) seg),
    (wave_start (VInt bank) seg + SEGMENT_SIZE * len).
  split; [exact (get_wave_start_eq _ _ _ _ _ _ _ Htone Hfields)|].
  split; [exact (get_wave_end_eq _ _ _ _ _ _ _ Htone Hfields)|].
  unfold wave_start, SEGMENT_SIZE, BANK_SIZE, eq_int.
  split; [lia|]. split.
  - intros ->. cbn. lia.
  - intros Hbank. destruct (Z.eqb_spec bank 1); [contradiction|lia].
Qed.

Lemma X16_wave_range_in_bank_witness :
  let tone := example_tone x01 x03 x02 x05 in
  let self := example_disk tone [] in
  (index (tones self) 0 = Return tone /\
   tone_fields tone (VInt 1) 3 2 (VInt 5) /\
   0 <= 3 /\ 0 <= 2 /\ 3 + 2 <= 18) /\
  get_wave_start self 0 = Return 387072 /\
  get_wave_end self 0 = Return 423936.
Proof.
  intros tone self.
  assert (Htone : index (tones self) 0 = Return tone) by reflexivity.
  assert (Hfields : tone_fields tone (VInt 1) 3 2 (VInt 5))
    by tone_fields_by_evaluation.
  assert (Hseg : 0 <= 3) by lia. assert (Hlen : 0 <= 2) by lia.
  assert (Hfit : 3 + 2 <= 18) by lia.
  split; [tauto|].
  destruct (X16_wave_range_in_bank self 0 tone 1 3 2 (VInt 5) Htone Hfields
              Hseg Hlen Hfit) as (start & stop & Hs & He & _).
  rewrite Hs, He. vm_compute in Hs, He. split; congruence.
Defined.

(** ** Text: [str] and [int] *)

Lemma lstrip_no_space (s : string) :
  all_chars (fun c => negb (isspace c)) s = true -> lstrip s = s.
Proof.
  destruct s as [|c s]; [reflexivity|]. cbn [all_chars lstrip].
  intros H. apply andb_true_iff in H as [Hc _].
  destruct (isspace c); [discriminate|reflexivity].
Qed.

Lemma rstrip_no_space (s : string) :
  all_chars (fun c => negb (isspace c)) s = true -> rstrip s = s.
Proof.
  induction s as [|c s IH]; [reflexivity|]. cbn [all_chars rstrip].
  intros H. apply andb_true_iff in H as [Hc Hs]. rewrite IH by exact Hs.
  destruct (isspace c); [discriminate|]. rewrite andb_false_r. reflexivity.
Qed.

Lemma strip_no_space (s : string) :
  all_chars (fun c => negb (isspace c)) s = true -> strip s = s.
Proof.
  intros H. unfold strip. rewrite lstrip_no_space by exact H.
  apply rstrip_no_space, H.
Qed.

Lemma uint_digits (d : Decimal.uint) :
  all_chars is_digit (NilEmpty.string_of_uint d) = true.
Proof. induction d; cbn [NilEmpty.string_of_uint all_chars]; auto. Qed.

Lemma all_chars_impl (p q : ascii -> bool) (s : string) :
  (forall c, p c = true -> q c = true) ->
  all_chars p s = true -> all_chars q s = true.
Proof.
  intros Hpq. induction s as [|c s IH]; [reflexivity|]. cbn [all_chars].
  intros H. apply andb_true_iff in H as [Hc Hs].
  rewrite (Hpq _ Hc), IH by exact Hs. reflexivity.
Qed.

Lemma digit_not_space (c : ascii) :
  is_digit c = true -> negb (isspace c) = true.
Proof.
  unfold is_digit, isspace. intros H.
  apply andb_true_iff in H as [H1 H2].
  apply Nat.leb_le in H1, H2.
  destruct (Nat.leb_spec 9 (nat_of_ascii c)), (Nat.leb_spec (nat_of_ascii c) 13),
    (Nat.leb_spec 28 (nat_of_ascii c)), (Nat.leb_spec (nat_of_ascii c) 32);
    cbn; try reflexivity; lia.
Qed.

Lemma literal_digits_uint (d : Decimal.uint) (after_digit : bool) :
  d <> Decimal.Nil \/ after_digit = true ->
  literal_digits after_digit (NilEmpty.string_of_uint d)
  = Some (NilEmpty.string_of_uint d).
Proof.
  revert after_digit.
  induction d as [|d IH|d IH|d IH|d IH|d IH|d IH|d IH|d IH|d IH|d IH];
    intros after_digit Hd;
    [destruct Hd as [Hd | ->]; [contradiction|reflexivity]|..];
    cbn [NilEmpty.string_of_uint literal_digits];
    (change (is_digit _) with true; cbn match;
     rewrite IH by (right; reflexivity); reflexivity).
Qed.

Lemma unsigned_literal_uint (d : Decimal.uint) :
  d <> Decimal.Nil ->
  unsigned_literal (NilEmpty.string_of_uint d) = Done (Z.of_uint d).
Proof.
  intros Hd. unfold unsigned_literal.
  rewrite literal_digits_uint by (left; exact Hd).
  rewrite NilEmpty.usu. reflexivity.
Qed.

Lemma uint_first_digit (d : Decimal.uint) :
  d <> Decimal.Nil ->
  exists c s, NilEmpty.string_of_uint d = String c s /\ is_digit c = true.
Proof.
  destruct d; [contradiction|..]; intros _;
    cbn [NilEmpty.string_of_uint]; eexists _, _; split; reflexivity.
Qed.

(** What [str] prints: the digits of the absolute value, after a minus
    sign for a negative number. *)
Lemma str_digits (z : Z) :
  exists d, d <> Decimal.Nil /\ Z.of_uint d = Z.abs z /\
    str z = (if z <? 0 then String "-" (NilEmpty.string_of_uint d)
             else NilEmpty.string_of_uint d).
Proof.
  unfold str. destruct z as [|p|p]; cbn [Z.to_int Z.ltb Z.compare Z.abs].
  - exists (Decimal.D0 Decimal.Nil). repeat split. discriminate.
  - exists (Pos.to_uint p). split; [apply Unsigned.to_uint_nonnil|].
    split; [unfold Z.of_uint; rewrite Unsigned.of_to; reflexivity|].
    cbn [NilZero.string_of_int]. unfold NilZero.string_of_uint.
    destruct (Pos.to_uint p) eqn:E; try reflexivity.
    destruct (Unsigned.to_uint_nonnil p E).
  - exists (Pos.to_uint p). split; [apply Unsigned.to_uint_nonnil|].
    split; [unfold Z.of_uint; rewrite Unsigned.of_to; reflexivity|].
    cbn [NilZero.string_of_int]. unfold NilZero.string_of_uint.
    destruct (Pos.to_uint p) eqn:E; try reflexivity.
    destruct (Unsigned.to_uint_nonnil p E).
Qed.

Lemma str_no_space (z : Z) :
  all_chars (fun c => negb (isspace c)) (str z) = true.
Proof.
  destruct (str_digits z) as (d & _ & _ & ->).
  assert (H : all_chars (fun c => negb (isspace c)) (NilEmpty.string_of_uint d)
              = true)
    by (apply (all_chars_impl is_digit); [apply digit_not_space|apply uint_digits]).
  destruct (z <? 0); [cbn [all_chars]; rewrite H; reflexivity|exact H].
Qed.

Lemma str_nonempty (z : Z) : str z <> EmptyString.
Proof.
  destruct (str_digits z) as (d & Hd & _ & ->).
  destruct (z <? 0); [discriminate|].
  destruct (uint_first_digit d Hd) as (c & s & -> & _). discriminate.
Qed.

(** [int(str(z))] is [z]. *)
Lemma int_str (z : Z) : int (str z) = Done z.
Proof.
  unfold int. rewrite strip_no_space by apply str_no_space.
  destruct (str_digits z) as (d & Hd & Habs & ->).
  destruct (Z.ltb_spec z 0) as [Hneg|Hpos].
  - change (String "-" (NilEmpty.string_of_uint d))
      with (String "-"%char (NilEmpty.string_of_uint d)).
    cbn match. rewrite unsigned_literal_uint by exact Hd.
    cbn [check_bind]. f_equal. lia.
  - destruct (uint_first_digit d Hd) as (c & s & Hs & Hc).
    replace z with (Z.of_uint d) by lia.
    rewrite <- (unsigned_literal_uint d Hd), Hs.
    destruct c as [[|] [|] [|] [|] [|] [|] [|] [|]];
      try discriminate Hc; reflexivity.
Qed.

Lemma str_inj (x y : Z) : str x = str y -> x = y.
Proof.
  intros H. apply (f_equal int) in H. rewrite !int_str in H. congruence.
Qed.

(** ** formatting.py: note names *)

Lemma append_cons (c : ascii) (s t : string) :
  (String c s +:+ t)%string = String c (s +:+ t).
Proof. reflexivity. Qed.

Lemma append_nil (t : string) : (EmptyString +:+ t)%string = t.
Proof. reflexivity. Qed.

Lemma append_empty_r (s : string) : (s +:+ "")%string = s.
Proof.
  induction s as [|c s IH]; [reflexivity|]. rewrite append_cons, IH. reflexivity.
Qed.

Lemma append_assoc (a b c : string) :
  ((a +:+ b) +:+ c)%string = (a +:+ (b +:+ c))%string.
Proof.
  induction a as [|x a IH]; [reflexivity|]. rewrite !append_cons, IH. reflexivity.
Qed.

Lemma append_is_empty (a b : string) :
  ((a +:+ b) =? "")%string = ((a =? "")%string && (b =? "")%string).
Proof. destruct a, b; reflexivity. Qed.

Lemma split_from_no_space (s cur : string) :
  all_chars (fun c => negb (isspace c)) s = true ->
  split_from cur s
  = if ((cur +:+ s) =? "")%string then [] else [(cur +:+ s)%string].
Proof.
  revert cur. induction s as [|c s IH]; intros cur H.
  - cbn [split_from]. rewrite append_empty_r. reflexivity.
  - cbn [all_chars] in H. apply andb_true_iff in H as [Hc Hs].
    cbn [split_from]. destruct (isspace c); [discriminate|].
    rewrite IH by exact Hs. rewrite append_assoc. reflexivity.
Qed.

Lemma split_from_space (a b cur : string) :
  all_chars (fun c => negb (isspace c)) a = true ->
  split_from cur (a +:+ String " " b)
  = if ((cur +:+ a) =? "")%string then split_from "" b
    else (cur +:+ a)%string :: split_from "" b.
Proof.
  revert cur. induction a as [|c a IH]; intros cur H.
  - rewrite append_nil. cbn [split_from]. change (isspace " ") with true.
    cbn match. rewrite append_empty_r. reflexivity.
  - cbn [all_chars] in H. apply andb_true_iff in H as [Hc Hs].
    rewrite append_cons. cbn [split_from].
    destruct (isspace c); [discriminate|].
    rewrite IH by exact Hs. rewrite append_assoc. reflexivity.
Qed.

(** [(a + ' ' + b).split()] is [[a, b]] for two words. *)
Lemma split_two_words (a b : string) :
  all_chars (fun c => negb (isspace c)) a = true ->
  all_chars (fun c => negb (isspace c)) b = true ->
  a <> EmptyString -> b <> EmptyString ->
  split (a +:+ " " +:+ b) = [a; b].
Proof.
  intros Ha Hb Hane Hbne. unfold split.
  change (a +:+ " " +:+ b)%string with (a +:+ String " " b)%string.
  rewrite split_from_space by exact Ha.
  rewrite split_from_no_space by exact Hb.
  destruct a; [contradiction|]. destruct b; [contradiction|].
  reflexivity.
Qed.

Lemma scale_degree (n : Z) :
  exists name,
    index scale (n mod 12) = Return name /\
    list_index scale name = Done (n mod 12) /\
    all_chars (fun c => negb (isspace c)) name = true /\
    name <> EmptyString.
Proof.
  assert (H : 0 <= n mod 12 < 12) by (apply Z.mod_pos_bound; lia).
  assert (Hk : exists k, (k < 12)%nat /\ n mod 12 = Z.of_nat k)
    by (exists (Z.to_nat (n mod 12)); lia).
  destruct Hk as (k & Hk & ->).
  do 12 (destruct k as [|k];
         [eexists; repeat split; try reflexivity; discriminate|]).
  lia.
Qed.

Lemma note_round_trip (n : Z) :
  exists s, int_to_note n = Return s /\ note_to_int s = Done n.
Proof.
  destruct (scale_degree n) as (name & Hindex & Hlist & Hsp & Hne).
  exists (name +:+ " " +:+ str (n / 12 - 1))%string. split.
  - unfold int_to_note. rewrite Hindex. reflexivity.
  - unfold note_to_int.
    rewrite split_two_words
      by first [exact Hsp | exact Hne | apply str_no_space | apply str_nonempty].
    rewrite int_str. cbn [check_bind]. rewrite Hlist. cbn [check_bind].
    f_equal. Z.div_mod_to_equations. lia.
Qed.

(** X17. int_to_note returns for every int, negative ones included
    (Python's modulo gives a degree of 0 to 11), and note_to_int reads the
    string back as the same number. *)
Theorem X17_note_round_trip (n : Z) :
  exists s, int_to_note n = Return s /\ note_to_int s = Done n.
Proof. apply note_round_trip. Qed.

(** ** formatting.py: Roland numbers *)

Lemma all_chars_app (test : ascii -> bool) (a b : string) :
  all_chars test (a +:+ b) = all_chars test a && all_chars test b.
Proof.
  induction a as [|c a IH]; [reflexivity|].
  rewrite append_cons. cbn [all_chars]. rewrite IH, andb_assoc. reflexivity.
Qed.

Lemma digit_char_is_digit (d : Z) :
  0 <= d < 10 -> is_digit (digit_char d) = true.
Proof.
  intros H. assert (Hk : exists k, (k < 10)%nat /\ d = Z.of_nat k)
    by (exists (Z.to_nat d); lia).
  destruct Hk as (k & Hk & ->).
  do 10 (destruct k as [|k]; [reflexivity|]). lia.
Qed.

Lemma oct_digits_digits (fuel : nat) (n : Z) :
  0 <= n -> all_chars is_digit (oct_digits fuel n) = true.
Proof.
  revert n. induction fuel as [|fuel IH]; intros n Hn; [reflexivity|].
  cbn [oct_digits]. destruct (Z.ltb_spec n 8).
  - cbn [all_chars]. rewrite digit_char_is_digit by lia. reflexivity.
  - rewrite all_chars_app, IH by (apply Z.div_pos; lia). cbn [all_chars].
    rewrite digit_char_is_digit; [reflexivity|].
    pose proof (Z.mod_pos_bound n 8). lia.
Qed.

Lemma oct_digits_nonempty (fuel : nat) (n : Z) :
  oct_digits (S fuel) n <> EmptyString.
Proof.
  cbn [oct_digits]. destruct (n <? 8); [discriminate|].
  destruct (oct_digits fuel (n / 8)); discriminate.
Qed.

Lemma literal_digits_all (s : string) (after_digit : bool) :
  all_chars is_digit s = true ->
  s <> EmptyString \/ after_digit = true ->
  literal_digits after_digit s = Some s.
Proof.
  revert after_digit. induction s as [|c s IH]; intros after_digit Hs Hne.
  - destruct Hne as [Hne | ->]; [contradiction|reflexivity].
  - cbn [all_chars] in Hs. apply andb_true_iff in Hs as [Hc Hs].
    cbn [literal_digits]. rewrite Hc, IH by (auto). reflexivity.
Qed.

Lemma uint_of_string_digits (s : string) :
  all_chars is_digit s = true ->
  exists d, NilEmpty.uint_of_string s = Some d.
Proof.
  induction s as [|c s IH]; intros Hs; [eexists; reflexivity|].
  cbn [all_chars] in Hs. apply andb_true_iff in Hs as [Hc Hs].
  destruct (IH Hs) as (d & Hd). cbn [NilEmpty.uint_of_string]. rewrite Hd.
  destruct c as [[|] [|] [|] [|] [|] [|] [|] [|]];
    try discriminate Hc; eexists; reflexivity.
Qed.

(** [int] of a non-empty string of digits returns. *)
Lemma int_digits (s : string) :
  all_chars is_digit s = true -> s <> EmptyString ->
  exists v, int s = Done v.
Proof.
  intros Hs Hne. unfold int.
  rewrite strip_no_space
    by (apply (all_chars_impl is_digit); [apply digit_not_space|exact Hs]).
  assert (Hu : exists v, unsigned_literal s = Done v).
  { unfold unsigned_literal. rewrite literal_digits_all by auto.
    destruct (uint_of_string_digits s Hs) as (d & ->). eexists; reflexivity. }
  destruct s as [|c s]; [contradiction|].
  cbn [all_chars] in Hs. apply andb_true_iff in Hs as [Hc _].
  destruct c as [[|] [|] [|] [|] [|] [|] [|] [|]];
    try discriminate Hc; exact Hu.
Qed.

Lemma str_from_2 (a b : ascii) (s : string) :
  str_from (String a (String b s)) 2 = s.
Proof.
  unfold str_from. rewrite slice_from by lia.
  change (Z.to_nat 2) with 2%nat. cbn [list_ascii_of_string drop].
  apply string_of_list_ascii_of_string.
Qed.

Lemma roland_number_returns (num : Z) :
  0 <= num -> exists s, roland_number num = Done s.
Proof.
  intros Hnum. unfold roland_number, oct.
  destruct (Z.ltb_spec num 0); [lia|].
  change ("0o" +:+ ?d)%string with (String "0" (String "o" d)).
  rewrite str_from_2.
  destruct (int_digits (oct_digits (S (Z.to_nat (Z.log2 (Z.abs num)))) (Z.abs num)))
    as (v & ->).
  - apply oct_digits_digits. lia.
  - apply oct_digits_nonempty.
  - eexists; reflexivity.
Qed.

Lemma roland_number_negative (num : Z) :
  num < 0 -> roland_number num = ValueError.
Proof.
  intros Hnum. unfold roland_number, oct.
  destruct (Z.ltb_spec num 0); [|lia].
  change ("-0o" +:+ ?d)%string with (String "-" (String "0" (String "o" d))).
  rewrite str_from_2.
  set (digits := oct_digits _ _).
  assert (Hd : all_chars (fun c => negb (isspace c)) digits = true).
  { apply (all_chars_impl is_digit); [apply digit_not_space|].
    apply oct_digits_digits. lia. }
  unfold int.
  rewrite strip_no_space by (cbn [all_chars]; rewrite Hd; reflexivity).
  reflexivity.
Qed.

Lemma roland_number_table :
  forallb
    (fun num =>
       match roland_number num with
       | Done s => (s =? "I" +:+ str (octal_as_decimal num + 11))%string
       | ValueError => false
       end)
    (seqZ 0 64) = true.
Proof. vm_compute. reflexivity. Qed.

Lemma roland_number_octal (num : Z) :
  0 <= num < 64 ->
  roland_number num = Done ("I" +:+ str (octal_as_decimal num + 11)).
Proof.
  intros Hnum. pose proof roland_number_table as H.
  rewrite forallb_forall in H. specialize (H num).
  destruct (roland_number num) as [s|].
  - f_equal. apply String.eqb_eq, H. apply list_elem_of_In, elem_of_seqZ. lia.
  - discriminate H. apply list_elem_of_In, elem_of_seqZ. lia.
Qed.

Lemma roland_number_inj (a b : Z) :
  0 <= a < 64 -> 0 <= b < 64 ->
  roland_number a = roland_number b -> a = b.
Proof.
  intros Ha Hb. rewrite !roland_number_octal by assumption.
  intros H. injection H as H. apply str_inj in H.
  unfold octal_as_decimal in H. Z.div_mod_to_equations. lia.
Qed.

(** X18. roland_number fails exactly on negative numbers: oct() then puts
    the o of the prefix behind the two characters cut off, and int()
    raises ValueError. *)
Theorem X18_roland_number_fails_iff_negative (num : Z) :
  roland_number num = ValueError <-> num < 0.
Proof.
  split.
  - intros H. destruct (Z.lt_ge_cases num 0) as [Hneg|Hpos]; [exact Hneg|].
    destruct (roland_number_returns num Hpos) as (s & Hs). congruence.
  - apply roland_number_negative.
Qed.

(** X19. For 0 to 63 the Roland number is I followed by the two octal
    digits read as a decimal number plus 11 (0 gives I11, 7 gives I18,
    8 gives I21, 31 gives I48), and different numbers get different
    strings. *)
Theorem X19_roland_number_octal (num other : Z) :
  0 <= num < 64 -> 0 <= other < 64 ->
  roland_number num = Done ("I" +:+ str (10 * (num / 8) + num mod 8 + 11)) /\
  (roland_number num = roland_number other -> num = other).
Proof.
  intros Hnum Hother. split.
  - apply roland_number_octal, Hnum.
  - apply roland_number_inj; assumption.
Qed.

Lemma X19_roland_number_octal_witness :
  (0 <= 31 < 64) /\ (0 <= 8 < 64) /\
  roland_number 31 = Done "I48"%string /\
  (roland_number 31 = roland_number 8 -> 31 = 8).
Proof.
  assert (H1 : 0 <= 31 < 64) by lia.
  assert (H2 : 0 <= 8 < 64) by lia.
  destruct (X19_roland_number_octal 31 8 H1 H2) as [Hf Hinj].
  split; [exact H1|]. split; [exact H2|]. split; [exact Hf|exact Hinj].
Defined.

(** ** tone_filename *)

Lemma delete_chars_clean (chars : list ascii) (s : string) :
  all_chars (fun c => negb (existsb (Ascii.eqb c) chars)) (delete_chars chars s)
  = true.
Proof.
  induction s as [|c s IH]; [reflexivity|]. cbn [delete_chars].
  destruct (existsb (Ascii.eqb c) chars) eqn:E; [exact IH|].
  cbn [all_chars]. rewrite E, IH. reflexivity.
Qed.

Lemma delete_chars_length (chars : list ascii) (s : string) :
  (String.length (delete_chars chars s) <= String.length s)%nat.
Proof.
  induction s as [|c s IH]; [reflexivity|]. cbn [delete_chars].
  destruct (existsb (Ascii.eqb c) chars); cbn [String.length]; lia.
Qed.

Lemma replace_char_length (old new : ascii) (s : string) :
  String.length (replace_char old new s) = String.length s.
Proof.
  induction s as [|c s IH]; [reflexivity|].
  cbn [replace_char String.length]. rewrite IH. reflexivity.
Qed.

Lemma rstrip_length (s : string) :
  (String.length (rstrip s) <= String.length s)%nat.
Proof.
  induction s as [|c s IH]; [reflexivity|]. cbn [rstrip].
  destruct ((rstrip s =? "")%string && isspace c); cbn [String.length]; lia.
Qed.

Lemma replace_space_clean (s : string) :
  all_chars (fun c => negb (existsb (Ascii.eqb c) prohibited)) s = true ->
  all_chars filename_char (replace_char " " "_" s) = true.
Proof.
  induction s as [|c s IH]; [reflexivity|]. cbn [all_chars replace_char].
  intros H. apply andb_true_iff in H as [Hc Hs]. rewrite IH by exact Hs.
  rewrite andb_true_r. destruct (Ascii.eqb_spec c " ") as [->|Hne].
  - reflexivity.
  - unfold filename_char. rewrite Hc.
    destruct (Ascii.eqb_spec c " "); [contradiction|reflexivity].
Qed.

Lemma tone_filename_clean (num : Z) (name : string) :
  0 <= num < 64 ->
  exists clean,
    tone_filename num name
    = Done ("I" +:+ str (octal_as_decimal num + 11) +:+ "_" +:+ clean +:+ "/wav") /\
    all_chars filename_char clean = true /\
    (String.length clean <= String.length name)%nat.
Proof.
  intros Hnum.
  exists (replace_char " " "_" (delete_chars prohibited (rstrip name))).
  split; [|split].
  - unfold tone_filename. rewrite roland_number_octal by exact Hnum.
    cbn [check_bind]. rewrite !append_assoc. reflexivity.
  - apply replace_space_clean, delete_chars_clean.
  - rewrite replace_char_length.
    pose proof (delete_chars_length prohibited (rstrip name)).
    pose proof (rstrip_length name). lia.
Qed.

Lemma roland_number_two_digits_table :
  forallb
    (fun num =>
       match str (octal_as_decimal num + 11) with
       | String _ (String _ EmptyString) => true
       | _ => false
       end)
    (seqZ 0 64) = true.
Proof. vm_compute. reflexivity. Qed.

Lemma roland_number_two_digits (num : Z) :
  0 <= num < 64 ->
  exists c1 c2,
    str (octal_as_decimal num + 11) = String c1 (String c2 EmptyString).
Proof.
  intros Hnum. pose proof roland_number_two_digits_table as H.
  rewrite forallb_forall in H. specialize (H num).
  destruct (str (octal_as_decimal num + 11)) as [|c1 [|c2 [|c3 s]]];
    try (discriminate H; apply list_elem_of_In, elem_of_seqZ; lia).
  eexists _, _; reflexivity.
Qed.

Lemma tone_filename_inj (num other : Z) (name name' : string) :
  0 <= num < 64 -> 0 <= other < 64 ->
  tone_filename num name = tone_filename other name' -> num = other.
Proof.
  intros Hnum Hother.
  destruct (tone_filename_clean num name Hnum) as (clean & -> & _).
  destruct (tone_filename_clean other name' Hother) as (clean' & -> & _).
  destruct (roland_number_two_digits num Hnum) as (c1 & c2 & E).
  destruct (roland_number_two_digits other Hother) as (d1 & d2 & E').
  intros H. injection H as H.
  assert (Hstr : str (octal_as_decimal num + 11)
                 = str (octal_as_decimal other + 11)).
  { rewrite E, E' in H |- *. rewrite !append_cons, !append_nil in H.
    injection H as -> -> _. reflexivity. }
  apply str_inj in Hstr. unfold octal_as_decimal in Hstr.
  Z.div_mod_to_equations. lia.
Qed.



(** X21. Two tones with different numbers (0 to 63) never get the same
    file name, whatever their names are: the two digits after the I tell
    them apart. *)
Theorem X21_tone_filename_distinct (num other : Z) (name name' : string) :
  0 <= num < 64 -> 0 <= other < 64 ->
  tone_filename num name = tone_filename other name' -> num = other.
Proof. apply tone_filename_inj. Qed.

Lemma X21_tone_filename_distinct_witness :
  (0 <= 5 < 64) /\ (0 <= 5 < 64) /\
  tone_filename 5 "PIANO   " = tone_filename 5 "PIANO" /\ 5 = 5.
Proof.
  assert (H : 0 <= 5 < 64) by lia.
  assert (E : tone_filename 5 "PIANO   " = tone_filename 5 "PIANO")
    by (vm_compute; reflexivity).
  split; [exact H|]. split; [exact H|]. split; [exact E|].
  exact (X21_tone_filename_distinct 5 5 "PIANO   " "PIANO" H H E).
Defined.

(** ** envelope_unpack *)

Lemma envelope_unpack_pairs (vals : list Z) :
  (if Nat.even (length vals)
   then exists rates levels,
     envelope_unpack vals = Return (rates, levels) /\
     length rates = Nat.div2 (length vals) /\
     length levels = Nat.div2 (length vals) /\
     interleave levels rates = map str vals
   else envelope_unpack vals = Raise IndexError).
Proof.
  enough (H : forall vals : list Z,
    (fun vals => if Nat.even (length vals)
       then exists rates levels,
         envelope_unpack vals = Return (rates, levels) /\
         length rates = Nat.div2 (length vals) /\
         length levels = Nat.div2 (length vals) /\
         interleave levels rates = map str vals
       else envelope_unpack vals = Raise IndexError) vals /\
    forall x,
    (fun vals => if Nat.even (length vals)
       then exists rates levels,
         envelope_unpack vals = Return (rates, levels) /\
         length rates = Nat.div2 (length vals) /\
         length levels = Nat.div2 (length vals) /\
         interleave levels rates = map str vals
       else envelope_unpack vals = Raise IndexError) (x :: vals))
    by apply H.
  clear vals. induction vals as [|a vals [IH0 IH1]].
  - split; [|intros x; reflexivity].
    exists [], []. repeat split.
  - split; [apply IH1|]. intros x. cbn beta in IH0 |- *.
    change (length (x :: a :: vals)) with (S (S (length vals))).
    change (Nat.even (S (S (length vals)))) with (Nat.even (length vals)).
    change (envelope_unpack (x :: a :: vals))
      with (match envelope_unpack vals with
            | Return (rates, levels) =>
                Return (str a :: rates, str x :: levels)
            | Raise e => Raise e
            end).
    destruct (Nat.even (length vals)).
    + destruct IH0 as (rates & levels & -> & Hr & Hl & Hi).
      exists (str a :: rates), (str x :: levels).
      split; [reflexivity|]. cbn [length Nat.div2 interleave map].
      rewrite Hr, Hl, Hi. repeat split.
    + rewrite IH0. reflexivity.
Qed.

(** X22. envelope_unpack on an even number of values level1, rate1,
    level2, rate2, ... returns the rates and the levels, half as many
    each, as strings in their order (interleaving them again gives the
    values' strings); on an odd number of values it raises IndexError. *)
Theorem X22_envelope_unpack (vals : list Z) :
  (if Nat.even (length vals)
   then exists rates levels,
     envelope_unpack vals = Return (rates, levels) /\
     length rates = Nat.div2 (length vals) /\
     length levels = Nat.div2 (length vals) /\
     interleave levels rates = map str vals
   else envelope_unpack vals = Raise IndexError).
Proof. apply envelope_unpack_pairs. Qed.

(** ** readable_disk_label *)

Lemma label_rows (raw : list byte) :
  length raw = 60%nat ->
  zip_star (chunks_of_4 12 (drop 12 raw)) = map (label_row raw) (seq 0 4).
Proof.
  intros H.
  do 60 (destruct raw as [|? raw]; [discriminate H|];
         cbn [length] in H; apply Nat.succ_inj in H).
  destruct raw; [|discriminate H].
  vm_compute. reflexivity.
Qed.

Lemma label_row_ascii (raw : list byte) (r : nat) :
  Forall (fun b => byte_val b < 128) raw ->
  Forall (fun b => byte_val b < 128) (label_row raw r).
Proof.
  intros H. rewrite Forall_forall in H |- *. intros b Hb.
  unfold label_row in Hb. apply list_elem_of_omap in Hb as (c & _ & Hc).
  apply H. eapply list_elem_of_lookup_2, Hc.
Qed.

Lemma list_ascii_of_string_app (a b : string) :
  list_ascii_of_string (a +:+ b)
  = list_ascii_of_string a ++ list_ascii_of_string b.
Proof.
  induction a as [|c a IH]; [reflexivity|].
  rewrite append_cons. cbn [list_ascii_of_string app]. rewrite IH. reflexivity.
Qed.

(** [(s + c)[:-1]] is [s]. *)
Lemma str_upto_drop_last (s : string) (c : ascii) :
  str_upto (s +:+ String c EmptyString) (-1) = s.
Proof.
  unfold str_upto, slice, slice_index.
  rewrite list_ascii_of_string_app, length_app. cbn [list_ascii_of_string length].
  change (-1 <? 0) with true. cbn match.
  change (Z.to_nat 0) with 0%nat. rewrite drop_0.
  replace (Z.to_nat _) with (length (list_ascii_of_string s)) by lia.
  rewrite take_app_length. apply string_of_list_ascii_of_string.
Qed.

Lemma readable_disk_label_ascii (raw : list byte) :
  Forall (fun b => byte_val b < 128) raw ->
  readable_disk_label raw
  = if (length raw =? 60)%nat then Return (label_text raw)
    else Raise struct_error.
Proof.
  intros Hraw. unfold readable_disk_label.
  rewrite slice_upto, slice_from by lia.
  change (Z.to_nat 12) with 12%nat.
  rewrite decode_ascii_ok by (apply Forall_take, Hraw). cbn [bind].
  unfold struct_unpack_4s. rewrite length_drop.
  destruct (Nat.eqb_spec (length raw) 60) as [Hlen|Hlen].
  - replace (length raw - 12 =? 4 * 12)%nat with true
      by (symmetry; apply Nat.eqb_eq; lia).
    cbn [bind]. rewrite label_rows by exact Hlen.
    cbn [seq map fold_left].
    rewrite !decode_ascii_ok by (apply label_row_ascii, Hraw). cbn [bind].
    rewrite <- (str_upto_drop_last (label_text raw) (ascii_of_nat 10)).
    do 2 f_equal. unfold label_text. cbn [seq map join].
    fold newline. rewrite !append_assoc. reflexivity.
  - replace (length raw - 12 =? 4 * 12)%nat with false
      by (symmetry; apply Nat.eqb_neq; lia).
    reflexivity.
Qed.

Lemma readable_disk_label_non_ascii (raw : list byte) :
  Exists (fun b => 128 <= byte_val b) (take 12 raw) ->
  readable_disk_label raw = Raise UnicodeDecodeError.
Proof.
  intros H. unfold readable_disk_label. rewrite slice_upto by lia.
  change (Z.to_nat 12) with 12%nat. rewrite decode_ascii_fails by exact H.
  reflexivity.
Qed.

(** X23. readable_disk_label on ASCII bytes: a label of exactly 60 bytes
    gives five lines, the first 12 bytes and then the four rows read
    across the twelve 4-byte columns (row r holds the bytes at offsets
    12 + 4c + r), with no newline at the end; any other length raises
    struct.error. *)
Theorem X23_readable_disk_label (raw : list byte) :
  Forall (fun b => byte_val b < 128) raw ->
  readable_disk_label raw
  = if (length raw =? 60)%nat then Return (label_text raw)
    else Raise struct_error.
Proof. apply readable_disk_label_ascii. Qed.

Lemma X23_readable_disk_label_witness :
  Forall (fun b => byte_val b < 128) (replicate 60 x41) /\
  readable_disk_label (replicate 60 x41)
  = Return (label_text (replicate 60 x41)).
Proof.
  assert (H : Forall (fun b => byte_val b < 128) (replicate 60 x41))
    by (apply Forall_replicate; vm_compute; reflexivity).
  split; [exact H|]. exact (X23_readable_disk_label (replicate 60 x41) H).
Defined.

(** X24. A byte of 0x80 or more among the first 12 bytes of the label
    makes readable_disk_label raise UnicodeDecodeError, whatever the
    length of the label: the first line is decoded before the rest is
    unpacked. *)
Theorem X24_readable_disk_label_non_ascii (raw : list byte) :
  Exists (fun b => 128 <= byte_val b) (take 12 raw) ->
  readable_disk_label raw = Raise UnicodeDecodeError.
Proof. apply readable_disk_label_non_ascii. Qed.

Lemma X24_readable_disk_label_non_ascii_witness :
  Exists (fun b => 128 <= byte_val b) (take 12 [x41; xff]) /\
  readable_disk_label [x41; xff] = Raise UnicodeDecodeError.
Proof.
  assert (H : Exists (fun b => 128 <= byte_val b) (take 12 [x41; xff]))
    by (apply Exists_cons_tl, Exists_cons_hd; vm_compute; discriminate).
  split; [exact H|]. exact (X24_readable_disk_label_non_ascii [x41; xff] H).
Defined.

(** ** Display strings of single values *)

(** [str] begins with a digit or with the minus sign. *)
Lemma str_first_char (z : Z) :
  exists c s, str z = String c s /\ (is_digit c = true \/ c = "-"%char).
Proof.
  destruct (str_digits z) as (d & Hd & _ & ->).
  destruct (z <? 0).
  - eexists _, _. split; [reflexivity|right; reflexivity].
  - destruct (uint_first_digit d Hd) as (c & s & -> & Hc).
    eexists _, _. split; [reflexivity|left; exact Hc].
Qed.

Lemma str_not_word (z : Z) (c : ascii) (s : string) :
  is_digit c = false -> c <> "-"%char -> str z <> String c s.
Proof.
  intros Hc Hm H. destruct (str_first_char z) as (c' & s' & E & Hc').
  rewrite E in H. injection H as Heq _. subst c'. destruct Hc'; congruence.
Qed.

Lemma midi_multi_ch_parse_inj (a b : list Z) :
  midi_multi_ch_parse a = midi_multi_ch_parse b -> a = b.
Proof.
  unfold midi_multi_ch_parse. revert b.
  induction a as [|x a IH]; intros [|y b] H; try discriminate H; [reflexivity|].
  cbn [map] in H. injection H as Hxy Hab. f_equal; [|apply IH, Hab].
  destruct (Z.eqb_spec x 16) as [->|Hx], (Z.eqb_spec y 16) as [->|Hy].
  - reflexivity.
  - symmetry in Hxy. apply str_not_word in Hxy; [contradiction|reflexivity|discriminate].
  - apply str_not_word in Hxy; [contradiction|reflexivity|discriminate].
  - apply str_inj in Hxy. lia.
Qed.

Lemma patch_output_renum_inj (a b : Z) :
  patch_output_renum a = patch_output_renum b -> a = b.
Proof.
  unfold patch_output_renum. intros H.
  destruct (Z.eqb_spec a 8) as [Ha|Ha], (Z.eqb_spec b 8) as [Hb|Hb].
  - congruence.
  - symmetry in H. apply str_not_word in H; [contradiction|reflexivity|discriminate].
  - apply str_not_word in H; [contradiction|reflexivity|discriminate].
  - apply str_inj in H. lia.
Qed.

Lemma parse_voice_mode_inj (a b : Z) :
  parse_voice_mode a = parse_voice_mode b -> a = b.
Proof.
  unfold parse_voice_mode. intros H.
  destruct (Z.eqb_spec a 0) as [Ha0|Ha0], (Z.eqb_spec b 0) as [Hb0|Hb0];
    [congruence|..].
  - destruct (Z.eqb_spec b 1); discriminate H.
  - destruct (Z.eqb_spec a 1); discriminate H.
  - destruct (Z.eqb_spec a 1) as [Ha1|Ha1], (Z.eqb_spec b 1) as [Hb1|Hb1];
      [congruence|discriminate H|discriminate H|].
    injection H as H. apply str_inj in H. lia.
Qed.

(** X25. The display strings of MIDI channel tuples, output assigns and
    voice modes lose nothing: two different values never give the same
    string (Off and Tone are not the string of any number, and the three
    forms of a voice mode begin with different letters). *)
Theorem X25_display_strings_injective :
  (forall a b, midi_multi_ch_parse a = midi_multi_ch_parse b -> a = b) /\
  (forall a b, patch_output_renum a = patch_output_renum b -> a = b) /\
  (forall a b, parse_voice_mode a = parse_voice_mode b -> a = b).
Proof.
  split; [exact midi_multi_ch_parse_inj|].
  split; [exact patch_output_renum_inj|exact parse_voice_mode_inj].
Qed.

Lemma X25_display_strings_injective_witness :
  parse_voice_mode 2 = parse_voice_mode (1 + 1) /\ 2 = 1 + 1.
Proof.
  assert (H : parse_voice_mode 2 = parse_voice_mode (1 + 1)) by reflexivity.
  split; [exact H|].
  destruct X25_display_strings_injective as (_ & _ & Hmode).
  exact (Hmode 2 (1 + 1) H).
Defined.

Lemma multi_roland_number_each (vals : list Z) (l : list string) :
  multi_roland_number vals = Done l ->
  Forall2 (fun v s => roland_number v = Done s) vals l.
Proof.
  revert l. induction vals as [|v vals IH]; intros l H.
  - injection H as <-. constructor.
  - cbn [multi_roland_number] in H.
    destruct (roland_number v) as [s|] eqn:Hv; [|discriminate H].
    cbn [check_bind] in H.
    destruct (multi_roland_number vals) as [rest|]; [|discriminate H].
    injection H as <-. constructor; [exact Hv|apply IH; reflexivity].
Qed.

Lemma multi_roland_number_fails (vals : list Z) :
  multi_roland_number vals = ValueError <-> Exists (fun v => v < 0) vals.
Proof.
  induction vals as [|v vals IH].
  - split; [discriminate|]. intros H. inversion H.
  - cbn [multi_roland_number]. rewrite Exists_cons.
    destruct (Z.lt_ge_cases v 0) as [Hneg|Hpos].
    + rewrite roland_number_negative by exact Hneg. cbn [check_bind]. tauto.
    + destruct (roland_number_returns v Hpos) as (s & ->). cbn [check_bind].
      destruct (multi_roland_number vals) as [rest|]; cbn [check_bind].
      * split; [discriminate|]. intros [H|H]; [lia|]. apply IH in H. discriminate H.
      * split; [|reflexivity]. intros _. right. apply IH. reflexivity.
Qed.

(** X26. multi_roland_number fails with ValueError exactly when one of
    the patch numbers is negative; otherwise it returns one Roland number
    for each value, in order. *)
Theorem X26_multi_roland_number (vals : list Z) :
  (multi_roland_number vals = ValueError <-> Exists (fun v => v < 0) vals) /\
  (forall l, multi_roland_number vals = Done l ->
     Forall2 (fun v s => roland_number v = Done s) vals l).
Proof.
  split; [apply multi_roland_number_fails|].
  intros l. apply multi_roland_number_each.
Qed.

Lemma X26_multi_roland_number_witness :
  multi_roland_number [0; 31] = Done ["I11"; "I48"]%string /\
  Forall2 (fun v s => roland_number v = Done s) [0; 31] ["I11"; "I48"]%string.
Proof.
  assert (H : multi_roland_number [0; 31] = Done ["I11"; "I48"]%string)
    by (vm_compute; reflexivity).
  split; [exact H|].
  destruct (X26_multi_roland_number [0; 31]) as [_ Heach].
  exact (Heach _ H).
Defined.
